(* ===== verification/_CoqProject ===== *)
-Q . S2P
Prelude.v
Js.v
Doubles.v
Todo.v
Query.v
Store.v
StoreSpec.v
Filter.v
Cli.v
Effects.v
TodoShow.v
Runs.v
Concurrent.v
