(* ===== verification/Prelude.v ===== *)
(** * todo-live: a verification development of [todo show]

    ** The program
    The repository's only source under [src/] is [src/bin/todo-show.ts],
    the [todo show] command of a personal task tracker.  It reads the whole
    collection from a local store ([utils/store.ts]), and then
    - prints "Nothing needs to do." when the collection is empty
      ([showError], line 32);
    - with [--edit] and an index, opens the editor screen ([showEditor],
      lines 34-46): it looks the task up by [index], asks for a title
      (input prompt, default the old title, [validate: v => !!v]) and a
      description (editor prompt), flattens the description's line feeds
      to [". "], merges the answers into the task and writes it back with
      [store.update({ _id })];
    - with an index only, shows the task ([showTask], lines 48-70) inside a
      [try]/[catch] that prints "Nothing needs to do." on any error;
    - otherwise lists every task (lines 83-92).
    It calls [utils/filter.ts] (deadline text, overdue test, script
    detection, colour and symbol, truncation), which is not under [src/].

    ** The files, in dependency order
    - [Prelude] (this file): notation scope, hint databases [todo] and
      [todo_rw], generic lemmas on strings and lists.
    - [Js]: the JavaScript the script relies on: [truthy_str], the unary
      [+] on strings ([to_number]: StringToNumber with white space, decimal,
      exponent, [Infinity], [0x]/[0o]/[0b], and rounding to an IEEE double),
      number text ([z_text], [num_text]) and [replace_newlines].
    - [Doubles]: integer text beyond the safe integers: from [2^53] on,
      [+s] reads the text of an integer as [nearest_double], the integer
      rounded half to even to the nearest multiple of a power of two.
    - [Todo]: the [TodoItem] record and the [TodoStatus] enum (from the
      spec, section 3).
    - [Query]: the QueryMatcher (spec 4.1) and the three queries the script
      issues: [q_all] ([{}]), [q_index] ([{ index }]), [q_id] ([{ _id }]).
    - [Store]: the store (spec 4.2) as functions on the ordered collection:
      [find], [findOne], [update] (first match, identity kept,
      [NotFoundError]), [insert], [remove], and its invariant [wf]: unique
      ids drawn from a counter, unique indices within the safe integers.
    - [StoreSpec]: the store's contract as a [Class] of operations
      ([StoreOps]) and of laws ([StoreContract]), the lookups and the
      update by [_id] proved against it, and the list store as an
      [Instance].
    - [Filter]: the StatusDeriver (spec 4.3): [date], [isTimeout],
      [findScripts], [colorOfTask], [symbolOfTask], [strEllipsis] (which
      counts characters, [char_count], and cuts between them, [take_chars]).
    - [Cli]: commander's parsing of [process.argv] for the one flag
      [-e, --edit] (lines 11-13), after commander 2.x: [normalize],
      [parse_options], [commander_parse] with its help and unknown-option
      exits.
    - [Effects]: one run of the command as a computation in a state and
      exception monad [M] over a [World] (store, disk health, clock, typed
      lines, editor sessions, console output), parametric in the store's
      type; [console_log], Chalk's [paint], [try_catch], the store calls
      through [StoreOps], and [inquirer.prompt].  The predicate
      [read_only] on computations composes over binds ([solve_read_only]).
    - [TodoShow]: the command itself, one definition per function of
      [todo-show.ts] ([makeTaskQuestions], [showError], [showEditor],
      [showTask] with [printTask], the list with [listItem], [main]); the
      editor screen is also cut at its [await store.update] into
      [editor_read] and [editor_write], proved equal to it.  [edits_task]
      states the one change the editor screen may make to the store.  The
      definitions are in a [Section] over a store with [StoreOps], the
      theorems in one over a store with [StoreContract]; the sample world
      and the witnesses use the list store.
    - [Runs]: [todo_show], the whole script: commander's result on
      [process.argv] fed to [main]; two invocations of it in sequence; and
      any sequence of invocations as the step relation [run_step] on the
      store, with the fields of a task no run may change ([frozen]).
    - [Concurrent]: two invocations of [todo show --edit] at once: each
      process a state machine ([Phase]) whose steps ([step_proc]) are its
      [editor_read] and [editor_write] on the shared file, run under a
      schedule of process identities ([run_schedule]) over all
      [interleave]ings of the two processes' steps.

    ** What is proved (claims C1-C35 of the manifest)
    - The command's theorems hold for every store that meets the contract
      [StoreContract] (the list store of [Store] is one).  The editor
      screen issues the update by the found task's [_id] with the new
      title and the flattened description, identity kept, and that update
      puts the record at the task's position and nothing else (C1); on an
      unknown index it throws before prompting (C5); abandoned at either
      prompt it writes nothing (C6).  Its questions never yield an empty
      title and are answered once a usable line is typed (C21, C22).
    - Without [--edit] the store is never changed (C2); one run keeps the
      store invariant and changes the store at most by the edit it asks
      for: with [--edit], one update that rewrites only the title (to a
      non-empty one) and the description of the task [+index] selects, in
      place (C3).  Over any sequence of runs ([run_step], one per process,
      with any environment in between) the list store stays well formed,
      keeps its id counter, and keeps every task in its place with its
      [_id], [index], [status], [cronTime] and [notes], a changed title
      never empty (C4, by induction on the runs, each one by the per-run
      lemma [TodoShow.main_store]).  Two concurrent edits of the same
      task, over the six interleavings of their reads and writes: a serial
      schedule composes the edits; in the four others both confirm, and
      the file keeps only the last writer's record, built from the
      original task (C35, file [Concurrent]).
    - The detail screen never throws (C12), prints exactly the header,
      title, description and notes of the found task, with the task's own
      index (C7), and the message otherwise: on an unreadable file (C18),
      on an index that selects nothing or a task without an [_id] (C19).
      Typing back the index the list prints shows that task (C8); more
      generally [todo show s] shows the task whose index is the number
      [+s] reads, and the message when there is none (C9), and after an
      edit the next run shows the edited task (C11: two invocations of the
      whole script in sequence).  Its header shows a stored deadline as
      the same text, which round-trips through the deadline parser (C13),
      and the "(bash resolved)" marker appears exactly when the
      description has a back-quoted command and the deadline has passed
      (C14, against the declarative [has_fragment]).
    - Command line: the edit flag may stand anywhere among the words
      (C27); after [--] every word is positional (C28); an unknown option
      swallows the word after it (C29), so [todo show -x 2] exits with the
      unknown-option error while [todo show 2 -x] shows task 2 (C10).
    - [main] on the list path, on an empty store and on an unreadable file
      (C15, C16, C17); every line the list prints for a task of a store
      satisfying the invariant is at most 90 characters, whatever the
      title and description, and a cut never splits a multi-byte character
      (C20).
    - Store: the contract of spec 4.2 as the classes [StoreOps] and
      [StoreContract] (the laws of [find], [findOne] and [update], and an
      invariant giving unique non-empty [_id]s and unique safe indices);
      against it alone, the lookups by index and by [_id] find the stored
      record and the update by a stored record's [_id] replaces it in
      place (lemmas of [StoreSpec]), and the list store is an instance.
      For the list store, update by [_id] refines a list update and keeps
      [wf] (C23), fails exactly when no record has the [_id] (C24), is
      idempotent (C25); insert then lookup round-trips (C26).
    - JavaScript: the unary [+] reads the printed text of every safe
      integer back as that integer, leading zeros allowed (C30); a
      white-space character in front of the index is ignored (C31), and so
      is one after it, of one byte or of several (C32); from [2^53] on the
      text of an integer reads as the nearest double, so [todo show
      9007199254740993] looks up the index [9007199254740992] (C34, file
      [Doubles]).  [replace_newlines] leaves no line feed (C33).

    ** Modelling choices and bounds
    - Strings are Rocq strings of UTF-8 bytes.  [strEllipsis] counts
      characters, the code points of the UTF-8 text, and cuts between
      them (C20); JavaScript's [.length] counts UTF-16 units,
      the same outside the supplementary planes.
    - [to_number] computes the exact value of the literal and rounds it to
      the nearest double; the trimming runs one iteration per byte, which
      is enough since each iteration removes at least one byte, so more
      fuel changes nothing ([Js.drop_ws_fuel_stable]); exponents beyond
      310 or below -324 short-cut to infinity or zero without computing
      the power.  Integer text ([z_text]) is exact for integers below
      10^21; the store keeps indices at most [2^53], up to which [+] reads
      the text back exactly (C30); beyond, it rounds
      (C34).
    - The clock is constant during one run: the list reads it for each
      of [Filter]'s calls that do, the detail screen once, and all
      readings agree;
      the disk is either readable for the whole run or not at all, so the
      [catch] of [showTask] (C12) is only reached when
      [showTask] runs on its own.
    - The schedule syntax of [cronTime] is not in [src/]: a deadline is
      modelled as a fixed [YYYY-MM-DD HH:mm] date.
    - commander: the 2.x parser, the one whose [commander.edit] and
      [commander.args] properties the script reads; the repository does
      not pin a version.
    - Not modelled: the usage text commander prints for [--help] (only
      its exit), terminal rendering of colours, the prompt UI, the
      on-disk encoding and crash atomicity of the store file, and the other
      commands (add, delete).
    - Between two runs only the store survives ([run_step]): the next run
      may see any flags, typed lines, editor sessions, clock and disk.
    - Concurrency: each store call is atomic (the spec's load, operate and
      flush), so a process's steps are its read and its write; every
      schedule of two editing processes is covered
      (C35); more processes and crashes during a write
      are not modelled.

    ** Open points
    - The texts [+index] reads as a given integer are described for
      decimal numerals, leading zeros included (C30), and
      above [2^53] (C34); fractions ([2.0]),
      exponents ([2e0]) and [0x]/[0o]/[0b] literals are covered by the
      general [to_number] (C9) and shown on
      examples, not characterised in closed form.
    - The colours are [utils/filter.ts]'s, which is not under [src/]: the
      detail and list screens paint with [colorOfTask] (C7,
      C15), whose table is the spec's tokens, not code.
    - StatusDeriver stays partly modelled for the same reason: the
      schedule syntax of [cronTime] and the script pattern are choices of
      [utils/filter.ts] the spec leaves open. *)

From stdpp Require Import base list strings.
From Stdlib Require Import ZArith.

Declare Scope todo_scope.
Delimit Scope todo_scope with todo.
Open Scope todo_scope.

Create HintDb todo discriminated.
#[export] Hint Constants Transparent : todo.
Create Rewrite HintDb todo_rw.

(** ** Generic lemmas on strings ([+:+] is stdpp's [String.append]) *)

Lemma str_app_cons (c : Ascii.ascii) (s t : string) : String c s +:+ t = String c (s +:+ t).
Proof. reflexivity. Qed.

Lemma str_app_nil_l (s : string) : EmptyString +:+ s = s.
Proof. reflexivity. Qed.

Lemma str_app_nil_r (s : string) : s +:+ EmptyString = s.
Proof. induction s as [|c s IH]; [done|]. by rewrite str_app_cons, IH. Qed.

Lemma str_app_assoc (a b c : string) : (a +:+ b) +:+ c = a +:+ (b +:+ c).
Proof. induction a as [|x a IH]; [done|]. by rewrite !str_app_cons, IH. Qed.

Lemma str_length_app (a b : string) :
  String.length (a +:+ b) = String.length a + String.length b.
Proof. induction a as [|x a IH]; [done|]. rewrite str_app_cons; simpl; by rewrite IH. Qed.

#[export] Hint Rewrite str_app_cons str_app_nil_l str_app_nil_r str_app_assoc str_length_app : todo_rw.

Lemma string_of_list_ascii_app (a b : list Ascii.ascii) :
  String.string_of_list_ascii (a ++ b) = String.string_of_list_ascii a +:+ String.string_of_list_ascii b.
Proof. induction a as [|c a IH]; [done|]. simpl. by rewrite IH. Qed.

(** ** Generic lemmas on lists *)

(** A property of a projection transfers between lists with the same
    projections. *)
Lemma Forall_proj_transfer {A B} (f : A → B) (P : B → Prop) (l l' : list A) :
  f <$> l' = f <$> l → Forall (λ x, P (f x)) l → Forall (λ x, P (f x)) l'.
Proof.
  intros Heq Hl. apply (Forall_fmap f P). rewrite Heq. by apply Forall_fmap.
Qed.

(** [List.find] returns an element that satisfies the test. *)
Lemma find_some_spec {A} (p : A → bool) (l : list A) (x : A) :
  List.find p l = Some x → x ∈ l ∧ p x = true.
Proof.
  intros H. destruct (List.find_some p l H) as [Hin Hp].
  split; [by apply list_elem_of_In | done].
Qed.

(** [List.find] skips a prefix none of whose elements passes the test. *)
Lemma find_app_r {A} (p : A → bool) (l1 l2 : list A) :
  (∀ x, x ∈ l1 → p x = false) → List.find p (l1 ++ l2) = List.find p l2.
Proof.
  induction l1 as [|x l1 IH]; intros Hl1; [done|]. simpl.
  rewrite (Hl1 x); [|by left]. apply IH. intros y Hy. apply Hl1. by right.
Qed.

(** Two members of a list with no duplicate projections and equal
    projections are equal. *)
Lemma NoDup_fmap_eq {A B} (f : A → B) (l : list A) (x y : A) :
  NoDup (f <$> l) → x ∈ l → y ∈ l → f x = f y → x = y.
Proof.
  induction l as [|z l IH]; [by intros _ ?%elem_of_nil|].
  rewrite fmap_cons, NoDup_cons. intros [Hz Hnd] [->|Hx]%elem_of_cons [->|Hy]%elem_of_cons Hf;
    [done | | | by apply IH].
  - destruct Hz. rewrite Hf. by apply list_elem_of_fmap_2.
  - destruct Hz. rewrite <-Hf. by apply list_elem_of_fmap_2.
Qed.

(** [List.find] finds nothing exactly when no element passes the test. *)
Lemma find_None_iff {A} (p : A → bool) (l : list A) :
  List.find p l = None ↔ ∀ x, x ∈ l → p x = false.
Proof.
  induction l as [|y l IH]; simpl.
  { split; [intros _ x Hx; by apply elem_of_nil in Hx | done]. }
  destruct (p y) eqn:Hy; split; try done.
  - intros H. rewrite (H y) in Hy; [done | by left].
  - intros H x [->|Hx]%elem_of_cons; [done | by apply IH].
  - intros H. apply IH. intros x Hx. apply H. by right.
Qed.

Lemma str_length_of_list (l : list Ascii.ascii) :
  String.length (String.string_of_list_ascii l) = length l.
Proof. induction l as [|c l IH]; [done|]. simpl. by rewrite IH. Qed.
