(* ===== verification/Js.v ===== *)
(** * Js: the pieces of JavaScript semantics that [src/bin/todo-show.ts] relies on

    - [truthy_str]: ToBoolean on strings ([if (index)], [item.description && ...]);
    - [to_number]: the unary [+] on a string ([+index], lines 78 and 80), i.e.
      StringToNumber of ECMA-262: white space trimmed, decimal literals with
      fraction and exponent, [Infinity], [0x]/[0o]/[0b] literals, and the
      rounding of the exact value to an IEEE-754 double;
    - [num_text], [z_text]: the text of a number in a template literal;
    - [replace_newlines]: [answer.description.replace(/\n/g, '. ')] (line 41).

    JavaScript strings are modelled as Rocq strings of UTF-8 bytes; the
    Unicode white space of StringToNumber is matched on its UTF-8 encoding.
    The trimming runs on fuel, one iteration per byte; the Section
    [drop_ws_fuel] shows that more fuel than the text's length changes
    nothing, which [trim_js_step] uses to drop a leading white-space
    character. *)

From stdpp Require Import base list strings.
From Stdlib Require Import ZArith Ascii DecimalString.
From S2P Require Import Prelude.

(** ** ToBoolean on strings *)

Definition truthy_str (s : string) : bool :=
  match s with EmptyString => false | String _ _ => true end.

(** ** Numbers

    A JavaScript number as far as the script can observe it: [NaN], an
    integral double (kept exactly, as [Z]), an infinity, or a finite double
    that is not an integer.  No stored index is ever equal to the last two
    (store indices are integers), so the script never looks further into
    them. *)
Inductive jsnum :=
  | JNaN
  | JInt (z : Z)
  | JInf (negative : bool)
  | JFrac.

#[export] Instance jsnum_eq_dec : EqDecision jsnum.
Proof. solve_decision. Defined.

(** ** White space of StringToNumber (WhiteSpace and LineTerminator) *)

Definition code (c : ascii) : nat := nat_of_ascii c.

(** TAB, LF, VT, FF, CR, SPACE *)
Definition ws1 (a : nat) : bool := bool_decide (a ∈ [9; 10; 11; 12; 13; 32]).
(** U+00A0 *)
Definition ws2 (a b : nat) : bool := bool_decide (a = 194 ∧ b = 160).
(** U+FEFF, U+1680, U+2000..U+200A, U+2028, U+2029, U+202F, U+205F, U+3000 *)
Definition ws3 (a b c : nat) : bool :=
  bool_decide ((a, b, c) ∈ [(239, 187, 191); (225, 154, 128); (226, 128, 168);
                            (226, 128, 169); (226, 128, 175); (226, 129, 159);
                            (227, 128, 128)])
  || bool_decide (a = 226 ∧ b = 128 ∧ 128 ≤ c ≤ 138).

(** Removes one white-space character at the front of [l], if there is one. *)
Definition ws_prefix (l : list ascii) : option (list ascii) :=
  match l with
  | a :: r =>
      if ws1 (code a) then Some r else
      match r with
      | b :: r2 =>
          if ws2 (code a) (code b) then Some r2 else
          match r2 with
          | c :: r3 => if ws3 (code a) (code b) (code c) then Some r3 else None
          | [] => None
          end
      | [] => None
      end
  | [] => None
  end.

(** The same on a reversed string (the bytes of a character come last first). *)
Definition ws_prefix_rev (l : list ascii) : option (list ascii) :=
  match l with
  | a :: r =>
      if ws1 (code a) then Some r else
      match r with
      | b :: r2 =>
          if ws2 (code b) (code a) then Some r2 else
          match r2 with
          | c :: r3 => if ws3 (code c) (code b) (code a) then Some r3 else None
          | [] => None
          end
      | [] => None
      end
  | [] => None
  end.

(** Repeats [step] while it applies; [fuel] bounds the iterations. *)
Fixpoint drop_ws (step : list ascii → option (list ascii)) (fuel : nat)
    (l : list ascii) : list ascii :=
  match fuel with
  | O => l
  | S f => match step l with Some r => drop_ws step f r | None => l end
  end.

(** Each step removes at least one byte, so [length l] steps are enough. *)
Definition trim_js (l : list ascii) : list ascii :=
  let l1 := drop_ws ws_prefix (length l) l in
  rev (drop_ws ws_prefix_rev (length l1) (rev l1)).

(** ** Digits *)

Local Open Scope Z_scope.

(** The value of an ASCII digit or letter in radices up to 36. *)
Definition digit_value (c : ascii) : option Z :=
  let n := code c in
  if bool_decide (48 ≤ n ≤ 57)%nat then Some (Z.of_nat n - 48)
  else if bool_decide (97 ≤ n ≤ 122)%nat then Some (Z.of_nat n - 87)
  else if bool_decide (65 ≤ n ≤ 90)%nat then Some (Z.of_nat n - 55)
  else None.

Definition digit_in (radix : Z) (c : ascii) : option Z :=
  match digit_value c with
  | Some d => if bool_decide (d < radix) then Some d else None
  | None => None
  end.

(** The longest prefix of digits of [radix], and what follows it. *)
Fixpoint span_digits (radix : Z) (l : list ascii) : list Z * list ascii :=
  match l with
  | c :: r =>
      match digit_in radix c with
      | Some d => let '(ds, rest) := span_digits radix r in (d :: ds, rest)
      | None => ([], l)
      end
  | [] => ([], [])
  end.

Definition digits_value (radix : Z) (ds : list Z) : Z :=
  foldl (λ acc d, acc * radix + d) 0 ds.

(** ** Rounding an exact value to a double *)

(** [a / b] rounded to the nearest integer, ties to even ([a ≥ 0], [b > 0]). *)
Definition round_half_even (a b : Z) : Z :=
  let q := a / b in
  match Z.compare (2 * (a mod b)) b with
  | Lt => q
  | Gt => q + 1
  | Eq => if Z.even q then q else q + 1
  end.

(** [p / (q * 2^k)] as a fraction with integral numerator and denominator. *)
Definition scale (p q k : Z) : Z * Z :=
  if 0 <=? k then (p, q * 2 ^ k) else (p * 2 ^ (- k), q).

(** The binary exponent [k] with [2^52 ≤ p / (q * 2^k) < 2^53], for
    [p, q > 0]: with [k = log2 p - log2 q - 52] the quotient lies in
    [(2^51, 2^53)], so at most one correction is needed. *)
Definition binade (p q : Z) : Z :=
  let k := Z.log2 p - Z.log2 q - 52 in
  let '(a, b) := scale p q k in
  if a <? b * 2 ^ 52 then k - 1 else k.

(** The double nearest to [p / q] ([p ≥ 0], [q > 0]): a 53-bit significand
    [m] and exponent [k ≥ -1074] (subnormals), infinity from [2^1024] on. *)
Definition to_double (p q : Z) : jsnum :=
  if p =? 0 then JInt 0 else
  let k := Z.max (binade p q) (-1074) in
  let '(a, b) := scale p q k in
  let m := round_half_even a b in
  if 1024 <=? Z.log2 m + k then JInf false
  else if 0 <=? k then JInt (m * 2 ^ k)
  else if m mod 2 ^ (- k) =? 0 then JInt (m / 2 ^ (- k))
  else JFrac.

Definition neg_num (n : jsnum) : jsnum :=
  match n with
  | JInt z => JInt (- z)
  | JInf b => JInf (negb b)
  | n => n
  end.

(** ** StringToNumber *)

(** [ExponentPart] (or nothing): [e]/[E], an optional sign, digits. *)
Definition parse_exponent (l : list ascii) : option Z :=
  match l with
  | [] => Some 0
  | c :: r =>
      if bool_decide (c = "e"%char ∨ c = "E"%char) then
        let '(s, r') := match r with
                        | "+"%char :: r' => (1, r')
                        | "-"%char :: r' => (-1, r')
                        | _ => (1, r)
                        end in
        match span_digits 10 r' with
        | (ds, []) => if bool_decide (ds = []) then None
                      else Some (s * digits_value 10 ds)
        | _ => None
        end
      else None
  end.

(** The value [digits * 10^e]; exponents far outside the range of doubles
    give infinity or zero without computing the power. *)
Definition decimal_value (ds : list Z) (e : Z) : jsnum :=
  let m := digits_value 10 ds in
  if m =? 0 then JInt 0
  else if 310 <? e then JInf false
  else if Z.log2 m + 1 + e <=? -324 then JInt 0
  else if 0 <=? e then to_double (m * 10 ^ e) 1
  else to_double m (10 ^ (- e)).

(** [StrUnsignedDecimalLiteral]. *)
Definition parse_unsigned_decimal (l : list ascii) : option jsnum :=
  if bool_decide (l = String.list_ascii_of_string "Infinity") then Some (JInf false) else
  let '(ip, r1) := span_digits 10 l in
  match r1 with
  | "."%char :: r2 =>
      let '(fp, r3) := span_digits 10 r2 in
      if bool_decide (ip = [] ∧ fp = []) then None else
      e ← parse_exponent r3; Some (decimal_value (ip ++ fp) (e - Z.of_nat (length fp)))
  | _ =>
      if bool_decide (ip = []) then None else
      e ← parse_exponent r1; Some (decimal_value ip e)
  end.

(** [NonDecimalIntegerLiteral] after its [0x], [0o] or [0b]. *)
Definition parse_radix (radix : Z) (l : list ascii) : option jsnum :=
  match span_digits radix l with
  | (ds, []) => if bool_decide (ds = []) then None
                else Some (to_double (digits_value radix ds) 1)
  | _ => None
  end.

(** [StringNumericLiteral] on a trimmed string; [NaN] when it does not parse. *)
Definition string_to_number (l : list ascii) : jsnum :=
  let r :=
    match l with
    | [] => Some (JInt 0)
    | "0"%char :: x :: rest =>
        if bool_decide (x = "x"%char ∨ x = "X"%char) then parse_radix 16 rest
        else if bool_decide (x = "o"%char ∨ x = "O"%char) then parse_radix 8 rest
        else if bool_decide (x = "b"%char ∨ x = "B"%char) then parse_radix 2 rest
        else parse_unsigned_decimal l
    | "+"%char :: rest => parse_unsigned_decimal rest
    | "-"%char :: rest => neg_num <$> parse_unsigned_decimal rest
    | _ => parse_unsigned_decimal l
    end in
  from_option id JNaN r.

(** [+s] for a string [s]. *)
Definition to_number (s : string) : jsnum :=
  string_to_number (trim_js (String.list_ascii_of_string s)).

(** ** Numbers in template literals *)

Definition digit_char (d : Z) : ascii := ascii_of_nat (48 + Z.to_nat d).

(** The decimal digits of [n ≥ 0], most significant first; each step
    divides by 10, so [fuel] steps cover every [n < 2^fuel]. *)
Fixpoint dec_digits (fuel : nat) (n : Z) : list Z :=
  match fuel with
  | O => []
  | S f => if n <? 10 then [n] else dec_digits f (n / 10) ++ [n mod 10]
  end.

(** The decimal text of an integer (Number::toString for [|z| < 10^21];
    the store keeps indices below [2^53], see [Store.wf_index]). *)
Definition z_text (z : Z) : string :=
  String.string_of_list_ascii
    ((if z <? 0 then ["-"%char] else []) ++
     (digit_char <$> dec_digits (S (Z.to_nat (Z.log2 (Z.abs z)))) (Z.abs z))).

(** [`${n}`].  A finite non-integral number has no exact text here: the
    script only prints a number it has matched against a stored integer
    index ([TodoShow.show_task_header_index]). *)
Definition num_text (n : jsnum) : string :=
  match n with
  | JNaN => "NaN"
  | JInt z => z_text z
  | JInf false => "Infinity"
  | JInf true => "-Infinity"
  | JFrac => EmptyString
  end.

Local Close Scope Z_scope.

(** ** [s.replace(/\n/g, '. ')] *)

Definition newline : ascii := "010"%char.

Fixpoint replace_newlines (s : string) : string :=
  match s with
  | EmptyString => EmptyString
  | String c r =>
      if bool_decide (c = newline) then ". " +:+ replace_newlines r
      else String c (replace_newlines r)
  end.

(** ** Theorems on [replace_newlines] *)

Lemma replace_newlines_cons (c : ascii) (s : string) :
  replace_newlines (String c s) =
  if bool_decide (c = newline) then ". " +:+ replace_newlines s else String c (replace_newlines s).
Proof. reflexivity. Qed.

(** C33: after [replace(/\n/g, '. ')] no line feed is left. *)
Theorem replace_newlines_no_newline (s : string) :
  newline ∉ String.list_ascii_of_string (replace_newlines s).
Proof.
  induction s as [|c s IH]; simpl; [by intros ?%elem_of_nil|].
  case_bool_decide as Hc; simpl.
  - intros [Heq|[Heq|Hin]%elem_of_cons]%elem_of_cons; [discriminate | discriminate | done].
  - intros [Heq|Hin]%elem_of_cons; [by apply Hc | done].
Qed.

(** A text without line feeds is left as it is. *)
Lemma replace_newlines_id (s : string) :
  newline ∉ String.list_ascii_of_string s → replace_newlines s = s.
Proof.
  induction s as [|c s IH]; simpl; [done|]. intros Hn.
  rewrite bool_decide_eq_false_2 by (intros ->; apply Hn; left).
  f_equal. apply IH. intros Hin. apply Hn. by right.
Qed.

(** ** The text of an index reads back as that index *)

Local Open Scope Z_scope.

Lemma code_digit_char (d : Z) : 0 ≤ d < 10 → code (digit_char d) = (48 + Z.to_nat d)%nat.
Proof. intros Hd. unfold code, digit_char. apply nat_ascii_embedding. lia. Qed.

Lemma digit_in_digit_char (d : Z) : 0 ≤ d < 10 → digit_in 10 (digit_char d) = Some d.
Proof.
  intros Hd. assert (d = 0 ∨ d = 1 ∨ d = 2 ∨ d = 3 ∨ d = 4 ∨ d = 5 ∨ d = 6 ∨ d = 7 ∨ d = 8 ∨ d = 9)
    as Hcases by lia.
  by destruct_or! Hcases; subst.
Qed.

Lemma dec_digits_range (f : nat) (n : Z) :
  0 ≤ n → Forall (λ d, 0 ≤ d < 10) (dec_digits f n).
Proof.
  revert n. induction f as [|f IH]; intros n Hn; simpl; [constructor|].
  destruct (n <? 10) eqn:E; [apply Z.ltb_lt in E; repeat constructor; lia|].
  apply Forall_app. split; [apply IH; apply Z.div_pos; lia | repeat constructor].
  - apply Z.mod_pos_bound; lia.
  - apply Z.mod_pos_bound; lia.
Qed.

Lemma dec_digits_value (f : nat) (n : Z) :
  0 ≤ n < 2 ^ Z.of_nat f → digits_value 10 (dec_digits f n) = n.
Proof.
  revert n. induction f as [|f IH]; intros n Hn; simpl;
    [change (Z.of_nat 0) with 0 in Hn; rewrite Z.pow_0_r in Hn; unfold digits_value; simpl; lia|].
  destruct (n <? 10) eqn:E; [done|]. apply Z.ltb_ge in E.
  unfold digits_value in *. rewrite foldl_app, IH; simpl.
  - pose proof (Z.div_mod n 10). lia.
  - rewrite Nat2Z.inj_succ, Z.pow_succ_r in Hn by lia.
    split; [apply Z.div_pos; lia|]. apply Z.div_lt_upper_bound; lia.
Qed.

(** With enough fuel, a positive number's first digit is not [0]. *)
Lemma dec_digits_head (f : nat) (n : Z) :
  1 ≤ n < 2 ^ Z.of_nat f → ∃ d r, dec_digits f n = d :: r ∧ 1 ≤ d.
Proof.
  revert n. induction f as [|f IH]; intros n Hn; simpl;
    [change (Z.of_nat 0) with 0 in Hn; rewrite Z.pow_0_r in Hn; unfold digits_value; simpl; lia|].
  destruct (n <? 10) eqn:E; [eexists _, []; split; [done | lia]|]. apply Z.ltb_ge in E.
  destruct (IH (n / 10)) as (d & r & -> & Hd).
  - rewrite Nat2Z.inj_succ, Z.pow_succ_r in Hn by lia.
    split; [apply Z.div_le_lower_bound; lia | apply Z.div_lt_upper_bound; lia].
  - by exists d, (r ++ [n mod 10]).
Qed.

Lemma span_digit_chars (ds : list Z) :
  Forall (λ d, 0 ≤ d < 10) ds → span_digits 10 (digit_char <$> ds) = (ds, []).
Proof.
  induction 1 as [|d ds Hd _ IH]; [done|]. rewrite fmap_cons. cbn [span_digits].
  by rewrite digit_in_digit_char, IH.
Qed.

(** A digit starts no white space. *)
Lemma ws_digit (a : ascii) :
  (48 ≤ code a ≤ 57)%nat →
  ws1 (code a) = false ∧ (∀ b, ws2 (code a) b = false) ∧ (∀ b c, ws3 (code a) b c = false).
Proof.
  intros Ha. unfold ws1, ws2, ws3. split_and!.
  - apply bool_decide_eq_false_2. intros H. repeat (apply elem_of_cons in H as [H|H]; [lia|]).
    by apply elem_of_nil in H.
  - intros b. apply bool_decide_eq_false_2. lia.
  - intros b c. apply orb_false_intro; apply bool_decide_eq_false_2; [|lia].
    intros H. repeat (apply elem_of_cons in H as [H|H]; [simplify_eq; lia|]).
    by apply elem_of_nil in H.
Qed.

Definition all_digits (l : list ascii) : Prop := Forall (λ a, 48 ≤ code a ≤ 57)%nat l.

Lemma ws_prefix_digits (l : list ascii) : all_digits l → l ≠ [] → ws_prefix l = None.
Proof.
  intros Hl Hne. destruct l as [|a r]; [done|]. apply Forall_cons in Hl as [Ha Hr].
  destruct (ws_digit a Ha) as (H1 & H2 & H3). simpl. rewrite H1.
  destruct r as [|b [|c r]]; [done | by rewrite H2 | by rewrite H2, H3].
Qed.

Lemma ws_prefix_rev_digits (l : list ascii) : all_digits l → l ≠ [] → ws_prefix_rev l = None.
Proof.
  intros Hl Hne. unfold all_digits in Hl. destruct l as [|a [|b [|c r]]]; [done| | |];
    repeat match goal with H : Forall _ (_ :: _) |- _ => apply Forall_cons in H as [? H] end.
  - simpl. by rewrite (proj1 (ws_digit a ltac:(done))).
  - simpl. rewrite (proj1 (ws_digit a ltac:(done))). by rewrite (proj1 (proj2 (ws_digit b ltac:(done)))).
  - simpl. rewrite (proj1 (ws_digit a ltac:(done))), (proj1 (proj2 (ws_digit b ltac:(done)))).
    by rewrite (proj2 (proj2 (ws_digit c ltac:(done)))).
Qed.

Lemma drop_ws_stop (step : list ascii → option (list ascii)) (f : nat) (l : list ascii) :
  step l = None → drop_ws step (S f) l = l.
Proof. intros H. simpl. by rewrite H. Qed.

Lemma trim_js_digits (l : list ascii) : all_digits l → l ≠ [] → trim_js l = l.
Proof.
  intros Hl Hne. unfold trim_js.
  destruct (length l) as [|n] eqn:Hlen; [by destruct l|].
  rewrite drop_ws_stop by (by apply ws_prefix_digits). rewrite Hlen.
  rewrite drop_ws_stop; [apply rev_involutive|].
  apply ws_prefix_rev_digits; [by apply Forall_rev|].
  intros Hr. apply Hne. apply (f_equal (@rev ascii)) in Hr. by rewrite rev_involutive in Hr.
Qed.

Lemma all_digits_chars (ds : list Z) :
  Forall (λ d, 0 ≤ d < 10) ds → all_digits (digit_char <$> ds).
Proof.
  intros H. apply Forall_fmap, (Forall_impl _ _ _ H). intros d Hd. simpl.
  rewrite code_digit_char by done. lia.
Qed.

Lemma round_half_even_1 (a : Z) : round_half_even a 1 = a.
Proof. unfold round_half_even. by rewrite Z.div_1_r, Z.mod_1_r. Qed.

Lemma scale_1_nonpos (p k : Z) : k ≤ 0 → scale p 1 k = (p * 2 ^ (- k), 1).
Proof.
  intros Hk. unfold scale. destruct (0 <=? k) eqn:E; [|done].
  apply Z.leb_le in E. assert (k = 0) as -> by lia. rewrite Z.pow_0_r. f_equal; lia.
Qed.

Lemma log2_small (z : Z) : 0 < z < 2 ^ 53 → 0 ≤ Z.log2 z ≤ 52 ∧ 2 ^ Z.log2 z ≤ z.
Proof.
  intros Hz. pose proof (Z.log2_nonneg z). pose proof (proj1 (Z.log2_spec z ltac:(lia))).
  pose proof (proj1 (Z.log2_lt_pow2 z 53 ltac:(lia)) ltac:(lia)). lia.
Qed.

Lemma binade_int (z : Z) : 0 < z < 2 ^ 53 → binade z 1 = Z.log2 z - 52.
Proof.
  intros Hz. destruct (log2_small z Hz) as [Hl Hpow].
  unfold binade. change (Z.log2 1) with 0. rewrite Z.sub_0_r, scale_1_nonpos by lia.
  rewrite (proj2 (Z.ltb_ge _ _)); [done|].
  replace (2 ^ 52) with (2 ^ Z.log2 z * 2 ^ (- (Z.log2 z - 52))) by (rewrite <-Z.pow_add_r; f_equal; lia).
  pose proof (Z.pow_pos_nonneg 2 (- (Z.log2 z - 52)) ltac:(lia) ltac:(lia)). nia.
Qed.

(** Integers below [2^53] are doubles: rounding leaves them exact. *)
Lemma to_double_int (z : Z) : 0 < z < 2 ^ 53 → to_double z 1 = JInt z.
Proof.
  intros Hz. destruct (log2_small z Hz) as [Hl _].
  unfold to_double. rewrite (proj2 (Z.eqb_neq z 0)) by lia.
  rewrite binade_int, Z.max_l, scale_1_nonpos by lia. cbn beta iota.
  rewrite round_half_even_1, Z.log2_mul_pow2 by lia.
  rewrite (proj2 (Z.leb_gt _ _)) by lia.
  destruct (0 <=? Z.log2 z - 52) eqn:E.
  - apply Z.leb_le in E. replace (Z.log2 z - 52) with 0 by lia. by rewrite Z.pow_0_r, !Z.mul_1_r.
  - rewrite Z.mod_mul, Z.eqb_refl, Z.div_mul; [done | |];
      pose proof (Z.pow_pos_nonneg 2 (- (Z.log2 z - 52)) ltac:(lia) ltac:(lia)); lia.
Qed.

Lemma parse_unsigned_decimal_digits (ds : list Z) :
  Forall (λ d, 0 ≤ d < 10) ds → ds ≠ [] →
  parse_unsigned_decimal (digit_char <$> ds) = Some (decimal_value ds 0).
Proof.
  intros Hds Hne. unfold parse_unsigned_decimal.
  rewrite bool_decide_eq_false_2.
  2: { destruct ds as [|d ds]; [done|]. apply Forall_cons in Hds as [Hd _].
       rewrite fmap_cons. intros [= Hc _]. apply (f_equal code) in Hc.
       rewrite code_digit_char in Hc by done. change (code "I"%char) with 73%nat in Hc. lia. }
  rewrite span_digit_chars by done. cbn beta iota.
  by rewrite bool_decide_eq_false_2.
Qed.

Lemma string_to_number_lead (d : Z) (r : list ascii) :
  1 ≤ d < 10 →
  string_to_number (digit_char d :: r) =
  from_option id JNaN (parse_unsigned_decimal (digit_char d :: r)).
Proof.
  intros Hd. assert (d = 1 ∨ d = 2 ∨ d = 3 ∨ d = 4 ∨ d = 5 ∨ d = 6 ∨ d = 7 ∨ d = 8 ∨ d = 9)
    as Hcases by lia.
  by destruct_or! Hcases; subst.
Qed.

(** Digits without an exponent: the integer they spell, rounded. *)
Lemma decimal_value_pos (ds : list Z) (z : Z) :
  digits_value 10 ds = z → 0 < z → decimal_value ds 0 = to_double z 1.
Proof.
  intros Hv Hz. unfold decimal_value. rewrite Hv.
  rewrite (proj2 (Z.eqb_neq z 0)) by lia. pose proof (Z.log2_nonneg z).
  rewrite (proj2 (Z.leb_gt _ _)) by lia. cbn -[to_double Z.pow Z.mul].
  by rewrite Z.pow_0_r, Z.mul_1_r.
Qed.

(** A numeral that starts with [0] followed by a digit is decimal, not a
    [0x], [0o] or [0b] literal. *)
Lemma string_to_number_zero_lead (e : Z) (r : list ascii) :
  0 ≤ e < 10 →
  string_to_number (digit_char 0 :: digit_char e :: r) =
  from_option id JNaN (parse_unsigned_decimal (digit_char 0 :: digit_char e :: r)).
Proof.
  intros He. assert (e = 0 ∨ e = 1 ∨ e = 2 ∨ e = 3 ∨ e = 4 ∨ e = 5 ∨ e = 6 ∨ e = 7 ∨ e = 8 ∨ e = 9)
    as Hcases by lia.
  by destruct_or! Hcases; subst.
Qed.

(** [+] on a decimal numeral, leading zeros allowed: its value. *)
Lemma string_to_number_digits (ds : list Z) :
  Forall (λ d, 0 ≤ d < 10) ds → ds ≠ [] → string_to_number (digit_char <$> ds) = decimal_value ds 0.
Proof.
  intros Hds Hne. destruct ds as [|d r]; [done|]. pose proof Hds as Hds'.
  apply Forall_cons in Hds' as [Hd Hr]. rewrite fmap_cons.
  destruct (decide (d = 0)) as [->|Hd0].
  - destruct r as [|e r]; [reflexivity|]. apply Forall_cons in Hr as [He _].
    rewrite fmap_cons, string_to_number_zero_lead by done.
    by rewrite <-!fmap_cons, parse_unsigned_decimal_digits.
  - rewrite string_to_number_lead by lia.
    by rewrite <-fmap_cons, parse_unsigned_decimal_digits.
Qed.

Lemma to_number_digits (ds : list Z) :
  Forall (λ d, 0 ≤ d < 10) ds → ds ≠ [] →
  to_number (String.string_of_list_ascii (digit_char <$> ds)) = decimal_value ds 0.
Proof.
  intros Hds Hne. unfold to_number. rewrite String.list_ascii_of_string_of_list_ascii.
  rewrite trim_js_digits; [by apply string_to_number_digits | by apply all_digits_chars |].
  by destruct ds.
Qed.

(** The text of a non-negative integer is a numeral of its value. *)
Lemma z_text_digits (z : Z) :
  0 ≤ z → ∃ ds, z_text z = String.string_of_list_ascii (digit_char <$> ds) ∧
                Forall (λ d, 0 ≤ d < 10) ds ∧ ds ≠ [] ∧ digits_value 10 ds = z.
Proof.
  intros Hz. destruct (decide (z = 0)) as [->|Hz0]; [by exists [0]; split_and!; [| repeat constructor; lia | |]|].
  unfold z_text. rewrite (proj2 (Z.ltb_ge z 0)) by lia. rewrite Z.abs_eq, app_nil_l by lia.
  set (f := S (Z.to_nat (Z.log2 z))).
  assert (Hfuel : 1 ≤ z < 2 ^ Z.of_nat f).
  { subst f. rewrite Nat2Z.inj_succ, Z2Nat.id by apply Z.log2_nonneg.
    pose proof (Z.log2_spec z ltac:(lia)). lia. }
  exists (dec_digits f z). split_and!; [done | by apply dec_digits_range | |by apply dec_digits_value; lia].
  by destruct (dec_digits_head f z Hfuel) as (d & r & -> & _).
Qed.

(** [+] on the digits of a positive integer: that integer, rounded to a
    double. *)
Lemma z_text_reads_double (z : Z) : 0 < z → to_number (z_text z) = to_double z 1.
Proof.
  intros Hz. destruct (z_text_digits z) as (ds & -> & Hds & Hne & Hv); [lia|].
  rewrite to_number_digits by done. by apply decimal_value_pos.
Qed.

Lemma digits_value_zeros (k : nat) (ds : list Z) :
  digits_value 10 (replicate k 0 ++ ds) = digits_value 10 ds.
Proof.
  unfold digits_value. rewrite foldl_app. f_equal.
  induction k as [|k IH]; [done|]. exact IH.
Qed.
(** Reading back the digits of a number up to [2^53]. *)
Lemma z_text_reads_back (z : Z) : 0 ≤ z ≤ 2 ^ 53 → to_number (z_text z) = JInt z.
Proof.
  intros Hz. destruct (decide (z = 0)) as [->|Hz0]; [reflexivity|].
  rewrite z_text_reads_double by lia.
  destruct (decide (z = 2 ^ 53)) as [->|Hzm]; [vm_compute; reflexivity|].
  apply to_double_int. lia.
Qed.

(** The text of a number is never empty. *)
Lemma z_text_truthy (z : Z) : truthy_str (z_text z) = true.
Proof.
  unfold z_text. destruct (z <? 0); [done|].
  remember (Z.abs z) as n. remember (Z.to_nat (Z.log2 n)) as f. cbn [dec_digits].
  destruct (n <? 10); [done|]. destruct (dec_digits f (n / 10)); done.
Qed.

(** Leading zeros do not change the number [+] reads. *)
Lemma to_number_leading_zeros (k : nat) (z : Z) :
  0 ≤ z →
  to_number (String.string_of_list_ascii (replicate k "0"%char) +:+ z_text z) = to_number (z_text z).
Proof.
  intros Hz. destruct (z_text_digits z Hz) as (ds & -> & Hds & Hne & Hv).
  rewrite <-string_of_list_ascii_app.
  replace (replicate k "0"%char ++ (digit_char <$> ds)) with (digit_char <$> (replicate k 0 ++ ds))
    by (rewrite fmap_app, fmap_replicate; done).
  rewrite !to_number_digits by (done || (apply Forall_app; split; [apply Forall_replicate; lia | done])
                                || by destruct ds, k).
  unfold decimal_value. by rewrite digits_value_zeros.
Qed.

(** C30: the text [todo show] prints for an index reads back, through
    [+index], as that index, for every index the store can hold; so does
    that text with leading zeros ([todo show 002] selects task 2). *)
Theorem to_number_z_text (z : Z) :
  0 ≤ z ≤ 2 ^ 53 →
  to_number (z_text z) = JInt z ∧
  ∀ k, to_number (String.string_of_list_ascii (replicate k "0"%char) +:+ z_text z) = JInt z.
Proof.
  intros Hz. split; [by apply z_text_reads_back|].
  intros k. rewrite to_number_leading_zeros by lia. by apply z_text_reads_back.
Qed.

Lemma to_number_z_text_witness :
  to_number (z_text 12) = JInt 12 ∧
  ∀ k, to_number (String.string_of_list_ascii (replicate k "0"%char) +:+ z_text 12) = JInt 12.
Proof. apply to_number_z_text. lia. Defined.

(** ** The fuel of the white-space trimming *)

Local Close Scope Z_scope.

Section drop_ws_fuel.
Context (step : list ascii → option (list ascii)).
Hypothesis step_prefix : ∀ l r, step l = Some r → ∃ p, p ≠ [] ∧ l = p ++ r.

Lemma step_shorter (l r : list ascii) : step l = Some r → length r < length l.
Proof.
  intros (p & Hp & ->)%step_prefix. rewrite length_app.
  destruct p; [done|]. simpl. lia.
Qed.

Lemma step_nil : step [] = None.
Proof. destruct (step []) as [r|] eqn:E; [|done]. apply step_shorter in E. simpl in E. lia. Qed.

(** More fuel than [length l] changes nothing. *)
Lemma drop_ws_fuel_stable (n m : nat) (l : list ascii) :
  length l ≤ n → n ≤ m → drop_ws step n l = drop_ws step m l.
Proof.
  revert m l. induction n as [|n IH]; intros m l Hl Hm.
  - destruct l; [|simpl in Hl; lia]. destruct m; simpl; [done|]. by rewrite step_nil.
  - destruct m as [|m]; [lia|]. simpl.
    destruct (step l) as [r|] eqn:E; [|done].
    apply IH; [apply step_shorter in E; lia | lia].
Qed.

End drop_ws_fuel.

Lemma ws_prefix_removes (l r : list ascii) : ws_prefix l = Some r → ∃ p, p ≠ [] ∧ l = p ++ r.
Proof.
  unfold ws_prefix. intros H. repeat case_match; simplify_eq.
  - by exists [a].
  - by exists [a; a0].
  - by exists [a; a0; a1].
Qed.

Lemma ws_prefix_rev_removes (l r : list ascii) : ws_prefix_rev l = Some r → ∃ p, p ≠ [] ∧ l = p ++ r.
Proof.
  unfold ws_prefix_rev. intros H. repeat case_match; simplify_eq.
  - by exists [a].
  - by exists [a; a0].
  - by exists [a; a0; a1].
Qed.

(** One white-space character in front leaves the trimmed text unchanged. *)
Lemma trim_js_step (l r : list ascii) : ws_prefix l = Some r → trim_js l = trim_js r.
Proof.
  intros H. pose proof (step_shorter _ ws_prefix_removes _ _ H) as Hlt.
  unfold trim_js. enough (drop_ws ws_prefix (length l) l = drop_ws ws_prefix (length r) r) as ->; [done|].
  destruct (length l) as [|k]; [lia|]. simpl. rewrite H.
  symmetry. apply drop_ws_fuel_stable; [exact ws_prefix_removes | lia | lia].
Qed.

(** C31: [+s] ignores a white-space character in front of the text, so
    [todo show " 2"] reads the index as [todo show 2] does. *)
Theorem to_number_leading_ws (l r : list ascii) :
  ws_prefix l = Some r →
  to_number (String.string_of_list_ascii l) = to_number (String.string_of_list_ascii r).
Proof.
  intros H. unfold to_number. rewrite !String.list_ascii_of_string_of_list_ascii.
  by rewrite (trim_js_step l r H).
Qed.

Lemma to_number_leading_ws_witness :
  ws_prefix [" "%char; "2"%char] = Some ["2"%char] ∧ to_number " 2" = JInt 2.
Proof.
  split; [reflexivity|].
  change " 2" with (String.string_of_list_ascii [" "%char; "2"%char]).
  rewrite (to_number_leading_ws [" "%char; "2"%char] ["2"%char]) by reflexivity.
  reflexivity.
Defined.

(** ** Bounds on the text of a number *)

Local Open Scope Z_scope.

(** A number below [10^k] has at most [k] digits. *)
Lemma dec_digits_length (f k : nat) (n : Z) :
  (1 ≤ k)%nat → 0 ≤ n < 10 ^ Z.of_nat k → (length (dec_digits f n) ≤ k)%nat.
Proof.
  revert k n. induction f as [|f IH]; intros k n Hk Hn; cbn [dec_digits]; [simpl; lia|].
  destruct (n <? 10) eqn:E; [simpl; lia|]. apply Z.ltb_ge in E.
  destruct k as [|[|k]]; [lia| |].
  - change (Z.of_nat 1) with 1 in Hn. lia.
  - rewrite length_app. simpl. enough (length (dec_digits f (n / 10)) ≤ S k)%nat by lia.
    apply IH; [lia|]. split; [apply Z.div_pos; lia|].
    apply Z.div_lt_upper_bound; [lia|]. rewrite <-Z.pow_succ_r by lia.
    replace (Z.succ (Z.of_nat (S k))) with (Z.of_nat (S (S k))) by lia. apply Hn.
Qed.

(** The text of a number in [[0, 10^k)] has at most [k] characters. *)
Lemma z_text_length (k : nat) (z : Z) :
  (1 ≤ k)%nat → 0 ≤ z < 10 ^ Z.of_nat k → (String.length (z_text z) ≤ k)%nat.
Proof.
  intros Hk Hz. unfold z_text. rewrite (proj2 (Z.ltb_ge z 0)) by lia. cbn [app].
  rewrite str_length_of_list, length_fmap. apply dec_digits_length; [done|].
  rewrite Z.abs_eq; lia.
Qed.

(** ** White space after the text *)

Local Close Scope Z_scope.

Lemma ws1_low (a : nat) : ws1 a = true → a < 128.
Proof. unfold ws1. intros H%bool_decide_eq_true_1. repeat (apply elem_of_cons in H as [->|H]; [lia|]). by apply elem_of_nil in H. Qed.

(** A byte that starts a character: not a UTF-8 continuation byte. *)
Definition lead_byte (a : nat) : Prop := a < 128 ∨ 192 ≤ a.

(** Splits the membership tests of [ws1], [ws2] and [ws3] into one case
    per white-space character. *)
Ltac ws_cases :=
  repeat match goal with
  | Hb : bool_decide _ = true |- _ => apply bool_decide_eq_true_1 in Hb
  | Hb : (_ || _) = true |- _ => apply orb_true_iff in Hb as [Hb|Hb]
  | Hb : _ ∈ _ :: _ |- _ => apply elem_of_cons in Hb as [Hb|Hb]
  | Hb : _ ∈ [] |- _ => by apply elem_of_nil in Hb
  | Hb : _ ∧ _ |- _ => destruct Hb
  end; simplify_eq.

(** A white-space character starts with a lead byte. *)
Lemma ws_char_lead (w : list ascii) :
  ws_prefix w = Some [] → ∃ c w', w = c :: w' ∧ lead_byte (code c).
Proof.
  intros H. destruct w as [|c w']; [done|]. exists c, w'. split; [done|]. unfold lead_byte.
  unfold ws_prefix, ws1, ws2, ws3 in H. repeat case_match; simplify_eq; ws_cases; lia.
Qed.

(** A lead byte never continues a multi-byte white-space character. *)
Lemma ws_prefix_app_lead (a w : list ascii) (c : ascii) :
  lead_byte (code c) → a ≠ [] →
  ws_prefix (a ++ c :: w) = (λ r, r ++ c :: w) <$> ws_prefix a.
Proof.
  intros Hc Ha. unfold lead_byte in Hc.
  assert (H2 : ∀ x, ws2 x (code c) = false) by (intros x; apply bool_decide_eq_false_2; lia).
  assert (H3 : ∀ x y, ws3 x y (code c) = false).
  { intros x y. unfold ws3. apply orb_false_intro; apply bool_decide_eq_false_2; [|lia].
    intros Hin. repeat (apply elem_of_cons in Hin as [Hin|Hin]; [simplify_eq; lia|]).
    by apply elem_of_nil in Hin. }
  assert (H3' : ∀ x z, ws3 x (code c) z = false).
  { intros x z. unfold ws3. apply orb_false_intro; apply bool_decide_eq_false_2; [|lia].
    intros Hin. repeat (apply elem_of_cons in Hin as [Hin|Hin]; [simplify_eq; lia|]).
    by apply elem_of_nil in Hin. }
  destruct a as [|x [|y [|z a]]]; [done| | |]; cbn [app]; unfold ws_prefix.
  - rewrite H2. destruct (ws1 (code x)); [done|]. destruct w; [done|]. by rewrite H3'.
  - rewrite H3. by destruct (ws1 (code x)), (ws2 (code x) (code y)).
  - by repeat case_match.
Qed.

(** Read backwards, a white-space character is removed whole, whatever
    precedes it. *)
Lemma ws_prefix_rev_app (w x : list ascii) : ws_prefix w = Some [] → ws_prefix_rev (rev w ++ x) = Some x.
Proof.
  intros H. unfold ws_prefix in H. repeat case_match; simplify_eq; cbn [rev app]; unfold ws_prefix_rev.
  - match goal with Hb : ws1 _ = true |- _ => by rewrite Hb end.
  - match goal with Hb : ws2 _ _ = true |- _ => rewrite Hb; pose proof Hb as Hc end.
    apply bool_decide_eq_true_1 in Hc as [_ Hc]. by rewrite Hc.
  - match goal with Hb : ws3 _ _ _ = true |- _ => rewrite Hb; pose proof Hb as Hc end.
    assert (128 ≤ code a1 ∧ code a0 ≠ 194) as [Hlo Hne] by (unfold ws3 in Hc; ws_cases; lia).
    unfold ws2 at 1. rewrite bool_decide_eq_false_2 by lia.
    destruct (ws1 (code a1)) eqn:E; [apply ws1_low in E; lia | done].
Qed.

Lemma drop_ws_nil (step : list ascii → option (list ascii)) (n : nat) :
  (∀ l r, step l = Some r → ∃ p, p ≠ [] ∧ l = p ++ r) → drop_ws step n [] = [].
Proof. intros Hs. destruct n; simpl; [done|]. by rewrite (step_nil _ Hs). Qed.

Lemma drop_ws_app_ws (w : list ascii) (n : nat) (l : list ascii) :
  ws_prefix w = Some [] → length l ≤ n →
  drop_ws ws_prefix (n + length w) (l ++ w) =
  (if bool_decide (drop_ws ws_prefix n l = []) then [] else drop_ws ws_prefix n l ++ w).
Proof.
  intros Hw. destruct (ws_char_lead w Hw) as (c & w' & -> & Hc).
  revert l. induction n as [|n IH]; intros l Hl.
  - destruct l; [|simpl in Hl; lia]. cbn [app length plus drop_ws]. rewrite Hw.
    apply (drop_ws_nil _ _ ws_prefix_removes).
  - destruct l as [|x l'] eqn:El.
    + cbn [app length plus drop_ws]. rewrite Hw. rewrite (drop_ws_nil _ _ ws_prefix_removes).
      by rewrite (step_nil _ ws_prefix_removes).
    + rewrite <-El in *. cbn [plus drop_ws]. rewrite ws_prefix_app_lead by (done || by rewrite El).
      destruct (ws_prefix l) as [r|] eqn:E; cbn [fmap option_fmap option_map].
      * apply IH. apply step_shorter in E; [lia | exact ws_prefix_removes].
      * rewrite bool_decide_eq_false_2; [done|]. by rewrite El.
Qed.

(** One white-space character after the text, of one byte or of several,
    leaves the trimmed text unchanged. *)
Lemma trim_js_app_ws (l w : list ascii) : ws_prefix w = Some [] → trim_js (l ++ w) = trim_js l.
Proof.
  intros Hw. pose proof (step_shorter _ ws_prefix_removes _ _ Hw) as Hlen. cbn [length] in Hlen.
  unfold trim_js. rewrite length_app, drop_ws_app_ws by done.
  case_bool_decide as Hnil; [by rewrite Hnil|].
  set (m := drop_ws ws_prefix (length l) l).
  rewrite rev_app_distr, length_app. destruct (length w) as [|k] eqn:Ek; [lia|].
  rewrite Nat.add_succ_r. cbn [drop_ws]. rewrite ws_prefix_rev_app by done. f_equal.
  symmetry. apply drop_ws_fuel_stable; [exact ws_prefix_rev_removes | by rewrite length_rev | lia].
Qed.

(** C32: [+s] ignores a white-space character after the text, as
    [String.prototype.trim] does, whether it is one byte (space, tab, line
    terminators) or a multi-byte one (no-break space, the Unicode spaces,
    the byte order mark), so [todo show "2 "] reads the index as
    [todo show 2] does. *)
Theorem to_number_trailing_ws (l w : list ascii) :
  ws_prefix w = Some [] →
  to_number (String.string_of_list_ascii (l ++ w)) = to_number (String.string_of_list_ascii l).
Proof.
  intros Hw. unfold to_number. rewrite !String.list_ascii_of_string_of_list_ascii.
  by rewrite trim_js_app_ws.
Qed.

Lemma to_number_trailing_ws_witness :
  let nbsp := [ascii_of_nat 194; ascii_of_nat 160] in
  ws_prefix nbsp = Some [] ∧
  to_number (String.string_of_list_ascii (["2"%char] ++ nbsp)) = JInt 2.
Proof.
  intros nbsp. split; [reflexivity|].
  rewrite (to_number_trailing_ws ["2"%char] nbsp) by reflexivity. reflexivity.
Defined.
