(* ===== verification/Doubles.v ===== *)
(** * Doubles: integer text beyond the safe integers

    [Js.to_number] computes the exact value of a numeric literal and rounds
    it with [to_double] to a 53-bit significand and a binary exponent.  Up
    to [2^53] the text of an integer reads back exactly ([Js.z_text_reads_back]);
    from [2^53] on, this file shows, it reads as [nearest_double], the
    integer rounded half to even to a multiple of [2^k], [k] the number of
    its bits beyond 53: [todo show 9007199254740993] looks up the index
    [9007199254740992]. *)

From stdpp Require Import base list strings.
From Stdlib Require Import ZArith Ascii.
From S2P Require Import Prelude Js.

Local Open Scope Z_scope.

(** The double nearest to an integer [z] from [2^53] on: [z] rounded,
    half to even, to a multiple of [2^k], [k] the number of its bits
    beyond 53. *)
Definition nearest_double (z : Z) : Z :=
  let k := Z.log2 z - 52 in round_half_even z (2 ^ k) * 2 ^ k.

(** ** Rounding keeps the significand within 53 bits *)

Lemma round_half_even_bounds (a b : Z) :
  0 ≤ a → 0 < b → a < b * 2 ^ 53 → 0 ≤ round_half_even a b ≤ 2 ^ 53.
Proof.
  intros Ha Hb Hab. unfold round_half_even.
  assert (0 ≤ a / b < 2 ^ 53) by (split; [apply Z.div_pos | apply Z.div_lt_upper_bound]; lia).
  destruct (Z.compare _ _); [case_match| |]; lia.
Qed.

Lemma log2_le_53 (m : Z) : m ≤ 2 ^ 53 → Z.log2 m ≤ 53.
Proof.
  intros Hm. destruct (Z.le_gt_cases m 0) as [Hn|Hp]; [rewrite Z.log2_nonpos; lia|].
  rewrite <-(Z.log2_pow2 53) by lia. by apply Z.log2_le_mono.
Qed.

(** ** Integer text beyond the safe integers *)

Lemma binade_large (z : Z) : 2 ^ 53 ≤ z → binade z 1 = Z.log2 z - 52.
Proof.
  intros Hz. pose proof (Z.log2_spec z ltac:(lia)) as [Hlo _].
  assert (53 ≤ Z.log2 z) by (rewrite <-(Z.log2_pow2 53) by lia; by apply Z.log2_le_mono).
  unfold binade. change (Z.log2 1) with 0. rewrite Z.sub_0_r. unfold scale.
  rewrite (proj2 (Z.leb_le 0 _)) by lia. cbn beta iota.
  rewrite (proj2 (Z.ltb_ge _ _)); [done|].
  rewrite Z.mul_1_l, <-Z.pow_add_r by lia. by replace (Z.log2 z - 52 + 52) with (Z.log2 z) by lia.
Qed.

(** An integer from [2^53] on is rounded to a multiple of [2^k], [k] the
    number of its bits beyond 53, half to even. *)
Lemma to_double_large (z : Z) :
  2 ^ 53 ≤ z < 2 ^ 1023 → to_double z 1 = JInt (nearest_double z).
Proof.
  intros Hz. pose proof (Z.log2_spec z ltac:(lia)) as [_ Hhi].
  assert (53 ≤ Z.log2 z) by (rewrite <-(Z.log2_pow2 53) by lia; apply Z.log2_le_mono; lia).
  assert (Z.log2 z < 1023) by (apply Z.log2_lt_pow2; lia).
  set (k := Z.log2 z - 52). pose proof (Z.pow_pos_nonneg 2 k ltac:(lia) ltac:(lia)) as Hk.
  unfold to_double. rewrite (proj2 (Z.eqb_neq z 0)) by lia.
  rewrite binade_large, Z.max_l by lia. fold k. unfold scale.
  rewrite (proj2 (Z.leb_le 0 k)) by lia. cbn beta iota. rewrite Z.mul_1_l.
  assert (Hm : 0 ≤ round_half_even z (2 ^ k) ≤ 2 ^ 53).
  { apply round_half_even_bounds; [lia | lia|].
    rewrite <-Z.pow_add_r by lia. replace (k + 53) with (Z.succ (Z.log2 z)) by lia. lia. }
  pose proof (log2_le_53 _ (proj2 Hm)).
  by rewrite (proj2 (Z.leb_gt _ _)) by lia.
Qed.

(** C34: above [2^53] the text of an index no longer reads back: [+] rounds
    the integer the user types to the nearest double, ties to even, so
    [todo show 9007199254740993] looks up the index [9007199254740992]. *)
Theorem to_number_z_text_rounds (z : Z) :
  2 ^ 53 ≤ z < 2 ^ 1023 → to_number (z_text z) = JInt (nearest_double z).
Proof. intros Hz. rewrite z_text_reads_double by lia. by apply to_double_large. Qed.

Lemma to_number_z_text_rounds_witness :
  (2 ^ 53 ≤ 2 ^ 53 + 1 < 2 ^ 1023) ∧ to_number (z_text (2 ^ 53 + 1)) = JInt (2 ^ 53).
Proof.
  split; [lia|]. rewrite (to_number_z_text_rounds (2 ^ 53 + 1)) by lia. vm_compute. reflexivity.
Defined.
