(* ===== verification/Todo.v ===== *)
(** * Todo: the [TodoItem] record of [types.ts] and the status constants

    Modelled from the spec (section 3): [types.ts] and [constants.ts] are
    not under [src/].  [todo-show.ts] reads [_id], [index], [title],
    [description], [status], [cronTime] and [notes]. *)

From stdpp Require Import base list strings.
From Stdlib Require Import ZArith.
From S2P Require Import Prelude.

(** [DEFAULT_TODO_STATUS_GROUP]: the closed set of statuses. *)
Inductive TodoStatus := unsolved | solved.

#[export] Instance TodoStatus_eq_dec : EqDecision TodoStatus.
Proof. solve_decision. Defined.

(** A task as the store persists it.  [index] is a JavaScript number; the
    store keeps it a safe integer ([Store.wf_index]). *)
Record TodoItem := mkTodo {
  _id : string;
  index : Z;
  title : string;
  description : string;
  status : TodoStatus;
  cronTime : option string;
  notes : list string
}.

#[export] Instance TodoItem_eq_dec : EqDecision TodoItem.
Proof. solve_decision. Defined.
