(* ===== verification/Query.v ===== *)
(** * Query: the QueryMatcher of the store ([find], [findOne], [update])

    Modelled from the spec (section 4.1 and the design note on a closed
    filter grammar): a query maps field names to literals; a record matches
    when every field exists and is strictly equal ([===]) to its literal.
    Unknown fields never match.  [todo-show.ts] issues three queries:
    [{}], [{ index: n }] and [{ _id: id }]. *)

From stdpp Require Import base list strings.
From Stdlib Require Import ZArith.
From S2P Require Import Prelude Js Todo.

Inductive Field :=
  | F_id | Findex | Ftitle | Fdescription | Fstatus | FcronTime | Fnotes
  | Fother (name : string).

(** A literal of a query, as the JavaScript value the caller passes. *)
Inductive Lit :=
  | LStr (s : string)
  | LNum (n : jsnum)
  | LStatus (s : TodoStatus).

Definition Query := list (Field * Lit).

(** A field's value in a stored record. *)
Inductive FieldValue :=
  | VStr (s : string)
  | VNum (z : Z)
  | VStatus (s : TodoStatus)
  | VList (l : list string).

Definition get_field (t : TodoItem) (f : Field) : option FieldValue :=
  match f with
  | F_id => Some (VStr (_id t))
  | Findex => Some (VNum (index t))
  | Ftitle => Some (VStr (title t))
  | Fdescription => Some (VStr (description t))
  | Fstatus => Some (VStatus (status t))
  | FcronTime => VStr <$> cronTime t
  | Fnotes => Some (VList (notes t))
  | Fother _ => None
  end.

(** Strict equality of a stored value with a literal: a number equals only
    the same integral number, so [NaN], infinities and fractions match no
    index; an array is never [===] to a literal. *)
Definition lit_matches (v : FieldValue) (l : Lit) : bool :=
  match v, l with
  | VStr a, LStr b => bool_decide (a = b)
  | VNum z, LNum (JInt w) => bool_decide (z = w)
  | VStatus a, LStatus b => bool_decide (a = b)
  | _, _ => false
  end.

Definition field_matches (t : TodoItem) (fl : Field * Lit) : bool :=
  match get_field t fl.1 with
  | Some v => lit_matches v fl.2
  | None => false
  end.

Definition matches (q : Query) (t : TodoItem) : bool := forallb (field_matches t) q.

(** The three queries of [todo-show.ts]. *)
Definition q_all : Query := [].
Definition q_index (n : jsnum) : Query := [(Findex, LNum n)].
Definition q_id (id : string) : Query := [(F_id, LStr id)].

(** ** Lemmas *)

Lemma matches_all (t : TodoItem) : matches q_all t = true.
Proof. done. Qed.

Lemma matches_q_index (n : jsnum) (t : TodoItem) :
  matches (q_index n) t = true ↔ n = JInt (index t).
Proof.
  unfold matches, q_index, field_matches; simpl.
  destruct n; simpl; rewrite ?andb_true_r; split; try done;
    [rewrite bool_decide_eq_true; congruence | inversion 1; by apply bool_decide_eq_true].
Qed.

Lemma matches_q_id (id : string) (t : TodoItem) :
  matches (q_id id) t = true ↔ _id t = id.
Proof.
  unfold matches, q_id, field_matches; simpl.
  rewrite andb_true_r. apply bool_decide_eq_true.
Qed.

(** Only the integral literal of a record's own index selects it. *)
Lemma matches_q_index_not_int (n : jsnum) (t : TodoItem) :
  (∀ z, n ≠ JInt z) → matches (q_index n) t = false.
Proof.
  intros Hn. destruct (matches (q_index n) t) eqn:E; [|done].
  apply matches_q_index in E. by destruct (Hn _ E).
Qed.

#[export] Hint Resolve matches_all : todo.

(** ** Lookup by a key field

    The store looks records up by one field: [{ index }] or [{ _id }].
    For a query built from a key that a record matches exactly when its
    key is that value, the first match in a list is characterised once
    here, for any list of records. *)

Section key_lookup.
Context {K : Type} (key : TodoItem → K) (query : K → Query).
Hypothesis matches_key : ∀ k t, matches (query k) t = true ↔ key t = k.

Lemma find_key_some (k : K) (l : list TodoItem) (t : TodoItem) :
  List.find (matches (query k)) l = Some t → key t = k ∧ t ∈ l.
Proof. intros [Hin Hm]%find_some_spec. split; [by apply matches_key | done]. Qed.

(** With unique keys the lookup by a member's key finds that member. *)
Lemma find_key_self (l : list TodoItem) (t : TodoItem) :
  NoDup (key <$> l) → t ∈ l → List.find (matches (query (key t))) l = Some t.
Proof.
  intros Hnd Hin. destruct (List.find (matches (query (key t))) l) as [u|] eqn:E.
  - apply find_key_some in E as [Hk Hu]. f_equal. by apply (NoDup_fmap_eq key l).
  - exfalso. apply (proj1 (find_None_iff _ l) E t) in Hin.
    by rewrite (proj2 (matches_key _ _) eq_refl) in Hin.
Qed.

Lemma find_key_None (k : K) (l : list TodoItem) :
  List.find (matches (query k)) l = None ↔ ∀ t, t ∈ l → key t ≠ k.
Proof.
  rewrite find_None_iff. split; intros H t Ht.
  - intros Hk. apply matches_key in Hk. by rewrite H in Hk.
  - apply not_true_is_false. intros Hm%matches_key. by apply (H t).
Qed.
End key_lookup.

(** The number a record's [index] field holds, as a JavaScript value. *)
Definition index_value (t : TodoItem) : jsnum := JInt (index t).

Lemma matches_q_index_value (n : jsnum) (t : TodoItem) :
  matches (q_index n) t = true ↔ index_value t = n.
Proof. rewrite matches_q_index. unfold index_value. naive_solver. Qed.

Lemma NoDup_index_value (l : list TodoItem) : NoDup (index <$> l) → NoDup (index_value <$> l).
Proof.
  intros H. unfold index_value. rewrite (list_fmap_compose index JInt).
  apply NoDup_fmap_2; [|done]. intros x y [= ->]. done.
Qed.

Lemma filter_q_all (l : list TodoItem) : List.filter (matches q_all) l = l.
Proof. induction l as [|t l IH]; simpl; [done|]. by rewrite IH. Qed.
