(* ===== verification/Store.v ===== *)
(** * Store: the document store of [utils/store.ts]

    Modelled from the spec (sections 4.2 and 6): [utils/store.ts] is not
    under [src/].  The collection is the ordered list of persisted records;
    [next_seq] is the counter the store draws fresh [_id]s from, so that an
    [_id] is never issued twice in the store's lifetime.
    - [find q]: the matching records in persisted order;
    - [findOne q]: the first of them, or [None] (the script's [null]);
    - [update q r]: replaces the first match by [r], keeping its [_id] and
      [index]; [NotFoundError] when nothing matches;
    - [insert t]: a fresh [_id] and the next index (one more than the
      largest live index), refused once that would leave the safe integers;
    - [remove q]: deletes the first match; survivors keep their indices. *)

From stdpp Require Import base list strings.
From Stdlib Require Import ZArith DecimalString DecimalNat.
From S2P Require Import Prelude Js Todo Query.

Record Store := mkStore {
  docs : list TodoItem;
  next_seq : nat
}.

Inductive StoreError := NotFoundError | IndexExhausted.

Definition find (q : Query) (st : Store) : list TodoItem :=
  List.filter (matches q) (docs st).

Definition findOne (q : Query) (st : Store) : option TodoItem :=
  List.find (matches q) (docs st).

(** The replacement record with the stored record's identity. *)
Definition keep_identity (old repl : TodoItem) : TodoItem :=
  mkTodo (_id old) (index old) (title repl) (description repl) (status repl)
    (cronTime repl) (notes repl).

Fixpoint replace_first (q : Query) (repl : TodoItem) (l : list TodoItem)
    : option (list TodoItem) :=
  match l with
  | [] => None
  | t :: r =>
      if matches q t then Some (keep_identity t repl :: r)
      else cons t <$> replace_first q repl r
  end.

Definition update (q : Query) (repl : TodoItem) (st : Store) : StoreError + Store :=
  match replace_first q repl (docs st) with
  | Some l => inr (mkStore l (next_seq st))
  | None => inl NotFoundError
  end.

(** ** Insertion and removal *)

Definition id_of (k : nat) : string :=
  "todo-" +:+ NilEmpty.string_of_uint (Nat.to_uint k).

Definition max_index (l : list TodoItem) : Z := foldr (λ t m, Z.max (index t) m) 0%Z l.

(** [Number.MAX_SAFE_INTEGER + 1]: the last index that is still exact. *)
Definition max_safe : Z := (2 ^ 53)%Z.

Definition insert (t : TodoItem) (st : Store) : StoreError + (Store * TodoItem) :=
  let i := (max_index (docs st) + 1)%Z in
  if bool_decide (max_safe < i)%Z then inl IndexExhausted else
  let t' := mkTodo (id_of (next_seq st)) i (title t) (description t) (status t)
              (cronTime t) (notes t) in
  inr (mkStore (docs st ++ [t']) (S (next_seq st)), t').

Fixpoint remove_first (q : Query) (l : list TodoItem) : option (list TodoItem) :=
  match l with
  | [] => None
  | t :: r => if matches q t then Some r else cons t <$> remove_first q r
  end.

Definition remove (q : Query) (st : Store) : StoreError + Store :=
  match remove_first q (docs st) with
  | Some l => inr (mkStore l (next_seq st))
  | None => inl NotFoundError
  end.

(** ** Well-formedness *)

Definition wf_index (t : TodoItem) : Prop := (0 < index t ≤ max_safe)%Z.

Definition issued (st : Store) (t : TodoItem) : Prop :=
  ∃ k, k < next_seq st ∧ _id t = id_of k.

Record wf (st : Store) : Prop := {
  wf_ids : NoDup (_id <$> docs st);
  wf_indices : NoDup (index <$> docs st);
  wf_bounds : Forall wf_index (docs st);
  wf_issued : Forall (issued st) (docs st)
}.

(** ** A sample collection (the scenarios of the spec, section 8) *)

Definition demo_milk : TodoItem :=
  mkTodo (id_of 0) 1 "Buy milk" EmptyString unsolved None [].

Definition demo_deploy : TodoItem :=
  mkTodo (id_of 1) 2 "Deploy" "run: `deploy.sh`" unsolved (Some "2020-01-01 10:00") ["check logs"].

Definition demo_store : Store := mkStore [demo_milk; demo_deploy] 2.

(** ** Lemmas on the helpers *)

Lemma id_of_inj (a b : nat) : id_of a = id_of b → a = b.
Proof.
  unfold id_of. intros H. apply (inj (String.app "todo-")) in H.
  apply (f_equal NilEmpty.uint_of_string) in H. rewrite !NilEmpty.usu in H.
  injection H as H. by apply Unsigned.to_uint_inj.
Qed.

Lemma keep_identity_id (old repl : TodoItem) : _id (keep_identity old repl) = _id old.
Proof. done. Qed.

Lemma keep_identity_index (old repl : TodoItem) : index (keep_identity old repl) = index old.
Proof. done. Qed.

Lemma keep_identity_idem (old repl : TodoItem) :
  keep_identity (keep_identity old repl) repl = keep_identity old repl.
Proof. done. Qed.

#[export] Hint Rewrite keep_identity_id keep_identity_index keep_identity_idem : todo_rw.

Lemma replace_first_cons (q : Query) (repl t : TodoItem) (l : list TodoItem) :
  replace_first q repl (t :: l) =
  if matches q t then Some (keep_identity t repl :: l) else cons t <$> replace_first q repl l.
Proof. reflexivity. Qed.

Lemma replace_first_None (q : Query) (repl : TodoItem) (l : list TodoItem) :
  replace_first q repl l = None ↔ List.find (matches q) l = None.
Proof.
  induction l as [|t l IH]; simpl; [done|].
  destruct (matches q t); [done|]. rewrite <-IH. by destruct (replace_first q repl l).
Qed.

(** Replacing keeps the sequence of identities: the same [_id]s and the
    same indices, in the same order. *)
Lemma replace_first_identity (q : Query) (repl : TodoItem) (l l' : list TodoItem) :
  replace_first q repl l = Some l' →
  _id <$> l' = _id <$> l ∧ index <$> l' = index <$> l.
Proof.
  revert l'. induction l as [|t l IH]; intros l'; simpl; [done|].
  destruct (matches q t); [by intros [= <-]|].
  destruct (replace_first q repl l) as [l1|] eqn:E; simpl; [|done].
  intros [= <-]. rewrite !fmap_cons. destruct (IH l1 eq_refl) as [-> ->]. done.
Qed.

(** The first match, once replaced, is still the first match when the
    replacement matches the query. *)
Lemma replace_first_find_new (q : Query) (repl : TodoItem) (l l' : list TodoItem) (t : TodoItem) :
  replace_first q repl l = Some l' → List.find (matches q) l = Some t →
  matches q (keep_identity t repl) = true →
  List.find (matches q) l' = Some (keep_identity t repl).
Proof.
  revert l'. induction l as [|u l IH]; intros l'; simpl; [done|].
  destruct (matches q u) eqn:Hu.
  - intros [= <-] [= ->] Hm. simpl. by rewrite Hm.
  - destruct (replace_first q repl l) as [l1|]; simpl; [|done].
    intros [= <-] Hf Hm. simpl. rewrite Hu. by apply IH.
Qed.

(** [update] as a list update: the first match, at position [i], becomes
    the replacement with the old identity; nothing else changes. *)
Lemma replace_first_insert (q : Query) (repl : TodoItem) (l l' : list TodoItem) :
  replace_first q repl l = Some l' →
  ∃ i t, l !! i = Some t ∧ matches q t = true ∧
    (∀ j u, j < i → l !! j = Some u → matches q u = false) ∧
    l' = <[i := keep_identity t repl]> l.
Proof.
  revert l'. induction l as [|u l IH]; intros l'; simpl; [done|].
  destruct (matches q u) eqn:Hu.
  - intros [= <-]. exists 0, u. split_and!; [done | done | lia | done].
  - destruct (replace_first q repl l) as [l1|]; simpl; [|done].
    intros [= <-]. destruct (IH l1 eq_refl) as (i & t & Hi & Ht & Hbefore & ->).
    exists (S i), t. split_and!; [done | done | | done].
    intros [|j] w Hj Hw; simpl in Hw; [by simplify_eq | apply (Hbefore j); [lia | done]].
Qed.

Lemma max_index_ge (l : list TodoItem) (t : TodoItem) :
  t ∈ l → (index t ≤ max_index l)%Z.
Proof.
  induction l as [|u l IH]; simpl; [by intros ?%elem_of_nil|].
  intros [->|Hin]%elem_of_cons; [lia|]. specialize (IH Hin). lia.
Qed.

Lemma max_index_nonneg (l : list TodoItem) : (0 ≤ max_index l)%Z.
Proof. induction l; simpl; lia. Qed.

(** ** Theorems *)

(** [update] fails with [NotFoundError] exactly when [findOne] finds nothing. *)
Lemma update_not_found (q : Query) (repl : TodoItem) (st : Store) :
  update q repl st = inl NotFoundError ↔ findOne q st = None.
Proof.
  unfold update, findOne. rewrite <-(replace_first_None q repl).
  destruct (replace_first q repl (docs st)); split; intros; congruence.
Qed.

(** [update] as a list update at the first match. *)
Lemma update_first_match (q : Query) (repl : TodoItem) (st st' : Store) :
  update q repl st = inr st' →
  ∃ i t, findOne q st = Some t ∧ docs st !! i = Some t ∧
    docs st' = <[i := keep_identity t repl]> (docs st) ∧ next_seq st' = next_seq st.
Proof.
  unfold update, findOne.
  destruct (replace_first q repl (docs st)) as [l|] eqn:E; [|done]. intros [= <-].
  destruct (replace_first_insert _ _ _ _ E) as (i & t & Hi & Ht & Hbefore & ->).
  exists i, t. split_and!; [| done | done | done].
  clear E. revert i Hi Hbefore. induction (docs st) as [|u l IH]; intros i Hi Hbefore; [done|].
  destruct i as [|i]; simpl in *.
  - simplify_eq. by rewrite Ht.
  - rewrite (Hbefore 0 u); [|lia|done]. apply (IH i Hi).
    intros j w Hj Hw. apply (Hbefore (S j)); [lia | done].
Qed.

(** [update] keeps the store well formed. *)
Lemma update_wf (q : Query) (repl : TodoItem) (st st' : Store) :
  wf st → update q repl st = inr st' → wf st'.
Proof.
  unfold update. destruct (replace_first q repl (docs st)) as [l|] eqn:E; [|done].
  intros Hwf [= <-]. destruct (replace_first_identity _ _ _ _ E) as [Hid Hix].
  destruct Hwf as [Hids Hixs Hb Hiss]. constructor; simpl.
  - by rewrite Hid.
  - by rewrite Hix.
  - by apply (Forall_proj_transfer index (λ i, 0 < i ≤ max_safe)%Z (docs st)).
  - by apply (Forall_proj_transfer _id (λ s, ∃ k, k < next_seq st ∧ s = id_of k) (docs st)).
Qed.

Lemma replace_first_q_id_fixpoint (id : string) (repl : TodoItem) (l l' : list TodoItem) :
  replace_first (q_id id) repl l = Some l' → replace_first (q_id id) repl l' = Some l'.
Proof.
  revert l'. induction l as [|u l IH]; intros l' H; [done|].
  rewrite replace_first_cons in H. destruct (matches (q_id id) u) eqn:Hu.
  - injection H as <-. rewrite replace_first_cons.
    assert (matches (q_id id) (keep_identity u repl) = true) as ->
      by (apply matches_q_id; by apply matches_q_id in Hu).
    done.
  - destruct (replace_first (q_id id) repl l) as [l1|]; [|done]. injection H as <-.
    by rewrite replace_first_cons, Hu, (IH l1 eq_refl).
Qed.

(** C25: Updating by [_id] (as the edit screen does) is idempotent. *)
Theorem update_by_id_idempotent (id : string) (repl : TodoItem) (st st' : Store) :
  update (q_id id) repl st = inr st' → update (q_id id) repl st' = inr st'.
Proof.
  unfold update. destruct (replace_first (q_id id) repl (docs st)) as [l'|] eqn:E; [|done].
  intros [= <-]. simpl. by rewrite (replace_first_q_id_fixpoint _ _ _ _ E).
Qed.

(** ** Insertion *)

(** The next [_id] is not the [_id] of any live record. *)
Lemma next_id_fresh (st : Store) (u : TodoItem) :
  wf st → u ∈ docs st → _id u ≠ id_of (next_seq st).
Proof.
  intros [_ _ _ Hiss] Hu Heq. rewrite Forall_forall in Hiss.
  destruct (Hiss u Hu) as (k & Hk & Hid). rewrite Hid in Heq.
  apply id_of_inj in Heq. lia.
Qed.

Lemma issued_mono (st : Store) (n : nat) (u : TodoItem) :
  next_seq st ≤ n → issued st u → ∃ k, k < n ∧ _id u = id_of k.
Proof. intros Hle (k & Hk & Hid). exists k. split; [lia | done]. Qed.

(** [insert] keeps the store well formed. *)
Lemma insert_wf (t : TodoItem) (st st' : Store) (t' : TodoItem) :
  wf st → insert t st = inr (st', t') → wf st'.
Proof.
  unfold insert. case_bool_decide as Hover; [done|]. intros Hwf [= <- <-].
  pose proof Hwf as [Hids Hixs Hb Hiss]. constructor; simpl; rewrite ?fmap_app; simpl.
  - apply NoDup_app. split_and!; [done | | apply NoDup_singleton].
    intros x (u & -> & Hu)%list_elem_of_fmap Heq%list_elem_of_singleton.
    by apply (next_id_fresh st u).
  - apply NoDup_app. split_and!; [done | | apply NoDup_singleton].
    intros x (u & -> & Hu)%list_elem_of_fmap Heq%list_elem_of_singleton.
    pose proof (max_index_ge _ _ Hu). lia.
  - apply Forall_app. split; [done|]. apply Forall_singleton.
    unfold wf_index; simpl. pose proof (max_index_nonneg (docs st)). lia.
  - apply Forall_app. split.
    + eapply Forall_impl; [exact Hiss|]. intros u Hu. apply (issued_mono st); [simpl; lia | done].
    + apply Forall_singleton. exists (next_seq st). split; [simpl; lia | done].
Qed.

(** C26: A record inserted and then fetched by its [_id] comes back with every
    field it was given, only [_id] and [index] being the store's. *)
Theorem insert_then_findOne (t : TodoItem) (st st' : Store) (t' : TodoItem) :
  wf st → insert t st = inr (st', t') →
  findOne (q_id (_id t')) st' = Some t' ∧
  title t' = title t ∧ description t' = description t ∧ status t' = status t ∧
  cronTime t' = cronTime t ∧ notes t' = notes t.
Proof.
  unfold insert. case_bool_decide as Hover; [done|]. intros Hwf [= <- <-].
  split_and!; try done. unfold findOne; cbn [docs].
  rewrite find_app_r; cbn [List.find].
  - by rewrite (proj2 (matches_q_id _ _) eq_refl).
  - intros u Hu. destruct (matches _ u) eqn:E; [|done].
    apply matches_q_id in E. by destruct (next_id_fresh st u Hwf Hu).
Qed.

(** ** Removal *)

Lemma remove_first_subset (q : Query) (l l' : list TodoItem) :
  remove_first q l = Some l' → ∀ u, u ∈ l' → u ∈ l.
Proof.
  revert l'. induction l as [|t l IH]; intros l' H; [done|]. simpl in H.
  destruct (matches q t).
  - injection H as <-. intros u Hu. by right.
  - destruct (remove_first q l) as [l1|]; [|done]. injection H as <-.
    intros u [->|Hu]%elem_of_cons; [by left | right; by apply (IH l1)].
Qed.

Lemma remove_first_length (q : Query) (l l' : list TodoItem) :
  remove_first q l = Some l' → length l' = length l - 1.
Proof.
  revert l'. induction l as [|t l IH]; intros l' H; [done|]. simpl in H.
  destruct (matches q t).
  - injection H as <-. simpl. lia.
  - destruct (remove_first q l) as [l1|] eqn:E; [|done]. injection H as <-.
    simpl. rewrite (IH l1 eq_refl). destruct l; [done | simpl; lia].
Qed.

Lemma remove_first_NoDup {B} (f : TodoItem → B) (q : Query) (l l' : list TodoItem) :
  remove_first q l = Some l' → NoDup (f <$> l) → NoDup (f <$> l').
Proof.
  revert l'. induction l as [|t l IH]; intros l' H Hnd; [done|]. simpl in H.
  rewrite fmap_cons in Hnd. apply NoDup_cons in Hnd as [Hnotin Hnd].
  destruct (matches q t) eqn:Ht.
  - by injection H as <-.
  - destruct (remove_first q l) as [l1|] eqn:E; [|done]. injection H as <-.
    rewrite fmap_cons. apply NoDup_cons. split; [|by apply IH].
    intros (u & Hfu & Hu)%list_elem_of_fmap. apply Hnotin, list_elem_of_fmap.
    exists u. split; [done|]. by apply (remove_first_subset q l l1).
Qed.

(** [remove] keeps the store well formed. *)
Lemma remove_wf (q : Query) (st st' : Store) :
  wf st → remove q st = inr st' → wf st'.
Proof.
  unfold remove. destruct (remove_first q (docs st)) as [l|] eqn:E; [|done].
  intros [Hids Hixs Hb Hiss] [= <-]. pose proof (remove_first_subset _ _ _ E) as Hsub.
  constructor; simpl.
  - by apply (remove_first_NoDup _id q (docs st)).
  - by apply (remove_first_NoDup index q (docs st)).
  - apply Forall_forall. intros u Hu. rewrite Forall_forall in Hb. by apply Hb, Hsub.
  - apply Forall_forall. intros u Hu. rewrite Forall_forall in Hiss. by apply Hiss, Hsub.
Qed.

(** [remove] deletes one record and does not renumber the others: every
    surviving record is a record of the old store, unchanged. *)
Lemma remove_no_renumbering (q : Query) (st st' : Store) :
  remove q st = inr st' →
  (∀ u, u ∈ docs st' → u ∈ docs st) ∧ length (docs st') = length (docs st) - 1.
Proof.
  unfold remove. destruct (remove_first q (docs st)) as [l|] eqn:E; [|done].
  intros [= <-]. split; [by apply (remove_first_subset q) | by apply (remove_first_length q)].
Qed.

Lemma find_q_all (st : Store) : find q_all st = docs st.
Proof. apply filter_q_all. Qed.

(** A record found by index carries that index. *)
Lemma findOne_q_index (n : jsnum) (st : Store) (t : TodoItem) :
  findOne (q_index n) st = Some t → n = JInt (index t) ∧ t ∈ docs st.
Proof.
  intros [<- Hin]%(find_key_some index_value q_index matches_q_index_value). done.
Qed.

(** In a well-formed store, looking a record up by its [_id] finds it. *)
Lemma findOne_q_id_self (st : Store) (t : TodoItem) :
  wf st → t ∈ docs st → findOne (q_id (_id t)) st = Some t.
Proof. intros Hwf. apply (find_key_self _id q_id matches_q_id), Hwf. Qed.

(** C24: the update by [_id] fails with [NotFoundError], and changes
    nothing, exactly when no record has that [_id]. *)
Theorem update_by_id_not_found (id : string) (repl : TodoItem) (st : Store) :
  update (q_id id) repl st = inl NotFoundError ↔ ∀ t, t ∈ docs st → _id t ≠ id.
Proof. rewrite update_not_found. apply (find_key_None _id q_id matches_q_id). Qed.

(** When [findOne] finds a record, [update] with the same query succeeds. *)
Lemma update_findOne_some (q : Query) (repl : TodoItem) (st : Store) (t : TodoItem) :
  findOne q st = Some t → ∃ st', update q repl st = inr st'.
Proof.
  unfold update, findOne. intros Hf.
  destruct (replace_first q repl (docs st)) as [l|] eqn:E; [by eexists|].
  apply replace_first_None in E. congruence.
Qed.

(** C23: in a well-formed store, the update by [_id] that [showEditor]
    issues refines a list update at the first match: when [findOne] finds
    [t] at position [i], the update succeeds, position [i] now holds the
    replacement carrying [t]'s [_id] and [index], every other record and
    the id counter are unchanged, and the store stays well formed. *)
Theorem update_refines (id : string) (repl : TodoItem) (st : Store) (t : TodoItem) :
  let q := q_id id in
  wf st → findOne q st = Some t →
  ∃ i st', update q repl st = inr st' ∧ docs st !! i = Some t ∧
    docs st' = <[i := keep_identity t repl]> (docs st) ∧ next_seq st' = next_seq st ∧ wf st'.
Proof.
  intros q Hwf Hf. destruct (update_findOne_some q repl st t Hf) as [st' Hup].
  destruct (update_first_match _ _ _ _ Hup) as (i & u & Hu & Hi & Hdocs & Hseq).
  rewrite Hf in Hu. injection Hu as <-.
  exists i, st'. split_and!; try done. by apply (update_wf q repl st).
Qed.

(** ** Witnesses *)

Lemma wf_demo_store : wf demo_store.
Proof.
  constructor; simpl.
  - apply NoDup_cons; split; [|apply NoDup_singleton].
    intros H%list_elem_of_singleton%id_of_inj. lia.
  - apply NoDup_cons; split; [|apply NoDup_singleton]. by intros ?%list_elem_of_singleton.
  - repeat constructor; unfold wf_index, max_safe; simpl; lia.
  - repeat constructor; [exists 0 | exists 1]; split; simpl; (lia || done).
Qed.

Lemma update_refines_witness :
  ∃ i st', update (q_id (id_of 1)) demo_milk demo_store = inr st' ∧
    docs demo_store !! i = Some demo_deploy ∧
    docs st' = <[i := keep_identity demo_deploy demo_milk]> (docs demo_store) ∧
    next_seq st' = next_seq demo_store ∧ wf st'.
Proof. apply update_refines; [exact wf_demo_store | reflexivity]. Defined.

Lemma update_by_id_idempotent_witness :
  update (q_id (id_of 1)) demo_milk
    (mkStore [demo_milk; keep_identity demo_deploy demo_milk] 2) =
  inr (mkStore [demo_milk; keep_identity demo_deploy demo_milk] 2).
Proof. apply (update_by_id_idempotent _ _ demo_store). reflexivity. Defined.

Lemma insert_then_findOne_witness :
  let t := mkTodo "x" 0 "Call" "ring Bob" solved None ["n"] in
  let t' := mkTodo (id_of 2) 3 "Call" "ring Bob" solved None ["n"] in
  findOne (q_id (_id t')) (mkStore (docs demo_store ++ [t']) 3) = Some t' ∧
  title t' = title t ∧ description t' = description t ∧ status t' = status t ∧
  cronTime t' = cronTime t ∧ notes t' = notes t.
Proof. intros t t'. apply (insert_then_findOne t demo_store); [exact wf_demo_store | reflexivity]. Defined.

(** In a well-formed store, looking a record up by its index finds it. *)
Lemma findOne_q_index_self (st : Store) (t : TodoItem) :
  wf st → t ∈ docs st → findOne (q_index (JInt (index t))) st = Some t.
Proof.
  intros Hwf. apply (find_key_self index_value q_index matches_q_index_value).
  apply NoDup_index_value, Hwf.
Qed.

(** Issued identifiers are never empty. *)
Lemma wf_id_truthy (st : Store) (t : TodoItem) : wf st → t ∈ docs st → truthy_str (_id t) = true.
Proof.
  intros [_ _ _ Hiss] Hin. rewrite Forall_forall in Hiss.
  destruct (Hiss t Hin) as (k & _ & ->). done.
Qed.

Lemma wf_index_bounds (st : Store) (t : TodoItem) : wf st → t ∈ docs st → (0 < index t ≤ max_safe)%Z.
Proof. intros [_ _ Hb _] Hin. rewrite Forall_forall in Hb. by apply Hb. Qed.

(** An update keeps every record's [_id] and [index], in order, and the
    identity counter. *)
Lemma update_identity (q : Query) (repl : TodoItem) (st st' : Store) :
  update q repl st = inr st' →
  _id <$> docs st' = _id <$> docs st ∧ index <$> docs st' = index <$> docs st ∧
  next_seq st' = next_seq st.
Proof.
  unfold update. destruct (replace_first q repl (docs st)) as [l|] eqn:E; [|done].
  intros [= <-]. simpl. destruct (replace_first_identity _ _ _ _ E). done.
Qed.

(** The lookup by [index] finds nothing exactly when no record has that
    number as its index. *)
Lemma findOne_q_index_None (n : jsnum) (st : Store) :
  findOne (q_index n) st = None ↔ ∀ t, t ∈ docs st → n ≠ JInt (index t).
Proof.
  unfold findOne. rewrite (find_key_None index_value q_index matches_q_index_value).
  unfold index_value. naive_solver.
Qed.
