(* ===== verification/StoreSpec.v ===== *)
(** * StoreSpec: the store's contract, its clients, and the list store

    What [todo-show.ts] needs from [utils/store.ts] (spec, section 4.2),
    stated as an interface: [StoreOps] names the operations the script
    calls ([find], [findOne], [update]) together with the abstraction
    [st_docs] (the records in persisted order) and the invariant [st_wf];
    [StoreContract] states their laws:
    - [find q] is every matching record in persisted order;
    - [findOne q] is the first of them;
    - [update q repl] on a match replaces that first match, in place, by
      the replacement with the old [_id] and [index], and keeps the
      invariant; without a match it fails with [NotFoundError];
    - the invariant makes [_id]s unique and never empty, and [index]es
      unique and between [1] and [2^53].
    The lookups by [index] and [_id] and the update by [_id] are proved
    here against the interface only; the command ([Effects], [TodoShow],
    [Runs], [Concurrent]) calls the store through [StoreOps] and is proved
    against [StoreContract] with these lemmas.  The editor screen's
    write-back ([store.update({ _id: task._id }, ...)], line 44) is
    [update_same_identity].  The list store of [Store] discharges the
    interface ([list_store_contract]), so every such theorem holds of it,
    as the witnesses show on the demonstration store. *)

From stdpp Require Import base list strings.
From Stdlib Require Import ZArith.
From S2P Require Import Prelude Js Todo Query Store.

Class StoreOps (S : Type) := {
  st_docs : S → list TodoItem;
  st_find : Query → S → list TodoItem;
  st_findOne : Query → S → option TodoItem;
  st_update : Query → TodoItem → S → StoreError + S;
  st_wf : S → Prop
}.

Class StoreContract (S : Type) `{!StoreOps S} : Prop := {
  contract_find q s : st_find q s = List.filter (matches q) (st_docs s);
  contract_findOne q s : st_findOne q s = List.find (matches q) (st_docs s);
  contract_update_found q repl s t :
    st_findOne q s = Some t →
    ∃ i s', st_update q repl s = inr s' ∧ st_docs s !! i = Some t ∧
            st_docs s' = <[i := keep_identity t repl]> (st_docs s);
  contract_update_missing q repl s :
    st_findOne q s = None → st_update q repl s = inl NotFoundError;
  contract_wf_update q repl s s' : st_wf s → st_update q repl s = inr s' → st_wf s';
  contract_wf_ids s : st_wf s → NoDup (_id <$> st_docs s);
  contract_wf_indices s : st_wf s → NoDup (index <$> st_docs s);
  contract_wf_bounds s t : st_wf s → t ∈ st_docs s → (0 < index t ≤ max_safe)%Z;
  contract_wf_id_truthy s t : st_wf s → t ∈ st_docs s → truthy_str (_id t) = true
}.

#[export] Instance list_store_ops : StoreOps Store := {|
  st_docs := docs;
  st_find := find;
  st_findOne := findOne;
  st_update := update;
  st_wf := wf
|}.

(** ** Clients of the contract *)

Section client.
Context {S : Type} `{StoreContract S}.

(** With unique [_id]s the lookup by a stored record's [_id] finds it. *)
Lemma contract_findOne_id_self (s : S) (t : TodoItem) :
  st_wf s → t ∈ st_docs s → st_findOne (q_id (_id t)) s = Some t.
Proof.
  intros Hwf. rewrite contract_findOne.
  apply (find_key_self _id q_id matches_q_id), contract_wf_ids, Hwf.
Qed.

(** With unique indices the lookup by a stored record's index finds it. *)
Lemma contract_findOne_index_self (s : S) (t : TodoItem) :
  st_wf s → t ∈ st_docs s → st_findOne (q_index (JInt (index t))) s = Some t.
Proof.
  intros Hwf. rewrite contract_findOne.
  apply (find_key_self index_value q_index matches_q_index_value).
  apply NoDup_index_value, contract_wf_indices, Hwf.
Qed.

(** A record found by index is stored and carries that index. *)
Lemma contract_findOne_index (n : jsnum) (s : S) (t : TodoItem) :
  st_findOne (q_index n) s = Some t → n = JInt (index t) ∧ t ∈ st_docs s.
Proof.
  rewrite contract_findOne.
  intros [<- Hin]%(find_key_some index_value q_index matches_q_index_value). done.
Qed.

(** The lookup by [index] finds nothing exactly when no stored record has
    that number as its index. *)
Lemma contract_findOne_index_None (n : jsnum) (s : S) :
  st_findOne (q_index n) s = None ↔ ∀ t, t ∈ st_docs s → n ≠ JInt (index t).
Proof.
  rewrite contract_findOne, (find_key_None index_value q_index matches_q_index_value).
  unfold index_value. naive_solver.
Qed.

Lemma contract_find_all (s : S) : st_find q_all s = st_docs s.
Proof. by rewrite contract_find, filter_q_all. Qed.

(** An update that finds its record succeeds, replacing the first match
    in place and keeping the invariant. *)
Lemma contract_update_wf (q : Query) (repl : TodoItem) (s : S) (t : TodoItem) :
  st_wf s → st_findOne q s = Some t →
  ∃ i s', st_update q repl s = inr s' ∧ st_docs s !! i = Some t ∧
          st_docs s' = <[i := keep_identity t repl]> (st_docs s) ∧ st_wf s'.
Proof.
  intros Hwf Hf. destruct (contract_update_found q repl s t Hf) as (i & s' & Hup & Hi & Hdocs).
  exists i, s'. split_and!; try done. by apply (contract_wf_update _ _ _ _ Hwf Hup).
Qed.


(** In a store satisfying the invariant, the update by a stored record's
    [_id] with a record of the same [_id] and [index] replaces it in place. *)
Lemma update_same_identity (s : S) (i : nat) (u repl : TodoItem) :
  st_wf s → st_docs s !! i = Some u → _id repl = _id u → index repl = index u →
  ∃ s', st_update (q_id (_id u)) repl s = inr s' ∧ st_docs s' = <[i := repl]> (st_docs s).
Proof.
  intros Hwf Hi Hid Hix.
  destruct (contract_update_found (q_id (_id u)) repl s u
              (contract_findOne_id_self s u Hwf (list_elem_of_lookup_2 _ _ _ Hi)))
    as (j & s' & Hup & Hj & Hdocs).
  assert (j = i) as ->.
  { apply (NoDup_lookup (st_docs s) j i u); [|done | done].
    eapply NoDup_fmap_1, contract_wf_ids, Hwf. }
  exists s'. split; [done|]. rewrite Hdocs. f_equal.
  destruct u, repl; simpl in *; by subst.
Qed.

End client.

(** ** The list store meets the contract *)

#[export] Instance list_store_contract : StoreContract Store.
Proof.
  split; cbn [st_docs st_find st_findOne st_update st_wf list_store_ops].
  - done.
  - done.
  - intros q repl s t Hf. destruct (update_findOne_some q repl s t Hf) as [s' Hup].
    destruct (update_first_match _ _ _ _ Hup) as (i & u & Hu & Hi & Hdocs & _).
    rewrite Hf in Hu. injection Hu as <-. by exists i, s'.
  - intros q repl s Hf. by apply update_not_found.
  - apply update_wf.
  - apply wf_ids.
  - apply wf_indices.
  - apply wf_index_bounds.
  - apply wf_id_truthy.
Qed.

