(* ===== verification/Filter.v ===== *)
(** * Filter: the StatusDeriver of [utils/filter.ts]

    Modelled from the spec (section 4.3): [utils/filter.ts] is not under
    [src/].  [todo-show.ts] calls [Filter.date], [Filter.findScripts],
    [Filter.isTimeout], [Filter.colorOfTask], [Filter.symbolOfTask] and
    [Filter.strEllipsis].  The spec leaves the schedule syntax and the
    script pattern to the implementer; this model fixes them:
    - a deadline is written [YYYY-MM-DD HH:mm] (a calendar-checked date);
      anything else is "no deadline" ([date] gives the empty string);
    - a script is a non-empty back-quoted fragment, as in [run: `deploy.sh`];
    - the ellipsis marker is ["..."];
    - [strEllipsis] counts characters, the code points of the UTF-8 text
      ([char_count]), and keeps whole characters ([take_chars]).
    Lemmas: [find_scripts_l] decides the declarative [has_fragment];
    [parse_deadline] inverts [format_deadline] on valid dates; the
    truncation bound of [strEllipsis] in characters and its idempotence. *)

From stdpp Require Import base list strings.
From Stdlib Require Import ZArith Ascii.
From S2P Require Import Prelude Js Todo.

Local Open Scope Z_scope.

(** ** Deadlines *)

Record DateTime := mkDateTime {
  dt_year : Z; dt_month : Z; dt_day : Z; dt_hour : Z; dt_minute : Z
}.

#[export] Instance DateTime_eq_dec : EqDecision DateTime.
Proof. solve_decision. Defined.

Definition leap (y : Z) : bool :=
  ((y mod 4 =? 0) && negb (y mod 100 =? 0)) || (y mod 400 =? 0).

Definition days_in_month (y m : Z) : Z :=
  if m =? 2 then (if leap y then 29 else 28)
  else if bool_decide (m ∈ [4; 6; 9; 11]) then 30 else 31.

Definition valid_dt (d : DateTime) : bool :=
  bool_decide (0 ≤ dt_year d ≤ 9999 ∧ 1 ≤ dt_month d ≤ 12 ∧
               1 ≤ dt_day d ≤ days_in_month (dt_year d) (dt_month d) ∧
               0 ≤ dt_hour d < 24 ∧ 0 ≤ dt_minute d < 60).

(** Chronological order of valid dates is the order of this key. *)
Definition dt_key (d : DateTime) : Z :=
  (((dt_year d * 100 + dt_month d) * 100 + dt_day d) * 100 + dt_hour d) * 100 + dt_minute d.

Definition dt_before (a b : DateTime) : bool := dt_key a <? dt_key b.

(** Reads exactly [n] decimal digits. *)
Fixpoint fixed_digits (n : nat) (acc : Z) (l : list ascii) : option (Z * list ascii) :=
  match n with
  | O => Some (acc, l)
  | S k =>
      match l with
      | c :: r => d ← digit_in 10 c; fixed_digits k (acc * 10 + d) r
      | [] => None
      end
  end.

Definition expect (c : ascii) (l : list ascii) : option (list ascii) :=
  match l with
  | c' :: r => if bool_decide (c' = c) then Some r else None
  | [] => None
  end.

Definition parse_deadline (s : string) : option DateTime :=
  let l := String.list_ascii_of_string s in
  '(y, r) ← fixed_digits 4 0 l; r ← expect "-" r;
  '(mo, r) ← fixed_digits 2 0 r; r ← expect "-" r;
  '(d, r) ← fixed_digits 2 0 r; r ← expect " " r;
  '(h, r) ← fixed_digits 2 0 r; r ← expect ":" r;
  '(mi, r) ← fixed_digits 2 0 r;
  let dt := mkDateTime y mo d h mi in
  if bool_decide (r = []) && valid_dt dt then Some dt else None.

(** [z] in exactly [n] digits, most significant first. *)
Fixpoint pad_digits (n : nat) (z : Z) : list ascii :=
  match n with
  | O => []
  | S k => digit_char (z / 10 ^ Z.of_nat k) :: pad_digits k (z mod 10 ^ Z.of_nat k)
  end.

Definition format_deadline (d : DateTime) : string :=
  String.string_of_list_ascii
    (pad_digits 4 (dt_year d) ++ ["-"%char] ++ pad_digits 2 (dt_month d) ++ ["-"%char] ++
     pad_digits 2 (dt_day d) ++ [" "%char] ++ pad_digits 2 (dt_hour d) ++ [":"%char] ++
     pad_digits 2 (dt_minute d)).

Definition deadline (cron : option string) : option DateTime := cron ≫= parse_deadline.

(** [Filter.date(cronTime)]: the deadline's text, or [""] when it is absent
    or does not parse. *)
Definition date (cron : option string) : string :=
  match deadline cron with
  | Some d => format_deadline d
  | None => EmptyString
  end.

(** [Filter.isTimeout(task)] at the current time [now]. *)
Definition isTimeout (now : DateTime) (t : TodoItem) : bool :=
  match deadline (cronTime t) with
  | Some d => dt_before d now
  | None => false
  end.

Local Close Scope Z_scope.

(** ** Scripts in a description *)

Definition tick : ascii := "`"%char.

(** After an opening back quote: a non-empty fragment closed later. *)
Fixpoint script_from (l : list ascii) : bool :=
  match l with
  | [] => false
  | c :: r => if bool_decide (c = tick) then script_from r else bool_decide (tick ∈ r)
  end.

Fixpoint find_scripts_l (l : list ascii) : bool :=
  match l with
  | [] => false
  | c :: r => if bool_decide (c = tick) then script_from r else find_scripts_l r
  end.

(** [Filter.findScripts(description)]. *)
Definition findScripts (s : string) : bool := find_scripts_l (String.list_ascii_of_string s).

(** ** Colour and symbol tokens *)

Inductive ColorToken := neutral | warning | done_color.
Inductive SymbolToken := open_mark | closed_mark.

(** [Filter.colorOfTask(task)]: solved tasks are [done_color], overdue
    unsolved ones [warning], the others [neutral]. *)
Definition colorOfTask (now : DateTime) (t : TodoItem) : ColorToken :=
  match status t with
  | solved => done_color
  | unsolved => if isTimeout now t then warning else neutral
  end.

(** The hex colour handed to [Chalk.hex]. *)
Definition color_hex (c : ColorToken) : string :=
  match c with
  | neutral => "#FFFFFF"
  | warning => "#E79627"
  | done_color => "#6A9955"
  end.

Definition symbolOfTask (t : TodoItem) : SymbolToken :=
  match status t with unsolved => open_mark | solved => closed_mark end.

Definition symbol_text (s : SymbolToken) : string :=
  match s with open_mark => "☐" | closed_mark => "☑" end.

(** ** [Filter.strEllipsis(text, maxLength)]

    Lengths are counted in characters, as the spec asks: on the UTF-8
    bytes of a string, a character is a byte that is not a continuation
    byte ([0x80]-[0xBF]) together with the continuation bytes after it,
    so a cut never splits a character. *)

Definition lead (b : ascii) : bool :=
  negb (Nat.leb 128 (nat_of_ascii b) && Nat.ltb (nat_of_ascii b) 192).

(** The number of characters of a byte string. *)
Fixpoint char_count (l : list ascii) : nat :=
  match l with
  | [] => 0
  | b :: r => (if lead b then 1 else 0) + char_count r
  end.

(** The first [n] characters, each with all its bytes. *)
Fixpoint take_chars (n : nat) (l : list ascii) : list ascii :=
  match l with
  | [] => []
  | b :: r =>
      if lead b then match n with O => [] | S m => b :: take_chars m r end
      else b :: take_chars n r
  end.

Definition ellipsis : string := "...".

Definition strEllipsis (s : string) (n : nat) : string :=
  let l := String.list_ascii_of_string s in
  if bool_decide (char_count l ≤ n) then s
  else String.string_of_list_ascii (take_chars n l ++ String.list_ascii_of_string ellipsis).

(** The number of characters of a string. *)
Definition chars (s : string) : nat := char_count (String.list_ascii_of_string s).

(** ** Theorems on [strEllipsis] *)

Local Close Scope Z_scope.

Lemma char_count_app (a b : list ascii) : char_count (a ++ b) = char_count a + char_count b.
Proof. induction a as [|x a IH]; simpl; [done|]. rewrite IH. lia. Qed.

Lemma char_count_le_length (l : list ascii) : char_count l ≤ length l.
Proof. induction l as [|x l IH]; simpl; [done|]. destruct (lead x); lia. Qed.

Lemma char_count_take (n : nat) (l : list ascii) : char_count (take_chars n l) = min n (char_count l).
Proof.
  revert n. induction l as [|x l IH]; intros n; simpl; [lia|].
  destruct (lead x) eqn:E, n as [|m]; simpl; rewrite ?E, ?IH; simpl; lia.
Qed.

Lemma take_chars_all (n : nat) (l : list ascii) : char_count l ≤ n → take_chars n l = l.
Proof.
  revert n. induction l as [|x l IH]; intros n Hn; simpl in *; [done|].
  destruct (lead x) eqn:E, n as [|m]; [lia| |by rewrite IH|by rewrite IH]. f_equal. apply IH. lia.
Qed.

(** Cutting after the characters of [a] keeps [a] and what [b] starts with
    up to its first character. *)
Lemma take_chars_app (a b : list ascii) : take_chars (char_count a) (a ++ b) = a ++ take_chars 0 b.
Proof. induction a as [|x a IH]; simpl; [done|]. destruct (lead x) eqn:E; simpl; by rewrite ?E, IH. Qed.

Lemma chars_app (a b : string) : chars (a +:+ b) = chars a + chars b.
Proof. unfold chars. induction a as [|x a IH]; simpl; [done|]. rewrite IH. lia. Qed.

Lemma chars_of_list (l : list ascii) : chars (String.string_of_list_ascii l) = char_count l.
Proof. unfold chars. by rewrite String.list_ascii_of_string_of_list_ascii. Qed.

Lemma chars_le_length (s : string) : chars s ≤ String.length s.
Proof.
  unfold chars. rewrite <-(String.string_of_list_ascii_of_string s) at 2.
  rewrite str_length_of_list. apply char_count_le_length.
Qed.

Lemma chars_nil : chars EmptyString = 0.
Proof. done. Qed.

Lemma chars_cons (c : ascii) (s : string) : chars (String c s) = (if lead c then 1 else 0) + chars s.
Proof. done. Qed.

#[export] Hint Rewrite chars_app chars_nil chars_cons : todo_rw.

(** [strEllipsis] leaves a text of at most [n] characters alone and
    otherwise keeps its first [n] characters followed by the marker, so its
    result is never longer than [n] characters plus the marker. *)
Lemma strEllipsis_length (s : string) (n : nat) :
  chars (strEllipsis s n) ≤ n + chars ellipsis.
Proof.
  unfold strEllipsis. case_bool_decide as Hs; [unfold chars; lia|].
  rewrite chars_of_list, char_count_app, char_count_take. fold (chars ellipsis). lia.
Qed.

(** [strEllipsis] is idempotent. *)
Lemma strEllipsis_idempotent (s : string) (n : nat) :
  strEllipsis (strEllipsis s n) n = strEllipsis s n.
Proof.
  unfold strEllipsis at 2. case_bool_decide as Hs.
  - unfold strEllipsis. by rewrite bool_decide_eq_true_2.
  - set (l := String.list_ascii_of_string s) in *.
    assert (Hc : char_count (take_chars n l) = n) by (rewrite char_count_take; lia).
    unfold strEllipsis. rewrite String.list_ascii_of_string_of_list_ascii.
    rewrite bool_decide_eq_false_2 by (rewrite char_count_app, Hc; simpl; lia).
    pose proof (take_chars_app (take_chars n l) (String.list_ascii_of_string ellipsis)) as Ht.
    rewrite Hc in Ht. rewrite Ht, app_nil_r. fold l. by rewrite bool_decide_eq_false_2.
Qed.

(** ** [findScripts] against its specification *)

(** A back-quoted fragment: two back quotes around a non-empty text with
    no back quote in it. *)
Definition has_fragment (l : list ascii) : Prop :=
  ∃ a b c, l = a ++ tick :: b ++ tick :: c ∧ b ≠ [] ∧ tick ∉ b.

(** Splits a list at the first occurrence of [x]. *)
Lemma split_first (x : ascii) (l : list ascii) :
  x ∈ l → ∃ b c, l = b ++ x :: c ∧ x ∉ b.
Proof.
  induction l as [|y l IH]; [by intros ?%elem_of_nil|]. intros Hx.
  destruct (decide (y = x)) as [->|Hne]; [exists [], l; split; [done | by intros ?%elem_of_nil]|].
  apply elem_of_cons in Hx as [->|Hx]; [done|].
  destruct (IH Hx) as (b & c & -> & Hb). exists (y :: b), c. split; [done|].
  intros [->|Hin]%elem_of_cons; [done | by apply Hb].
Qed.

Lemma script_from_complete (a b c : list ascii) :
  b ≠ [] → tick ∉ b → script_from (a ++ tick :: b ++ tick :: c) = true.
Proof.
  intros Hb Htb. induction a as [|x a IH]; cbn [app script_from].
  - rewrite bool_decide_eq_true_2 by done. destruct b as [|y b]; [done|]. cbn [app script_from].
    rewrite bool_decide_eq_false_2 by (intros ->; apply Htb; left).
    apply bool_decide_eq_true_2. apply elem_of_app. right. left.
  - case_bool_decide; [done|]. apply bool_decide_eq_true_2.
    apply elem_of_app. right. left.
Qed.

Lemma script_from_sound (l : list ascii) :
  script_from l = true → has_fragment (tick :: l).
Proof.
  induction l as [|y l IH]; cbn [script_from]; [done|]. case_bool_decide as Hy.
  - intros H. destruct (IH H) as (a & b & c & Heq & Hb & Htb).
    exists (tick :: a), b, c. subst y. rewrite Heq. done.
  - intros Hin%bool_decide_eq_true_1. destruct (split_first tick l Hin) as (b & c & -> & Hb).
    exists [], (y :: b), c. split_and!; [done | done |].
    intros [Heq|?]%elem_of_cons; [apply Hy; by rewrite Heq | by apply Hb].
Qed.

(** [findScripts] decides exactly the existence of a back-quoted fragment. *)
Lemma find_scripts_l_spec (l : list ascii) : find_scripts_l l = true ↔ has_fragment l.
Proof.
  split.
  - induction l as [|x l IH]; cbn [find_scripts_l]; [done|]. case_bool_decide as Hx.
    + subst x. apply script_from_sound.
    + intros H. destruct (IH H) as (a & b & c & -> & Hb & Htb). by exists (x :: a), b, c.
  - intros (a & b & c & -> & Hb & Htb). induction a as [|x a IH]; cbn [app find_scripts_l].
    + rewrite bool_decide_eq_true_2 by done. apply (script_from_complete [] b c Hb Htb).
    + case_bool_decide; [by apply script_from_complete | done].
Qed.

(** ** The deadline text round trip *)

Local Open Scope Z_scope.

Lemma fixed_digits_pad (n : nat) (acc z : Z) (r : list ascii) :
  0 ≤ z < 10 ^ Z.of_nat n →
  fixed_digits n acc (pad_digits n z ++ r) = Some (acc * 10 ^ Z.of_nat n + z, r).
Proof.
  revert acc z. induction n as [|k IH]; intros acc z Hz.
  - change (Z.of_nat 0) with 0 in *. rewrite Z.pow_0_r in *. simpl. f_equal. f_equal. lia.
  - rewrite Nat2Z.inj_succ, Z.pow_succ_r in * by lia.
    pose proof (Z.pow_pos_nonneg 10 (Z.of_nat k) ltac:(lia) ltac:(lia)) as Hp.
    cbn [pad_digits fixed_digits app]. rewrite digit_in_digit_char.
    2: { split; [apply Z.div_pos; lia | apply Z.div_lt_upper_bound; lia]. }
    cbn [mbind option_bind]. rewrite IH by (apply Z.mod_pos_bound; lia).
    pose proof (Z.div_mod z (10 ^ Z.of_nat k) ltac:(lia)). f_equal. f_equal. nia.
Qed.

Lemma expect_cons (c : ascii) (r : list ascii) : expect c (c :: r) = Some r.
Proof. unfold expect. by rewrite bool_decide_eq_true_2. Qed.

Lemma days_in_month_le (y m : Z) : days_in_month y m ≤ 31.
Proof. unfold days_in_month. repeat case_match; lia. Qed.

(** Formatting a valid deadline and parsing the text gives it back. *)
Lemma parse_format_deadline (d : DateTime) :
  valid_dt d = true → parse_deadline (format_deadline d) = Some d.
Proof.
  intros Hv. pose proof Hv as Hb. apply bool_decide_eq_true_1 in Hb.
  pose proof (days_in_month_le (dt_year d) (dt_month d)).
  unfold parse_deadline, format_deadline.
  rewrite String.list_ascii_of_string_of_list_ascii.
  rewrite <-(app_nil_r (pad_digits 2 (dt_minute d))).
  repeat (first [rewrite fixed_digits_pad by (simpl; lia) | rewrite expect_cons];
          cbn [mbind option_bind app]).
  rewrite !Z.mul_0_l, !Z.add_0_l. destruct d; simpl in *. by rewrite Hv.
Qed.

Lemma format_deadline_truthy (d : DateTime) : truthy_str (format_deadline d) = true.
Proof. done. Qed.
