(* ===== verification/Cli.v ===== *)
(** * Cli: the command line as commander reads it (lines 11-16)

    [todo-show.ts] declares one boolean option and lets commander parse
    [process.argv]:
    [commander.option('-e, --edit', 'edit task').parse(process.argv)].
    commander is a library the repository only calls; this file follows
    its 2.x implementation ([Command.prototype.parse], [normalize],
    [parseOptions], [parseArgs] and [outputHelpIfNecessary]), restricted to
    a program whose only option is a flag that takes no value:
    - [normalize] splits [-abc] into [-a -b -c] and [--x=y] into [--x y],
      and copies everything from a [--] on unchanged;
    - [parseOptions] sets [edit] for [-e] or [--edit], sends everything
      after [--] to the positional arguments, and records any other word
      that starts with [-] and is longer than one character as an unknown
      option, together with the next word when that one does not start
      with [-];
    - [parseArgs], when there is no positional argument, shows the usage
      and exits with code 0 if [--help] or [-h] is among the unknown words,
      and otherwise reports the first unknown one and exits with code 1.
    Words are Rocq strings of bytes; commander splits [-abc] by UTF-16
    units, the same on ASCII. *)

From stdpp Require Import base list strings.
From Stdlib Require Import Ascii.
From S2P Require Import Prelude.

(** ** Words *)

Definition dash : ascii := "-".

(** [arg[0] === '-'] *)
Definition starts_dash (s : string) : bool :=
  match s with String c _ => bool_decide (c = dash) | EmptyString => false end.

(** [this.optionFor(arg)] for [-e, --edit]. *)
Definition is_edit_option (s : string) : bool :=
  bool_decide (s = "-e" ∨ s = "--edit").

(** [arg.length > 1 && arg[0] === '-']: a word that looks like an option. *)
Definition looks_like_option (s : string) : bool :=
  bool_decide (1 < String.length s) && starts_dash s.

(** ** [normalize] *)

(** One word of [normalize] before any [--]. *)
Definition normalize_arg (arg : string) : list string :=
  match arg with
  | String c (String c' r) =>
      if bool_decide (c = dash) then
        if bool_decide (c' = dash) then
          match String.index 0 "=" arg with
          | Some i => [String.substring 0 i arg; String.substring (S i) (String.length arg) arg]
          | None => [arg]
          end
        else (λ ch, String dash (String ch EmptyString)) <$> String.list_ascii_of_string (String c' r)
      else [arg]
  | _ => [arg]
  end.

Fixpoint normalize (args : list string) : list string :=
  match args with
  | [] => []
  | a :: rest => if bool_decide (a = "--") then a :: rest else normalize_arg a ++ normalize rest
  end.

(** ** [parseOptions] *)

Record Parsed := mkParsed { p_edit : bool; p_args : list string; p_unknown : list string }.

Fixpoint parse_options (argv : list string) : Parsed :=
  match argv with
  | [] => mkParsed false [] []
  | a :: rest =>
      if bool_decide (a = "--") then mkParsed false rest []
      else if is_edit_option a then
        let p := parse_options rest in mkParsed true (p_args p) (p_unknown p)
      else if looks_like_option a then
        match rest with
        | b :: rest' =>
            if starts_dash b then
              let p := parse_options rest in mkParsed (p_edit p) (p_args p) (a :: p_unknown p)
            else
              let p := parse_options rest' in mkParsed (p_edit p) (p_args p) (a :: b :: p_unknown p)
        | [] => mkParsed false [] [a]
        end
      else let p := parse_options rest in mkParsed (p_edit p) (a :: p_args p) (p_unknown p)
  end.

(** ** [parse] and [parseArgs] *)

Inductive CliResult :=
  | CliRun (edit : option bool) (args : list string)
  | CliHelp
  | CliUnknown (opt : string).

(** [commander.edit] is [true] once the flag is seen and [undefined]
    otherwise. *)
Definition edit_value (b : bool) : option bool := if b then Some true else None.

Definition commander_parse (argv : list string) : CliResult :=
  let p := parse_options (normalize (drop 2 argv)) in
  match p_args p with
  | _ :: _ => CliRun (edit_value (p_edit p)) (p_args p)
  | [] =>
      if bool_decide ("--help" ∈ p_unknown p ∨ "-h" ∈ p_unknown p) then CliHelp
      else match p_unknown p with
           | u :: _ => CliUnknown u
           | [] => CliRun (edit_value (p_edit p)) []
           end
  end.

(** A one-letter short option [-c]. *)
Definition short_option (c : ascii) : string := String dash (String c EmptyString).

(** ** Lemmas *)

(** A positional word: neither an option nor the terminator. *)
Definition plain_word (s : string) : bool := negb (starts_dash s).

Lemma normalize_arg_plain (s : string) : plain_word s = true → normalize_arg s = [s].
Proof.
  unfold plain_word, starts_dash, normalize_arg. destruct s as [|c [|c' r]]; [done..|].
  by case_bool_decide.
Qed.

Lemma plain_not_terminator (s : string) : plain_word s = true → s ≠ "--".
Proof. by intros H ->. Qed.

Lemma normalize_plain (l : list string) :
  Forall (λ s, plain_word s = true) l → normalize l = l.
Proof.
  induction 1 as [|s l Hs _ IH]; [done|]. cbn [normalize].
  rewrite bool_decide_eq_false_2 by (by apply plain_not_terminator).
  by rewrite normalize_arg_plain, IH.
Qed.

Lemma normalize_app_plain (l r : list string) :
  Forall (λ s, plain_word s = true) l → normalize (l ++ r) = l ++ normalize r.
Proof.
  induction 1 as [|s l Hs _ IH]; [done|]. cbn [normalize app].
  rewrite bool_decide_eq_false_2 by (by apply plain_not_terminator).
  by rewrite normalize_arg_plain, IH.
Qed.

Lemma parse_options_plain (l r : list string) :
  Forall (λ s, plain_word s = true) l →
  parse_options (l ++ r) = mkParsed (p_edit (parse_options r)) (l ++ p_args (parse_options r))
                             (p_unknown (parse_options r)).
Proof.
  induction 1 as [|s l Hs _ IH]; [simpl; by destruct (parse_options r)|]. cbn [parse_options app].
  rewrite bool_decide_eq_false_2 by (by apply plain_not_terminator).
  assert (is_edit_option s = false) as ->.
  { unfold is_edit_option. apply bool_decide_eq_false_2. intros [Heq|Heq]; by rewrite Heq in Hs. }
  assert (looks_like_option s = false) as ->.
  { unfold looks_like_option. unfold plain_word in Hs. destruct (starts_dash s); [done|].
    apply andb_false_r. }
  by rewrite IH.
Qed.

Lemma parse_options_all_plain (l : list string) :
  Forall (λ s, plain_word s = true) l → parse_options l = mkParsed false l [].
Proof.
  intros Hl. pose proof (parse_options_plain l [] Hl) as H.
  rewrite !app_nil_r in H. rewrite H. done.
Qed.

Lemma normalize_edit_option (opt : string) (r : list string) :
  is_edit_option opt = true → normalize (opt :: r) = opt :: normalize r.
Proof.
  unfold is_edit_option. intros H. apply bool_decide_eq_true_1 in H.
  destruct H as [H|H]; rewrite H; reflexivity.
Qed.

(** The edit flag among positional words: set, and the words kept in order. *)
Lemma parse_edit_among (opt : string) (a1 a2 : list string) :
  is_edit_option opt = true → Forall (λ s, plain_word s = true) (a1 ++ a2) →
  parse_options (normalize (a1 ++ opt :: a2)) = mkParsed true (a1 ++ a2) [].
Proof.
  intros Hopt [H1 H2]%Forall_app.
  rewrite normalize_app_plain, normalize_edit_option, normalize_plain by done.
  rewrite parse_options_plain by done. cbn [parse_options].
  rewrite bool_decide_eq_false_2 by (intros ->; discriminate).
  by rewrite Hopt, parse_options_all_plain by done.
Qed.

(** Positional words only: no flag, the words as [commander.args]. *)
Lemma commander_parse_plain (node script : string) (args : list string) :
  Forall (λ s, plain_word s = true) args →
  commander_parse (node :: script :: args) = CliRun None args.
Proof.
  intros H. unfold commander_parse. cbn [drop]. rewrite drop_0.
  rewrite normalize_plain, parse_options_all_plain by done. cbn. by destruct args.
Qed.

(** C27: the edit flag may stand anywhere among the words: [-e] or
    [--edit] before, between or after the positional words sets
    [commander.edit] and leaves the positional words, in order, as
    [commander.args]. *)
Theorem commander_edit_anywhere (node script opt : string) (a1 a2 : list string) :
  is_edit_option opt = true → Forall (λ s, plain_word s = true) (a1 ++ a2) →
  commander_parse (node :: script :: a1 ++ opt :: a2) = CliRun (Some true) (a1 ++ a2).
Proof.
  intros Hopt Hw. unfold commander_parse. cbn [drop]. rewrite drop_0, parse_edit_among by done.
  cbn [p_edit p_args p_unknown edit_value]. by destruct (a1 ++ a2).
Qed.

(** C28: after [--] every word is positional, options included:
    [todo show -- -2] passes ["-2"] as the index and sets no flag. *)
Theorem commander_terminator (node script : string) (rest : list string) :
  commander_parse (node :: script :: "--" :: rest) = CliRun None rest.
Proof.
  unfold commander_parse. cbn [drop normalize]. rewrite bool_decide_eq_true_2 by done.
  cbn [parse_options]. rewrite bool_decide_eq_true_2 by done. cbn [p_args p_edit p_unknown].
  by destruct rest.
Qed.

Lemma normalize_short_option (c : ascii) (r : list string) :
  c ≠ dash → normalize (short_option c :: r) = short_option c :: normalize r.
Proof.
  intros Hc. cbn [normalize]. rewrite bool_decide_eq_false_2 by (intros [= Heq]; by apply Hc).
  unfold normalize_arg, short_option. rewrite bool_decide_eq_true_2, bool_decide_eq_false_2 by done.
  done.
Qed.

Lemma plain_word_ne (x y : string) : plain_word x = true → starts_dash y = true → x ≠ y.
Proof. unfold plain_word. intros Hx Hy ->. by rewrite Hy in Hx. Qed.

Section unknown_short_option.
Context (node script x : string) (c : ascii).
Hypothesis (Hd : c ≠ dash) (He : c ≠ "e"%char) (Hh : c ≠ "h"%char) (Hx : plain_word x = true).

Lemma short_option_not_terminator : bool_decide (short_option c = "--") = false.
Proof. apply bool_decide_eq_false_2. intros [= Heq]; by apply Hd. Qed.

Lemma short_option_not_edit : is_edit_option (short_option c) = false.
Proof. apply bool_decide_eq_false_2. intros [Heq|Heq]; inversion Heq; subst; by apply He. Qed.

Lemma short_option_looks_like : looks_like_option (short_option c) = true.
Proof.
  unfold looks_like_option, starts_dash, short_option. cbn [String.length].
  rewrite !bool_decide_eq_true_2 by (done || lia). done.
Qed.

(** The option first: it takes the word as its value, none is left. *)
Lemma parse_unknown_short_first :
  commander_parse [node; script; short_option c; x] = CliUnknown (short_option c).
Proof.
  unfold commander_parse. cbn [drop].
  rewrite normalize_short_option, normalize_plain by (done || by constructor). cbn [parse_options].
  rewrite short_option_not_terminator, short_option_not_edit, short_option_looks_like.
  pose proof Hx as Hs. unfold plain_word in Hs.
  destruct (starts_dash x); [done|]. cbn [parse_options p_args p_edit p_unknown].
  rewrite bool_decide_eq_false_2; [done|].
  pose proof (plain_word_ne x "--help" Hx eq_refl). pose proof (plain_word_ne x "-h" Hx eq_refl).
  pose proof Hh. unfold short_option, dash in *.
  intros [Hin|Hin]; apply elem_of_cons in Hin as [Hin|Hin%list_elem_of_singleton];
    simplify_eq/=; congruence.
Qed.

(** The option last: the word before it stays positional. *)
Lemma parse_unknown_short_last :
  commander_parse [node; script; x; short_option c] = CliRun None [x].
Proof.
  unfold commander_parse. cbn [drop]. change [x; short_option c] with ([x] ++ [short_option c]).
  rewrite normalize_app_plain, normalize_short_option by (done || by constructor). cbn [normalize].
  rewrite parse_options_plain by (by constructor). cbn [parse_options].
  by rewrite short_option_not_terminator, short_option_not_edit, short_option_looks_like.
Qed.
End unknown_short_option.

(** C29: an unknown option takes the word after it as its value, so where
    the index stands matters: [todo show -x 2] stops with "unknown option
    -x" (no positional word is left), while [todo show 2 -x] runs with
    index [2]. *)
Theorem commander_unknown_option_order (node script x : string) (c : ascii) :
  c ≠ dash → c ≠ "e"%char → c ≠ "h"%char → plain_word x = true →
  commander_parse [node; script; short_option c; x] = CliUnknown (short_option c) ∧
  commander_parse [node; script; x; short_option c] = CliRun None [x].
Proof.
  intros Hd He Hh Hx.
  split; [apply parse_unknown_short_first | apply parse_unknown_short_last]; done.
Qed.


Lemma commander_edit_anywhere_witness :
  commander_parse ["node"; "todo-show"; "2"; "-e"] = CliRun (Some true) ["2"].
Proof.
  apply (commander_edit_anywhere "node" "todo-show" "-e" ["2"] []); [done | by repeat constructor].
Defined.

Lemma commander_unknown_option_order_witness :
  commander_parse ["node"; "todo-show"; "-v"; "2"] = CliUnknown "-v" ∧
  commander_parse ["node"; "todo-show"; "2"; "-v"] = CliRun None ["2"].
Proof. apply (commander_unknown_option_order "node" "todo-show" "2" "v"%char); done. Defined.
