(* ===== verification/Effects.v ===== *)
(** * Effects: the runtime [todo-show.ts] runs in

    One invocation of [todo show] is a computation in [M], a state and
    exception monad over [World]:
    - [w_store], [w_disk_ok]: the collection file and whether reading or
      writing it succeeds (each store call loads, operates and flushes the
      file as one unit; a failing disk raises [PersistenceError]); the
      world is parametric in the store's type [S], and the store handle
      ([store_find], [store_findOne], [store_update]) calls the operations
      of the interface [StoreSpec.StoreOps], so that what is proved of the
      command against [StoreSpec.StoreContract] holds of every store that
      meets it;
    - [w_now]: the clock read by [Filter.isTimeout] and [Filter.colorOfTask];
    - [w_input], [w_editor]: what the user types at [inquirer]'s input
      prompts (one line per attempt) and does in each editor session (a
      function of the pre-filled text);
    - [w_out]: the lines written by [console.log], oldest first.
    Chalk's styling is kept as coloured segments ([Styled]); [paint] is
    [Chalk.hex(c)(...)], under which inner colours survive, as Chalk
    re-opens the outer colour after a nested one closes. *)

From stdpp Require Import base list strings.
From Stdlib Require Import ZArith.
From S2P Require Import Prelude Js Todo Query Store StoreSpec Filter.

(** ** Styled text *)

Record Seg := mkSeg { seg_color : option string; seg_text : string }.

Definition Styled := list Seg.

Definition plain (s : string) : Styled := [mkSeg None s].

Definition paint (hex : string) (st : Styled) : Styled :=
  (λ sg, match seg_color sg with
         | None => mkSeg (Some hex) (seg_text sg)
         | Some _ => sg
         end) <$> st.

(** The characters of a styled text, colours dropped. *)
Definition text_of (st : Styled) : string := foldr (λ sg acc, seg_text sg +:+ acc) EmptyString st.

(** [console.log(a, b, ...)]: the arguments joined by one space. *)
Fixpoint log_line (args : list Styled) : Styled :=
  match args with
  | [] => []
  | [a] => a
  | a :: r => a ++ plain " " ++ log_line r
  end.

(** ** The world and the monad *)

Inductive Exn :=
  | TypeError (msg : string)
  | StoreFailure (e : StoreError)
  | PersistenceError
  | PromptClosed
  | ProcessExit (code : Z) (msg : string).

Record World (S : Type) := mkWorld {
  w_store : S;
  w_disk_ok : bool;
  w_now : DateTime;
  w_input : list string;
  w_editor : list (string → string);
  w_out : list Styled
}.
Arguments mkWorld {S}.
Arguments w_store {S}. Arguments w_disk_ok {S}. Arguments w_now {S}.
Arguments w_input {S}. Arguments w_editor {S}. Arguments w_out {S}.

Inductive Res (A : Type) := Ok (a : A) | Throw (e : Exn).
Arguments Ok {A}. Arguments Throw {A}.

Definition M (S A : Type) : Type := World S → Res A * World S.

#[export] Instance M_ret {S} : MRet (M S) := λ A a w, (Ok a, w).
#[export] Instance M_bind {S} : MBind (M S) := λ A B f c w,
  match c w with
  | (Ok a, w') => f a w'
  | (Throw e, w') => (Throw e, w')
  end.

Section effects.
Context {S : Type} `{!StoreOps S}.
Local Abbreviation World := (World S).
Local Abbreviation M := (M S).

Definition throw {A} (e : Exn) : M A := λ w, (Throw e, w).

(** [try { c } catch (e) { h(e) }]. *)
Definition try_catch {A} (c : M A) (h : Exn → M A) : M A := λ w,
  match c w with
  | (Throw e, w') => h e w'
  | r => r
  end.

Fixpoint for_each {A} (f : A → M unit) (l : list A) : M unit :=
  match l with
  | [] => mret ()
  | x :: r => f x;; for_each f r
  end.

Definition set_out (o : list Styled) (w : World) : World :=
  mkWorld (w_store w) (w_disk_ok w) (w_now w) (w_input w) (w_editor w) o.
Definition set_store (st : S) (w : World) : World :=
  mkWorld st (w_disk_ok w) (w_now w) (w_input w) (w_editor w) (w_out w).
Definition set_input (i : list string) (w : World) : World :=
  mkWorld (w_store w) (w_disk_ok w) (w_now w) i (w_editor w) (w_out w).
Definition set_editor (e : list (string → string)) (w : World) : World :=
  mkWorld (w_store w) (w_disk_ok w) (w_now w) (w_input w) e (w_out w).

Definition console_log (args : list Styled) : M unit := λ w,
  (Ok (), set_out (w_out w ++ [log_line args]) w).

Definition clock : M DateTime := λ w, (Ok (w_now w), w).

(** ** The store handle *)

Definition store_find (q : Query) : M (list TodoItem) := λ w,
  if w_disk_ok w then (Ok (st_find q (w_store w)), w) else (Throw PersistenceError, w).

Definition store_findOne (q : Query) : M (option TodoItem) := λ w,
  if w_disk_ok w then (Ok (st_findOne q (w_store w)), w) else (Throw PersistenceError, w).

Definition store_update (q : Query) (repl : TodoItem) : M unit := λ w,
  if w_disk_ok w then
    match st_update q repl (w_store w) with
    | inr st' => (Ok (), set_store st' w)
    | inl e => (Throw (StoreFailure e), w)
    end
  else (Throw PersistenceError, w).

(** ** [inquirer.prompt] *)

(** The two kinds of question [todo-show.ts] asks. *)
Inductive Question :=
  | QInput (name message dflt suffix : string) (validate : string → bool)
  | QEditor (name message dflt : string).

Definition Answers := list (string * string).

(** An input prompt: an empty line takes the default; a value that fails
    [validate] is asked for again.  [None] when the user's input ends
    first (the prompt is closed). *)
Fixpoint ask_input (dflt : string) (validate : string → bool) (inputs : list string)
    : option (string * list string) :=
  match inputs with
  | [] => None
  | i :: rest =>
      let v := if truthy_str i then i else dflt in
      if validate v then Some (v, rest) else ask_input dflt validate rest
  end.

Definition ask (q : Question) : M (string * string) := λ w,
  match q with
  | QInput name _ dflt _ validate =>
      match ask_input dflt validate (w_input w) with
      | Some (v, rest) => (Ok (name, v), set_input rest w)
      | None => (Throw PromptClosed, set_input [] w)
      end
  | QEditor name _ dflt =>
      match w_editor w with
      | f :: rest => (Ok (name, f dflt), set_editor rest w)
      | [] => (Throw PromptClosed, w)
      end
  end.

(** The questions in order; the answers keyed by the questions' names. *)
Fixpoint prompt (qs : list Question) : M Answers :=
  match qs with
  | [] => mret []
  | q :: r => a ← ask q; rest ← prompt r; mret (a :: rest)
  end.

(** [answer.<name>]: the first answer of that name ([undefined] if none). *)
Definition answer_get (ans : Answers) (name : string) : option string :=
  snd <$> List.find (λ kv, bool_decide (kv.1 = name)) ans.

(** [answer.<name> = v]. *)
Definition answer_set (ans : Answers) (name v : string) : Answers :=
  (λ kv, if bool_decide (kv.1 = name) then (kv.1, v) else kv) <$> ans.

Definition read_only {A} (c : M A) : Prop := ∀ w, w_store (snd (c w)) = w_store w.

End effects.

(** ** Running computations *)

Section running.
Context {S : Type} `{!StoreOps S}.
Local Abbreviation World := (World S).
Local Abbreviation M := (M S).

Lemma run_bind {A B} (c : M A) (f : A → M B) (w : World) :
  (c ≫= f) w = match c w with (Ok a, w') => f a w' | (Throw e, w') => (Throw e, w') end.
Proof. reflexivity. Qed.

Lemma run_bind_ok {A B} (c : M A) (f : A → M B) (w w' : World) (a : A) :
  c w = (Ok a, w') → (c ≫= f) w = f a w'.
Proof. intros H. by rewrite run_bind, H. Qed.

Lemma run_bind_throw {A B} (c : M A) (f : A → M B) (w w' : World) (e : Exn) :
  c w = (Throw e, w') → (c ≫= f) w = (Throw e, w').
Proof. intros H. by rewrite run_bind, H. Qed.

Lemma run_console_log (args : list Styled) (w : World) :
  console_log args w = (Ok (), set_out (w_out w ++ [log_line args]) w).
Proof. reflexivity. Qed.

(** ** Computations that leave the store alone *)


Section read_only.
Context {A B : Type}.

Lemma ro_ret (a : A) : read_only (mret a : M A).
Proof. done. Qed.

Lemma ro_throw (e : Exn) : read_only (throw e : M A).
Proof. done. Qed.

Lemma ro_bind (c : M A) (f : A → M B) :
  read_only c → (∀ a, read_only (f a)) → read_only (c ≫= f).
Proof.
  intros Hc Hf w. rewrite run_bind. specialize (Hc w).
  destruct (c w) as [[a|e] w'] eqn:E; simpl in *; [by rewrite (Hf a w') | done].
Qed.

Lemma ro_try_catch (c : M A) (h : Exn → M A) :
  read_only c → (∀ e, read_only (h e)) → read_only (try_catch c h).
Proof.
  intros Hc Hh w. unfold try_catch. specialize (Hc w).
  destruct (c w) as [[a|e] w'] eqn:E; simpl in *; [done | by rewrite (Hh e w')].
Qed.

End read_only.

Lemma ro_for_each {A} (f : A → M unit) (l : list A) :
  (∀ a, read_only (f a)) → read_only (for_each f l).
Proof. intros Hf. induction l; simpl; [apply ro_ret | by apply ro_bind]. Qed.

Lemma ro_console_log (args : list Styled) : read_only (console_log args : M unit).
Proof. done. Qed.

Lemma ro_clock : read_only (clock : M DateTime).
Proof. done. Qed.

Lemma ro_store_find (q : Query) : read_only (store_find q : M (list TodoItem)).
Proof. intros w. unfold store_find. by destruct (w_disk_ok w). Qed.

Lemma ro_store_findOne (q : Query) : read_only (store_findOne q : M (option TodoItem)).
Proof. intros w. unfold store_findOne. by destruct (w_disk_ok w). Qed.

Lemma ro_ask (q : Question) : read_only (ask q : M (string * string)).
Proof.
  intros w. unfold ask. destruct q as [? ? dflt ? v|? ? dflt].
  - by destruct (ask_input dflt v (w_input w)) as [[??]|].
  - by destruct (w_editor w).
Qed.

Lemma ro_prompt (qs : list Question) : read_only (prompt qs : M Answers).
Proof.
  induction qs as [|q qs IH]; simpl; [apply ro_ret|].
  apply ro_bind; [apply ro_ask | intros a; apply ro_bind; [done | intros; apply ro_ret]].
Qed.

End running.

Create HintDb read_only discriminated.
#[export] Hint Resolve ro_ret ro_throw ro_console_log ro_clock ro_store_find
  ro_store_findOne ro_ask ro_prompt : read_only.

(** Decomposes a computation built from read-only pieces. *)
Ltac solve_read_only :=
  repeat first
    [ progress intros
    | apply ro_bind
    | apply ro_try_catch
    | apply ro_for_each
    | progress (auto with read_only)
    | case_match ].

(** ** Output and exceptions *)

Section output.
Context {S : Type} `{!StoreOps S}.
Local Abbreviation World := (World S).
Local Abbreviation M := (M S).

Lemma run_for_each_log {A} (g : A → Styled) (l : list A) (w : World) :
  for_each (λ x, console_log [g x]) l w =
  (Ok (), set_out (w_out w ++ ((λ x, log_line [g x]) <$> l)) w).
Proof.
  revert w. induction l as [|x l IH]; intros w; simpl.
  - by rewrite app_nil_r; destruct w.
  - rewrite run_bind, run_console_log, IH. simpl. by rewrite <-(assoc_L (++)).
Qed.

(** A [try]/[catch] whose handler always returns normally never throws. *)
Lemma try_catch_total (c : M unit) (h : Exn → M unit) :
  (∀ e w, fst (h e w) = Ok ()) → ∀ w, fst (try_catch c h w) = Ok ().
Proof.
  intros Hh w. unfold try_catch. destruct (c w) as [[[]|e] w']; simpl; [done | apply Hh].
Qed.

Lemma run_store_findOne (q : Query) (w : World) :
  w_disk_ok w = true → store_findOne q w = (Ok (st_findOne q (w_store w)), w).
Proof. intros H. unfold store_findOne. by rewrite H. Qed.

Lemma run_store_find (q : Query) (w : World) :
  w_disk_ok w = true → store_find q w = (Ok (st_find q (w_store w)), w).
Proof. intros H. unfold store_find. by rewrite H. Qed.

(** ** Accessors of updated worlds *)

Lemma set_out_out (o : list Styled) (w : World) : w_out (set_out o w) = o.
Proof. done. Qed.
Lemma set_out_now (o : list Styled) (w : World) : w_now (set_out o w) = w_now w.
Proof. done. Qed.
Lemma set_out_store (o : list Styled) (w : World) : w_store (set_out o w) = w_store w.
Proof. done. Qed.
Lemma set_out_disk (o : list Styled) (w : World) : w_disk_ok (set_out o w) = w_disk_ok w.
Proof. done. Qed.
Lemma set_out_input (o : list Styled) (w : World) : w_input (set_out o w) = w_input w.
Proof. done. Qed.
Lemma set_out_editor (o : list Styled) (w : World) : w_editor (set_out o w) = w_editor w.
Proof. done. Qed.
Lemma set_out_twice (o o' : list Styled) (w : World) : set_out o (set_out o' w) = set_out o w.
Proof. done. Qed.
Lemma set_out_id (w : World) : set_out (w_out w) w = w.
Proof. by destruct w. Qed.

Lemma log_line_single (a : Styled) : log_line [a] = a.
Proof. done. Qed.

End output.

#[export] Hint Rewrite log_line_single @set_out_out @set_out_now @set_out_store @set_out_disk @set_out_input
  @set_out_editor @set_out_twice @set_out_id : todo_rw.

(** Runs the leading [console_log]s and binds of a computation. *)
Ltac run_steps :=
  repeat (rewrite run_bind; rewrite ?run_console_log; cbv beta iota);
  autorewrite with todo_rw.

Section prompts.
Context {S : Type} `{!StoreOps S}.
Local Abbreviation World := (World S).
Local Abbreviation M := (M S).

Lemma run_ask_input (name msg dflt suffix : string) (validate : string → bool)
    (w : World) (v : string) (rest : list string) :
  ask_input dflt validate (w_input w) = Some (v, rest) →
  ask (QInput name msg dflt suffix validate) w = (Ok (name, v), set_input rest w).
Proof. intros H. simpl. by rewrite H. Qed.

Lemma run_ask_editor (name msg dflt : string) (w : World)
    (f : string → string) (fs : list (string → string)) :
  w_editor w = f :: fs → ask (QEditor name msg dflt) w = (Ok (name, f dflt), set_editor fs w).
Proof. intros H. simpl. by rewrite H. Qed.

(** Iterating a computation that only appends output. *)
(** A loop whose body only prints, at the clock reading [now] of the run. *)
Lemma run_for_each_out {A} (f : A → M unit) (g : A → list Styled) (l : list A) (w : World) :
  (∀ x w', w_now w' = w_now w → f x w' = (Ok (), set_out (w_out w' ++ g x) w')) →
  for_each f l w = (Ok (), set_out (w_out w ++ mjoin (g <$> l)) w).
Proof.
  intros Hf. assert (Hnow : w_now w = w_now w) by done. revert Hnow.
  generalize w at 1 3 4 5 as w0. induction l as [|x l IH]; intros w0 Hw0; simpl.
  - by rewrite app_nil_r, set_out_id.
  - rewrite run_bind, Hf by done. cbv beta iota. rewrite IH by (by rewrite set_out_now).
    autorewrite with todo_rw. by rewrite <-(assoc_L (++)).
Qed.

(** ** The input prompt's loop *)

(** an input prompt returns only a value that passes its [validate],
    and consumes a non-empty prefix of the user's lines. *)
Lemma ask_input_valid (dflt : string) (validate : string → bool) (l : list string)
    (v : string) (rest : list string) :
  ask_input dflt validate l = Some (v, rest) →
  validate v = true ∧ ∃ pre, pre ≠ [] ∧ l = pre ++ rest.
Proof.
  revert v rest. induction l as [|i l IH]; intros v rest; simpl; [done|].
  destruct (validate (if truthy_str i then i else dflt)) eqn:Hv.
  - intros [= <- <-]. split; [done|]. by exists [i].
  - intros H. destruct (IH v rest H) as [Hval (pre & Hpre & ->)].
    split; [done|]. exists (i :: pre). split; [done | done].
Qed.

(** the prompt loop ends with an answer as soon as one of the user's
    lines (or the default, for an empty line) passes [validate]. *)
Lemma ask_input_answers (dflt : string) (validate : string → bool) (l : list string) :
  (∃ i, i ∈ l ∧ validate (if truthy_str i then i else dflt) = true) →
  ∃ v rest, ask_input dflt validate l = Some (v, rest).
Proof.
  induction l as [|j l IH]; intros (i & Hi & Hv); [by apply elem_of_nil in Hi|]. simpl.
  destruct (validate (if truthy_str j then j else dflt)) eqn:Hj; [by eauto|].
  apply IH. apply elem_of_cons in Hi as [->|Hi]; [congruence | by eauto].
Qed.

(** ** The characters of styled output *)

Lemma text_of_app (a b : Styled) : text_of (a ++ b) = text_of a +:+ text_of b.
Proof.
  induction a as [|sg a IH]; [done|]. unfold text_of in *. cbn [app foldr].
  by rewrite IH, str_app_assoc.
Qed.

Lemma text_of_plain (s : string) : text_of (plain s) = s.
Proof. apply str_app_nil_r. Qed.

Lemma text_of_paint (hex : string) (st : Styled) : text_of (paint hex st) = text_of st.
Proof.
  induction st as [|[[c|] t] st IH]; [done | |]; unfold text_of in *; simpl; by rewrite IH.
Qed.

End prompts.

#[export] Hint Rewrite text_of_app text_of_plain text_of_paint : todo_rw.
