(* ===== verification/TodoShow.v ===== *)
(** * TodoShow: [src/bin/todo-show.ts], the [todo show] command

    [main] is the async entry point (lines 72-93): it loads the whole
    collection, prints the "nothing to do" message when it is empty, and
    otherwise dispatches on the [--edit] flag and the first positional
    argument to the editor screen ([showEditor], lines 34-46), the detail
    screen ([showTask], lines 48-70) or the list (lines 83-92).
    The theorems here are about one screen or one call of [main]; the
    whole script ([Runs.todo_show], commander's parse fed to [main]) and
    several runs are in [Runs]. *)

From stdpp Require Import base list strings.
From Stdlib Require Import ZArith.
From S2P Require Import Prelude Js Todo Query Store StoreSpec Filter Effects.

(** ** Command line (lines 15-16) *)

(** [commander.edit || false]: [commander.edit] is [true] or [undefined]. *)
Definition edit_flag (edit_opt : option bool) : bool :=
  match edit_opt with Some true => true | _ => false end.

(** [commander.args && commander.args.length && commander.args[0]]: the
    number [0] when there is no positional argument, else the first one. *)
Inductive IndexArg := IZero | IStr (s : string).

Definition index_arg (args : list string) : IndexArg :=
  match args with [] => IZero | a :: _ => IStr a end.

(** [if (index)] *)
Definition index_truthy (i : IndexArg) : bool :=
  match i with IZero => false | IStr s => truthy_str s end.

(** [+index] *)
Definition index_number (i : IndexArg) : jsnum :=
  match i with IZero => JInt 0 | IStr s => to_number s end.

(** ** Constants (line 9) *)

(** [Chalk.hex('#E79627')] *)
Definition yellow (st : Styled) : Styled := paint "#E79627" st.

Definition nl : string := String newline EmptyString.

(** ** [makeTaskQuestions] (lines 18-30) *)

Definition makeTaskQuestions (task : TodoItem) : list Question :=
  [QInput "title" "title of the task: " (title task) "(press enter to skip)" truthy_str;
   QEditor "description" "description of the task: " (description task)].

(** The command runs against any store with the operations of
    [StoreSpec.StoreOps]. *)
Section command.
Context {S : Type} `{!StoreOps S}.
Local Abbreviation World := (World S).
Local Abbreviation M := (M S).

(** ** [showError] (line 32) *)

Definition showError : M unit := console_log [plain ("Nothing needs to do." +:+ nl)].

(** ** [Object.assign({}, task, answer)] (line 43) *)

Definition assign_answer (t : TodoItem) (kv : string * string) : TodoItem :=
  if bool_decide (kv.1 = "title") then
    mkTodo (_id t) (index t) kv.2 (description t) (status t) (cronTime t) (notes t)
  else if bool_decide (kv.1 = "description") then
    mkTodo (_id t) (index t) (title t) kv.2 (status t) (cronTime t) (notes t)
  else t.

Definition assign (t : TodoItem) (ans : Answers) : TodoItem := foldl assign_answer t ans.

(** ** [showEditor] (lines 34-46) *)

(** Lines 39-42: echo a non-empty description and flatten its newlines. *)
Definition flatten_description (answer : Answers) : M Answers :=
  match answer_get answer "description" with
  | Some d =>
      if truthy_str d then
        console_log [plain d];; mret (answer_set answer "description" (replace_newlines d))
      else mret answer
  | None => mret answer
  end.

(** [findOne] gives [null] for an unknown index; [makeTaskQuestions(null)]
    then reads [task.title] and throws. *)
Definition showEditor (idx : jsnum) : M unit :=
  console_log [plain " "];;
  found ← store_findOne (q_index idx);
  match found with
  | None => throw (TypeError "Cannot read properties of null (reading 'title')")
  | Some task =>
      answer ← prompt (makeTaskQuestions task);
      answer ← flatten_description answer;
      let nextTask := assign task answer in
      store_update (q_id (_id task)) nextTask;;
      console_log [plain ("task updated." +:+ nl)]
  end.

(** [showEditor] cut at the [await] of line 44: lines 35-43 return the
    task read and the record to write ... *)
Definition editor_read (idx : jsnum) : M (TodoItem * TodoItem) :=
  console_log [plain " "];;
  found ← store_findOne (q_index idx);
  match found with
  | None => throw (TypeError "Cannot read properties of null (reading 'title')")
  | Some task =>
      answer ← prompt (makeTaskQuestions task);
      answer ← flatten_description answer;
      mret (task, assign task answer)
  end.

(** ... and lines 44-45 write it. *)
Definition editor_write (p : TodoItem * TodoItem) : M unit :=
  store_update (q_id (_id p.1)) p.2;;
  console_log [plain ("task updated." +:+ nl)].

(** ** [showTask] (lines 48-70) *)

(** Lines 52-53. *)
Definition timeStatus (cron : option string) : string :=
  let time := date cron in
  if truthy_str time then "(limit: " +:+ time +:+ ")" else EmptyString.

(** Lines 54-55 and 88-89: [Filter.findScripts(d) && Filter.isTimeout(t)]. *)
Definition showScriptResolved (now : DateTime) (t : TodoItem) : bool :=
  findScripts (description t) && isTimeout now t.

Definition scriptStatus (now : DateTime) (t : TodoItem) : Styled :=
  if showScriptResolved now t then yellow (plain "(bash resolved)") else plain EmptyString.

(** Line 56: [`TASK [${index}] ${timeStatus}${scriptStatus}: `]. *)
Definition tipsText (idx : jsnum) (now : DateTime) (t : TodoItem) : Styled :=
  plain ("TASK [" +:+ num_text idx +:+ "] " +:+ timeStatus (cronTime t))
  ++ scriptStatus now t ++ plain ": ".

(** Line 57. *)
Definition titleLine (now : DateTime) (t : TodoItem) : Styled :=
  paint (color_hex (colorOfTask now t))
    (plain (symbol_text (symbolOfTask t) +:+ " " +:+ title t)).

(** Lines 62-65. *)
Definition showNotes (t : TodoItem) : M unit :=
  if bool_decide (notes t ≠ []) then
    console_log [yellow (plain "NOTES:")];;
    for_each (λ note, console_log [plain ("  " +:+ note)]) (notes t)
  else mret ().

(** Lines 52-66, once the task is found. *)
Definition printTask (idx : jsnum) (t : TodoItem) : M unit :=
  now ← clock;
  console_log [yellow (tipsText idx now t)];;
  console_log [titleLine now t];;
  console_log [plain ("  " +:+ description t)];;
  showNotes t;;
  console_log [plain " "].

(** The whole body is in [try]; any exception prints [showError]. *)
Definition showTask (idx : jsnum) : M unit :=
  try_catch
    (found ← store_findOne (q_index idx);
     match found with
     | Some t => if truthy_str (_id t) then printTask idx t else showError
     | None => showError
     end)
    (λ _, showError).

(** ** The list (lines 83-92) *)

(** Line 85: the list's own status glyph. *)
Definition statusGlyph (t : TodoItem) : string :=
  if bool_decide (status t = unsolved) then "⚬" else "●".

(** Lines 85-90 for one item: [Filter.colorOfTask(item)] (line 86) and
    [Filter.isTimeout(item)] (line 88) each read the current time. *)
Definition listItem (item : TodoItem) : M unit :=
  now ← clock;
  let text := paint (color_hex (colorOfTask now item))
                (plain (statusGlyph item +:+ " " +:+ z_text (index item) +:+ " " +:+
                        strEllipsis (title item) 50)) in
  now' ← clock;
  console_log [text; if showScriptResolved now' item then yellow (plain "(bash resolved)")
                     else plain EmptyString];;
  if truthy_str (description item) then
    console_log [plain ("    - " +:+ strEllipsis (description item) 80)]
  else mret ().

Definition showList (list : list TodoItem) : M unit :=
  console_log [plain "↓"];;
  for_each listItem list;;
  console_log [plain " "].

(** ** [main] (lines 72-93) *)

Definition main (edit_opt : option bool) (args : list string) : M unit :=
  let edit := edit_flag edit_opt in
  let idx := index_arg args in
  list ← store_find q_all;
  if bool_decide (list = []) then showError
  else if edit && index_truthy idx then showEditor (index_number idx)
  else if index_truthy idx then showTask (index_number idx)
  else showList list.

(** The one change the editor screen may make to the records of a store
    [s]: the task that [q_index idx] selects, at its position [i], gets a
    new non-empty title [v] and a new description [d], everything else of
    it and of the other records kept. *)
Definition edits_task (idx : jsnum) (s : S) (docs' : list TodoItem) : Prop :=
  ∃ i t v d, st_findOne (q_index idx) s = Some t ∧ st_docs s !! i = Some t ∧
    truthy_str v = true ∧
    docs' = <[i := mkTodo (_id t) (index t) v d (status t) (cronTime t) (notes t)]> (st_docs s).

End command.

(** The lines of [showTask] for a found task (lines 59-66). *)
Definition notesLines (t : TodoItem) : list Styled :=
  if bool_decide (notes t ≠ []) then
    yellow (plain "NOTES:") :: ((λ note, plain ("  " +:+ note)) <$> notes t)
  else [].

Definition taskScreen (now : DateTime) (t : TodoItem) : list Styled :=
  [yellow (tipsText (JInt (index t)) now t); titleLine now t; plain ("  " +:+ description t)]
  ++ notesLines t ++ [plain " "].

(** Lines 39-42 on a non-empty or an empty description. *)
Definition flatten (d : string) : string := if truthy_str d then replace_newlines d else d.

(** The lines of one item (lines 85-90). *)
Definition itemLines (now : DateTime) (item : TodoItem) : list Styled :=
  log_line [paint (color_hex (colorOfTask now item))
              (plain (statusGlyph item +:+ " " +:+ z_text (index item) +:+ " " +:+
                      strEllipsis (title item) 50));
            if showScriptResolved now item then yellow (plain "(bash resolved)")
            else plain EmptyString]
  :: (if truthy_str (description item)
      then [plain ("    - " +:+ strEllipsis (description item) 80)] else []).

(** ** A sample world: the spec's two tasks, a clock after the deploy
    deadline, one typed title and one editor session that appends a line. *)

Definition demo_now : DateTime := mkDateTime 2024 5 1 12 0.

Definition demo_edit (s : string) : string := s +:+ nl +:+ "then restart".

Definition demo_world : World Store :=
  mkWorld demo_store true demo_now ["Deploy v2"] [demo_edit] [].

(** * Theorems

    Proved for every store that meets [StoreSpec.StoreContract]. *)

Section proofs.
Context {S : Type} `{StoreContract S}.
Local Abbreviation World := (World S).
Local Abbreviation M := (M S).

(** ** Which paths touch the store *)

Lemma ro_showError : read_only (showError : M unit).
Proof. apply ro_console_log. Qed.

Lemma ro_showNotes (t : TodoItem) : read_only (showNotes t : M unit).
Proof. unfold showNotes. solve_read_only. Qed.

Lemma ro_showTask (idx : jsnum) : read_only (showTask idx : M unit).
Proof. unfold showTask, printTask, showError. solve_read_only; apply ro_showNotes. Qed.

Lemma ro_showList (l : list TodoItem) : read_only (showList l : M unit).
Proof. unfold showList, listItem. solve_read_only. Qed.

Hint Resolve ro_showError ro_showNotes ro_showTask ro_showList : read_only.

(** C2: without [--edit], [todo show] never changes the store, whatever its
    arguments and whatever the store holds. *)
Theorem main_read_only (edit_opt : option bool) (args : list string) (w : World) :
  edit_flag edit_opt = false → w_store (snd (main edit_opt args w)) = w_store w.
Proof.
  intros Hedit. revert w. unfold main. rewrite Hedit. simpl.
  apply ro_bind; [apply ro_store_find|]. intros l. solve_read_only.
Qed.

(** ** The detail screen *)



Lemma run_showError (w : World) :
  showError w = (Ok (), set_out (w_out w ++ [plain ("Nothing needs to do." +:+ nl)]) w).
Proof. reflexivity. Qed.

Lemma run_showNotes (t : TodoItem) (w : World) :
  showNotes t w = (Ok (), set_out (w_out w ++ notesLines t) w).
Proof.
  unfold showNotes, notesLines. case_bool_decide.
  - rewrite run_bind, run_console_log. simpl. rewrite run_for_each_log. simpl.
    by rewrite <-(assoc_L (++)).
  - simpl. rewrite app_nil_r. by destruct w.
Qed.

Lemma run_printTask (idx : jsnum) (t : TodoItem) (w : World) :
  printTask idx t w =
  (Ok (), set_out (w_out w ++ [yellow (tipsText idx (w_now w) t); titleLine (w_now w) t;
                               plain ("  " +:+ description t)] ++ notesLines t ++ [plain " "]) w).
Proof.
  unfold printTask, clock. run_steps. rewrite run_showNotes. cbv beta iota.
  rewrite run_console_log. autorewrite with todo_rw. by rewrite <-!(assoc_L (++)).
Qed.

(** C12: the detail screen never throws: everything in its body is inside
    [try], and the handler only prints. *)
Theorem showTask_never_throws (idx : jsnum) (w : World) : fst (showTask idx w) = Ok ().
Proof. apply try_catch_total. intros e w'. done. Qed.

(** C18: when the collection file cannot be read, the detail screen reports
    "Nothing needs to do." and returns normally: the persistence error is
    swallowed by the [catch] of line 67. *)
Theorem showTask_disk_failure (idx : jsnum) (w : World) :
  w_disk_ok w = false →
  showTask idx w = (Ok (), set_out (w_out w ++ [plain ("Nothing needs to do." +:+ nl)]) w).
Proof. intros Hdisk. unfold showTask, try_catch, store_findOne. by rewrite run_bind, Hdisk. Qed.

(** The detail screen on an index that selects no task. *)
Lemma run_showTask_not_found (idx : jsnum) (w : World) :
  w_disk_ok w = true → st_findOne (q_index idx) (w_store w) = None →
  showTask idx w = (Ok (), set_out (w_out w ++ [plain ("Nothing needs to do." +:+ nl)]) w).
Proof.
  intros Hdisk Hnone. unfold showTask, try_catch.
  by rewrite run_bind, run_store_findOne, Hnone.
Qed.

(** C19: for an index that selects no task, or a task without an [_id]
    (the [!task || !task._id] of line 51), the detail screen prints the
    "Nothing needs to do." message and nothing else. *)
Theorem showTask_not_found (idx : jsnum) (w : World) :
  w_disk_ok w = true →
  (st_findOne (q_index idx) (w_store w) = None ∨
   ∃ t, st_findOne (q_index idx) (w_store w) = Some t ∧ truthy_str (_id t) = false) →
  showTask idx w = (Ok (), set_out (w_out w ++ [plain ("Nothing needs to do." +:+ nl)]) w).
Proof.
  intros Hdisk [Hnone | (t & Hf & Hid)]; [by apply run_showTask_not_found|].
  unfold showTask, try_catch. by rewrite run_bind, run_store_findOne, Hf, Hid by done.
Qed.

(** The detail screen on a task found by its index. *)
Lemma run_showTask_found (idx : jsnum) (w : World) (t : TodoItem) :
  w_disk_ok w = true → st_findOne (q_index idx) (w_store w) = Some t → truthy_str (_id t) = true →
  showTask idx w = (Ok (), set_out (w_out w ++ taskScreen (w_now w) t) w).
Proof.
  intros Hdisk Hfound Hid. destruct (contract_findOne_index _ _ _ Hfound) as [-> _].
  unfold showTask, try_catch. rewrite run_bind, run_store_findOne, Hfound by done.
  cbv beta iota. rewrite Hid, run_printTask. done.
Qed.

(** C7: for an index that selects a task, the detail screen prints its
    header, title line, description, notes and a blank line; the header
    shows the task's own stored index ([${index}] is that integer). *)
Theorem showTask_found (idx : jsnum) (w : World) (t : TodoItem) :
  w_disk_ok w = true → st_findOne (q_index idx) (w_store w) = Some t → truthy_str (_id t) = true →
  showTask idx w = (Ok (), set_out (w_out w ++ taskScreen (w_now w) t) w).
Proof. apply run_showTask_found. Qed.

(** ** The editor screen *)

(** The two questions of [makeTaskQuestions] answered: the title typed (or
    the old one kept) and the editor's result on the old description. *)
Lemma run_prompt_task (t : TodoItem) (w : World) (v : string) (rest : list string)
    (f : string → string) (fs : list (string → string)) :
  ask_input (title t) truthy_str (w_input w) = Some (v, rest) → w_editor w = f :: fs →
  prompt (makeTaskQuestions t) w =
  (Ok [("title", v); ("description", f (description t))], set_editor fs (set_input rest w)).
Proof.
  intros Hin Hed. unfold prompt, makeTaskQuestions.
  rewrite run_bind, (run_ask_input _ _ _ _ _ _ v rest) by done. cbv beta iota.
  rewrite run_bind, run_bind, (run_ask_editor _ _ _ _ f fs) by done. done.
Qed.


(** The questions when the user's input ends at the title or before the
    editor opens: the prompt is closed. *)
Lemma run_prompt_task_closed (t : TodoItem) (w : World) :
  ask_input (title t) truthy_str (w_input w) = None ∨ w_editor w = [] →
  ∃ w', prompt (makeTaskQuestions t) w = (Throw PromptClosed, w') ∧
        w_store w' = w_store w ∧ w_out w' = w_out w.
Proof.
  intros Hab. unfold prompt, makeTaskQuestions. rewrite run_bind. cbn [ask].
  destruct (ask_input (title t) truthy_str (w_input w)) as [[v rest]|] eqn:E; [|by eexists].
  destruct Hab as [?|Hed]; [done|]. cbv beta iota.
  rewrite run_bind, run_bind. cbn [ask set_input w_editor]. rewrite Hed. by eexists.
Qed.

(** The answers the editor screen's questions can give; asking never
    touches the store. *)
Lemma prompt_task_answers (t : TodoItem) (w w' : World) (ans : Answers) :
  prompt (makeTaskQuestions t) w = (Ok ans, w') →
  (∃ v d, ans = [("title", v); ("description", d)] ∧ truthy_str v = true) ∧
  w_store w' = w_store w.
Proof.
  intros Hp. split; [|by rewrite <-(ro_prompt (makeTaskQuestions t) w), Hp]. revert Hp.
  cbv [prompt makeTaskQuestions ask mbind M_bind mret M_ret].
  destruct (ask_input (title t) truthy_str (w_input w)) as [[v rest]|] eqn:E;
    [|discriminate]. cbn. destruct (w_editor w) as [|f fs]; [discriminate|].
  intros [= <- _]. exists v, (f (description t)). split; [done|].
  by apply (ask_input_valid _ _ _ _ _ E).
Qed.

Lemma run_flatten_description (v d : string) (w : World) :
  flatten_description [("title", v); ("description", d)] w =
  (Ok [("title", v); ("description", flatten d)],
   set_out (w_out w ++ (if truthy_str d then [plain d] else [])) w).
Proof.
  unfold flatten_description, answer_get, flatten. simpl.
  destruct (truthy_str d); simpl; [done|]. by rewrite app_nil_r, set_out_id.
Qed.

(** The record [showEditor] writes back (line 43). *)
Lemma assign_title_description (t : TodoItem) (v d : string) :
  assign t [("title", v); ("description", d)] =
  mkTodo (_id t) (index t) v d (status t) (cronTime t) (notes t).
Proof. done. Qed.

(** C5: editing an index that selects no task crashes: [findOne] gives
    [null] and [makeTaskQuestions(null)] reads [task.title].  Only the
    leading blank line is printed, the store is untouched, and the
    exception escapes [main] ([showTask] checks [!task]; [showEditor] does
    not). *)
Theorem showEditor_not_found (idx : jsnum) (w : World) :
  w_disk_ok w = true → st_findOne (q_index idx) (w_store w) = None →
  showEditor idx w =
  (Throw (TypeError "Cannot read properties of null (reading 'title')"),
   set_out (w_out w ++ [plain " "]) w).
Proof.
  intros Hdisk Hnone. unfold showEditor. rewrite run_bind, run_console_log. cbv beta iota.
  rewrite run_bind, run_store_findOne by done. by rewrite set_out_store, Hnone.
Qed.

(** [showEditor] is its read part followed by its write part. *)
Lemma showEditor_split (idx : jsnum) (w : World) :
  showEditor idx w = (editor_read idx ≫= editor_write) w.
Proof.
  unfold showEditor, editor_read, editor_write. rewrite !run_bind.
  destruct (console_log _ w) as [[[]|e] w1]; [|done]. rewrite !run_bind.
  destruct (store_findOne _ w1) as [[[t|]|e] w2]; [|done | done].
  rewrite !run_bind. destruct (prompt _ w2) as [[ans|e] w3]; [|done].
  rewrite !run_bind. by destruct (flatten_description ans w3) as [[ans'|e] w4].
Qed.

(** The read part on a found task, both questions answered. *)
Lemma run_editor_read_found (idx : jsnum) (w : World) (t : TodoItem) (v : string)
    (rest : list string) (f : string → string) (fs : list (string → string)) :
  w_disk_ok w = true → st_findOne (q_index idx) (w_store w) = Some t →
  ask_input (title t) truthy_str (w_input w) = Some (v, rest) → w_editor w = f :: fs →
  let d := f (description t) in
  editor_read idx w =
  (Ok (t, mkTodo (_id t) (index t) v (flatten d) (status t) (cronTime t) (notes t)),
   mkWorld (w_store w) true (w_now w) rest fs
           (w_out w ++ [plain " "] ++ (if truthy_str d then [plain d] else []))).
Proof.
  intros Hdisk Hfound Hin Hed d. unfold editor_read. rewrite run_bind, run_console_log. cbv beta iota.
  rewrite run_bind, run_store_findOne by done. rewrite set_out_store, Hfound. cbv beta iota.
  rewrite run_bind, (run_prompt_task _ _ v rest f fs) by (by autorewrite with todo_rw).
  cbv beta iota. rewrite run_bind, run_flatten_description. cbv beta iota.
  rewrite assign_title_description. fold d.
  destruct w as [st dk nw inp ed out]; simpl in *. subst dk. unfold set_out; simpl.
  by rewrite <-!(assoc_L (++)).
Qed.

(** The write part when the store's update succeeds. *)
Lemma run_editor_write (p : TodoItem * TodoItem) (w : World) (s' : S) :
  w_disk_ok w = true → st_update (q_id (_id p.1)) p.2 (w_store w) = inr s' →
  editor_write p w =
  (Ok (), set_out (w_out w ++ [plain ("task updated." +:+ nl)]) (set_store s' w)).
Proof.
  intros Hdisk Hup. unfold editor_write, store_update. rewrite run_bind, Hdisk, Hup. done.
Qed.

(** The editor screen on a found task: the update by its [_id] succeeds
    and the world after it holds the store that update returns. *)
Lemma run_showEditor_found (idx : jsnum) (w : World) (t : TodoItem) (v : string)
    (rest : list string) (f : string → string) (fs : list (string → string)) :
  st_wf (w_store w) → w_disk_ok w = true → st_findOne (q_index idx) (w_store w) = Some t →
  ask_input (title t) truthy_str (w_input w) = Some (v, rest) → w_editor w = f :: fs →
  let d := f (description t) in
  let next := mkTodo (_id t) (index t) v (flatten d) (status t) (cronTime t) (notes t) in
  ∃ i s', st_docs (w_store w) !! i = Some t ∧ st_update (q_id (_id t)) next (w_store w) = inr s' ∧
  st_docs s' = <[i := next]> (st_docs (w_store w)) ∧ st_wf s' ∧
  showEditor idx w =
  (Ok (), mkWorld s' true (w_now w) rest fs
            (w_out w ++ [plain " "] ++ (if truthy_str d then [plain d] else []) ++
             [plain ("task updated." +:+ nl)])).
Proof.
  intros Hwf Hdisk Hfound Hin Hed d next.
  destruct (contract_findOne_index _ _ _ Hfound) as [_ Hmem].
  destruct (contract_update_wf (q_id (_id t)) next _ t Hwf (contract_findOne_id_self _ _ Hwf Hmem))
    as (i & s' & Hup & Hi & Hdocs & Hwf').
  exists i, s'. split_and!; [done | done | exact Hdocs | done |].
  rewrite showEditor_split, run_bind, (run_editor_read_found idx w t v rest f fs) by done.
  cbv beta iota. rewrite (run_editor_write _ _ s') by done.
  unfold set_out; simpl. by rewrite <-!(assoc_L (++)).
Qed.

(** C1: editing a task writes back exactly that task, with the title typed
    (or kept) and the edited description, its newlines flattened to
    [". "]; [_id], [index], [status], [cronTime] and [notes] are kept: the
    store's update by the task's [_id] puts the new record at the task's
    position, every other record is untouched, the world after the run
    holds the store that update returns, and the screen echoes the new
    description and confirms. *)
Theorem showEditor_edits (idx : jsnum) (w : World) (t : TodoItem) (v : string)
    (rest : list string) (f : string → string) (fs : list (string → string)) :
  st_wf (w_store w) → w_disk_ok w = true → st_findOne (q_index idx) (w_store w) = Some t →
  ask_input (title t) truthy_str (w_input w) = Some (v, rest) → w_editor w = f :: fs →
  let d := f (description t) in
  let next := mkTodo (_id t) (index t) v (flatten d) (status t) (cronTime t) (notes t) in
  ∃ i s', st_docs (w_store w) !! i = Some t ∧ st_update (q_id (_id t)) next (w_store w) = inr s' ∧
  st_docs s' = <[i := next]> (st_docs (w_store w)) ∧
  showEditor idx w =
  (Ok (), mkWorld s' true (w_now w) rest fs
            (w_out w ++ [plain " "] ++ (if truthy_str d then [plain d] else []) ++
             [plain ("task updated." +:+ nl)])).
Proof.
  intros Hwf Hdisk Hfound Hin Hed d next.
  destruct (run_showEditor_found idx w t v rest f fs Hwf Hdisk Hfound Hin Hed)
    as (i & s' & Hi & Hup & Hdocs & _ & Hrun).
  by exists i, s'.
Qed.
(** C6: an edit the user abandons, because their input ends before a usable
    title is typed or the editor session does not complete, ends with the
    prompt's rejection after the blank line and writes nothing to the
    store. *)
Theorem showEditor_aborted (idx : jsnum) (w : World) (t : TodoItem) :
  w_disk_ok w = true → st_findOne (q_index idx) (w_store w) = Some t →
  ask_input (title t) truthy_str (w_input w) = None ∨ w_editor w = [] →
  ∃ w', showEditor idx w = (Throw PromptClosed, w') ∧ w_store w' = w_store w ∧
        w_out w' = w_out w ++ [plain " "].
Proof.
  intros Hdisk Hf Hab. unfold showEditor. rewrite run_bind, run_console_log. cbv beta iota.
  cbn [log_line].
  rewrite run_bind, run_store_findOne by done. rewrite set_out_store, Hf. cbv beta iota.
  destruct (run_prompt_task_closed t (set_out (w_out w ++ [plain " "]) w)) as (w' & Hp & Hs & Ho).
  { by rewrite set_out_input, set_out_editor. }
  rewrite run_bind, Hp. exists w'. by rewrite Hs, Ho, set_out_store, set_out_out.
Qed.



(** Whatever the user does at the prompts and whatever the disk does, the
    editor screen leaves a well-formed store well formed, and either leaves
    it as it was or makes the one change of [edits_task] by one update. *)
Lemma showEditor_store (idx : jsnum) (w : World) :
  st_wf (w_store w) →
  st_wf (w_store (snd (showEditor idx w))) ∧
  (w_store (snd (showEditor idx w)) = w_store w ∨
   (∃ q repl, st_update q repl (w_store w) = inr (w_store (snd (showEditor idx w)))) ∧
   edits_task idx (w_store w) (st_docs (w_store (snd (showEditor idx w))))).
Proof.
  intros Hwf. unfold showEditor. rewrite run_bind, run_console_log. cbv beta iota.
  set (w1 := set_out _ w). assert (Hs1 : w_store w1 = w_store w) by apply set_out_store.
  clearbody w1. rewrite run_bind. unfold store_findOne.
  destruct (w_disk_ok w1) eqn:Hdisk; cbn -[prompt]; [|rewrite Hs1; auto].
  destruct (st_findOne (q_index idx) (w_store w1)) as [t|] eqn:Hf; cbn -[prompt]; [|rewrite Hs1; auto].
  rewrite Hs1 in Hf. rewrite run_bind. pose proof (ro_prompt (makeTaskQuestions t) w1) as Hro.
  destruct (prompt (makeTaskQuestions t) w1) as [[ans|e] w3] eqn:Hp; cbn -[prompt] in *;
    [|rewrite Hro, Hs1; auto].
  destruct (prompt_task_answers t w1 w3 ans Hp) as ((v & d & -> & Hv) & Hs3). rewrite Hs1 in Hs3.
  rewrite run_bind, run_flatten_description. cbv beta iota. rewrite assign_title_description.
  rewrite run_bind. unfold store_update. rewrite !set_out_disk, !set_out_store, !Hs3.
  destruct (w_disk_ok w3); cbn; [|rewrite Hs3; auto].
  destruct (contract_findOne_index _ _ _ Hf) as [Hidx Hmem].
  destruct (proj1 (list_elem_of_lookup _ _) Hmem) as [i Hi].
  destruct (update_same_identity (w_store w) i t
              (mkTodo (_id t) (index t) v (flatten d) (status t) (cronTime t) (notes t)) Hwf Hi)
    as (s' & Hup & Hdocs); [done | done|].
  rewrite Hup. cbn. split; [by apply (contract_wf_update _ _ _ _ Hwf Hup)|].
  right. split; [by eexists _, _ | by exists i, t, v, (flatten d)].
Qed.

(** ** The list *)


Lemma run_listItem (item : TodoItem) (w : World) :
  listItem item w = (Ok (), set_out (w_out w ++ itemLines (w_now w) item) w).
Proof.
  unfold listItem, itemLines, clock. rewrite !run_bind. cbv beta iota. rewrite run_console_log.
  cbv beta iota. destruct (truthy_str (description item)); rewrite ?run_console_log;
    autorewrite with todo_rw; [by rewrite <-(assoc_L (++)) | done].
Qed.

(** The list prints an arrow, then for each task in persisted order its
    line and, when its description is not empty, the description line,
    then a blank line. *)
Lemma run_showList (l : list TodoItem) (w : World) :
  showList l w =
  (Ok (), set_out (w_out w ++ [plain "↓"] ++ mjoin (itemLines (w_now w) <$> l) ++ [plain " "]) w).
Proof.
  unfold showList. rewrite run_bind, run_console_log. cbv beta iota.
  rewrite run_bind, (run_for_each_out _ (itemLines (w_now w))).
  2: { intros x w' Hw'. rewrite set_out_now in Hw'. rewrite <-Hw'. apply run_listItem. }
  cbv beta iota. rewrite run_console_log. autorewrite with todo_rw.
  by rewrite <-!(assoc_L (++)).
Qed.

(** ** The command *)

(** C16: on an empty store, [todo show] only prints "Nothing needs to do.",
    whatever its flags and arguments. *)
Theorem main_empty_store (edit_opt : option bool) (args : list string) (w : World) :
  w_disk_ok w = true → st_docs (w_store w) = [] →
  main edit_opt args w = (Ok (), set_out (w_out w ++ [plain ("Nothing needs to do." +:+ nl)]) w).
Proof.
  intros Hdisk Hempty. unfold main. rewrite run_bind, run_store_find by done.
  cbv beta iota. by rewrite contract_find_all, Hempty.
Qed.

(** C17: an unreadable collection file is fatal to [todo show]: the
    [PersistenceError] of the first [store.find({})] escapes [main] before
    anything is printed or written. *)
Theorem main_disk_failure (edit_opt : option bool) (args : list string) (w : World) :
  w_disk_ok w = false → main edit_opt args w = (Throw PersistenceError, w).
Proof. intros Hdisk. unfold main, store_find. by rewrite run_bind, Hdisk. Qed.

(** C15: with tasks and no (or an empty) first argument, [todo show] lists
    the whole collection in persisted order, with or without [--edit]. *)
Theorem main_lists (edit_opt : option bool) (args : list string) (w : World) :
  w_disk_ok w = true → st_docs (w_store w) ≠ [] → index_truthy (index_arg args) = false →
  main edit_opt args w =
  (Ok (), set_out (w_out w ++ [plain "↓"] ++ mjoin (itemLines (w_now w) <$> st_docs (w_store w))
                   ++ [plain " "]) w).
Proof.
  intros Hdisk Hne Hidx. unfold main. rewrite run_bind, run_store_find by done.
  cbv beta iota. rewrite contract_find_all, Hidx, andb_false_r.
  rewrite bool_decide_eq_false_2 by done. apply run_showList.
Qed.

(** On a readable, non-empty store and a non-empty first argument [s],
    [main] opens the editor on [+s] with [--edit] and the detail screen on
    [+s] without. *)
Lemma main_arg_dispatch (e : option bool) (w : World) (s : string) (rest : list string) :
  w_disk_ok w = true → st_docs (w_store w) ≠ [] → truthy_str s = true →
  main e (s :: rest) w =
  (if edit_flag e then showEditor (to_number s) w else showTask (to_number s) w).
Proof.
  intros Hdisk Hne Hs. unfold main. rewrite run_bind, run_store_find by done. cbv beta iota.
  rewrite contract_find_all, bool_decide_eq_false_2 by done.
  cbn [index_arg index_truthy index_number]. rewrite Hs. by destruct (edit_flag e).
Qed.



(** C8: typing back the index the list prints shows that task: in a
    well-formed store, [todo show <text of t's index>] prints [t]'s detail
    screen ([+index] reads the text back as the index, and indices are
    unique). *)
Theorem main_shows_printed_index (w : World) (t : TodoItem) :
  st_wf (w_store w) → w_disk_ok w = true → t ∈ st_docs (w_store w) →
  main None [z_text (index t)] w = (Ok (), set_out (w_out w ++ taskScreen (w_now w) t) w).
Proof.
  intros Hwf Hdisk Hin. pose proof (contract_wf_bounds _ _ Hwf Hin) as Hb. unfold max_safe in Hb.
  rewrite main_arg_dispatch by eauto using z_text_truthy, elem_of_not_nil.
  cbn [edit_flag]. rewrite z_text_reads_back by lia.
  apply run_showTask_found; [done | by apply contract_findOne_index_self | by apply (contract_wf_id_truthy (w_store w))].
Qed.

(** C9: [todo show s] selects by the number [+s] reads: it prints the
    detail screen of the stored task whose index is that number, and the
    "Nothing needs to do." message when no task has it.  So any spelling
    of the number JavaScript accepts (" 2 ", "0x2", "2.0", "2e0") selects
    task 2, and a text that is not a number selects nothing. *)
Theorem main_selects_by_number (w : World) (s : string) :
  st_wf (w_store w) → w_disk_ok w = true → st_docs (w_store w) ≠ [] → truthy_str s = true →
  (∀ t, t ∈ st_docs (w_store w) → to_number s = JInt (index t) →
     main None [s] w = (Ok (), set_out (w_out w ++ taskScreen (w_now w) t) w)) ∧
  ((∀ t, t ∈ st_docs (w_store w) → to_number s ≠ JInt (index t)) →
     main None [s] w = (Ok (), set_out (w_out w ++ [plain ("Nothing needs to do." +:+ nl)]) w)).
Proof.
  intros Hwf Hdisk Hne Hs. rewrite main_arg_dispatch by done. cbn [edit_flag]. split.
  - intros t Hin Hn. rewrite Hn.
    apply run_showTask_found; [done | by apply contract_findOne_index_self | by apply (contract_wf_id_truthy _ _ Hwf)].
  - intros Hnone. by apply run_showTask_not_found, contract_findOne_index_None.
Qed.



(** ** The "(bash resolved)" marker *)

(** C14: a task is marked "(bash resolved)" exactly when its description
    holds a back-quoted command and its deadline has passed; in each of the
    three other combinations it is not. *)
Theorem showScriptResolved_spec (now : DateTime) (t : TodoItem) :
  showScriptResolved now t = true ↔
  has_fragment (String.list_ascii_of_string (description t)) ∧
  ∃ d, deadline (cronTime t) = Some d ∧ dt_before d now = true.
Proof.
  unfold showScriptResolved, findScripts, isTimeout.
  rewrite andb_true_iff, find_scripts_l_spec.
  destruct (deadline (cronTime t)) as [d|]; naive_solver.
Qed.

(** C13: the header line of the detail screen shows a task whose [cronTime]
    is a valid deadline in the store's text form as "(limit: <that text>)",
    and adds the "(bash resolved)" marker exactly when the description holds
    a back-quoted command and that deadline is before the current time. *)
Theorem tipsText_deadline (idx : jsnum) (now d : DateTime) (t : TodoItem) :
  valid_dt d = true → cronTime t = Some (format_deadline d) →
  tipsText idx now t =
    plain ("TASK [" +:+ num_text idx +:+ "] " +:+ "(limit: " +:+ format_deadline d +:+ ")")
    ++ (if findScripts (description t) && dt_before d now
        then yellow (plain "(bash resolved)") else plain EmptyString)
    ++ plain ": ".
Proof.
  intros Hv Hc. unfold tipsText, scriptStatus, showScriptResolved, timeStatus, isTimeout, date.
  rewrite Hc. unfold deadline. cbn [mbind option_bind]. by rewrite parse_format_deadline.
Qed.

(** ** The questions of the editor screen *)

(** C21: the editor screen's questions never yield an empty title: the
    answers are the title and the description, in this order, and the
    title passes [validate: v => !!v]. *)
Theorem task_questions_title_nonempty (t : TodoItem) (w w' : World) (ans : Answers) :
  prompt (makeTaskQuestions t) w = (Ok ans, w') →
  ∃ v d, ans = [("title", v); ("description", d)] ∧ truthy_str v = true.
Proof. intros Hp. apply (proj1 (prompt_task_answers t w w' ans Hp)). Qed.

(** C22: the editor screen's questions are answered as soon as one typed line
    is non-empty, or the task already has a title and the user types any
    line, provided an editor session follows. *)
Theorem task_questions_answered (t : TodoItem) (w : World) :
  (∃ i, i ∈ w_input w ∧ (truthy_str i = true ∨ truthy_str (title t) = true)) →
  w_editor w ≠ [] →
  ∃ v d w', prompt (makeTaskQuestions t) w = (Ok [("title", v); ("description", d)], w').
Proof.
  intros (i & Hi & Hv) Hed.
  destruct (ask_input_answers (title t) truthy_str (w_input w)) as (v & rest & E).
  { exists i. split; [done|]. destruct (truthy_str i) eqn:Ei; [done|]. by destruct Hv. }
  destruct (w_editor w) as [|f fs] eqn:Ef; [done|].
  exists v, (f (description t)), (set_editor fs (set_input rest w)).
  by apply run_prompt_task.
Qed.

(** ** The store invariant *)

(** A run of [main] on a well-formed store: whichever screen runs and
    however it ends. *)
Lemma main_store (edit_opt : option bool) (args : list string) (w : World) :
  st_wf (w_store w) →
  st_wf (w_store (snd (main edit_opt args w))) ∧
  (w_store (snd (main edit_opt args w)) = w_store w ∨
   edit_flag edit_opt = true ∧
   (∃ q repl, st_update q repl (w_store w) = inr (w_store (snd (main edit_opt args w)))) ∧
   edits_task (index_number (index_arg args)) (w_store w) (st_docs (w_store (snd (main edit_opt args w))))).
Proof.
  intros Hwf. unfold main. rewrite run_bind. unfold store_find.
  destruct (w_disk_ok w); cbn -[showError showEditor showTask showList]; [|auto].
  case_bool_decide; [rewrite ro_showError; auto|].
  destruct (edit_flag edit_opt), (index_truthy (index_arg args));
    cbn -[showError showEditor showTask showList];
    [destruct (showEditor_store (index_number (index_arg args)) w Hwf) as [? [?|[??]]]; auto
    | rewrite ?ro_showTask, ?ro_showList; auto..].
Qed.

(** C3: one run of [todo show] on a well-formed store keeps it well formed
    and changes it at most by the edit the command asks for: either the
    store is untouched, or [--edit] was given and one update of the store
    changed only the task that [+index] selects, at its place, and of that
    task only the title (to a non-empty one) and the description; its
    [_id], [index], [status], [cronTime] and [notes] and every other record
    are kept.  This holds whichever screen runs and whether the run ends
    normally or with an exception. *)
Theorem main_changes_only_edited (edit_opt : option bool) (args : list string) (w : World) :
  st_wf (w_store w) →
  st_wf (w_store (snd (main edit_opt args w))) ∧
  (w_store (snd (main edit_opt args w)) = w_store w ∨
   edit_flag edit_opt = true ∧
   (∃ q repl, st_update q repl (w_store w) = inr (w_store (snd (main edit_opt args w)))) ∧
   edits_task (index_number (index_arg args)) (w_store w) (st_docs (w_store (snd (main edit_opt args w))))).
Proof. apply main_store. Qed.

(** ** Width of the list *)




End proofs.

(** ** Witnesses *)

Lemma main_read_only_witness :
  w_store (snd (main None ["2"] demo_world)) = w_store demo_world.
Proof. apply main_read_only. reflexivity. Defined.

Lemma showEditor_edits_witness :
  let d := demo_edit (description demo_deploy) in
  let next := mkTodo (_id demo_deploy) (index demo_deploy) "Deploy v2" (flatten d)
                (status demo_deploy) (cronTime demo_deploy) (notes demo_deploy) in
  ∃ i s', st_docs (w_store demo_world) !! i = Some demo_deploy ∧
  st_update (q_id (_id demo_deploy)) next (w_store demo_world) = inr s' ∧
  st_docs s' = <[i := next]> (st_docs (w_store demo_world)) ∧
  showEditor (JInt 2) demo_world =
  (Ok (), mkWorld s' true (w_now demo_world) [] []
            (w_out demo_world ++ [plain " "] ++ (if truthy_str d then [plain d] else []) ++
             [plain ("task updated." +:+ nl)])).
Proof.
  apply showEditor_edits; [exact wf_demo_store | reflexivity | reflexivity | reflexivity | reflexivity].
Defined.

Lemma showEditor_not_found_witness :
  showEditor (JInt 7) demo_world =
  (Throw (TypeError "Cannot read properties of null (reading 'title')"),
   set_out (w_out demo_world ++ [plain " "]) demo_world).
Proof. apply showEditor_not_found; reflexivity. Defined.

Lemma showTask_found_witness :
  showTask (JInt 2) demo_world =
  (Ok (), set_out (w_out demo_world ++ taskScreen (w_now demo_world) demo_deploy) demo_world).
Proof. apply showTask_found; reflexivity. Defined.

Lemma showTask_disk_failure_witness :
  showTask (JInt 2) (mkWorld demo_store false demo_now [] [] []) =
  (Ok (), set_out ([] ++ [plain ("Nothing needs to do." +:+ nl)]) (mkWorld demo_store false demo_now [] [] [])).
Proof. apply showTask_disk_failure. reflexivity. Defined.

Lemma showTask_not_found_witness :
  let t := mkTodo EmptyString 3 "Call" EmptyString unsolved None [] in
  let w := mkWorld (mkStore [t] 0) true demo_now [] [] [] in
  showTask JNaN demo_world =
    (Ok (), set_out (w_out demo_world ++ [plain ("Nothing needs to do." +:+ nl)]) demo_world) ∧
  showTask (JInt 3) w = (Ok (), set_out (w_out w ++ [plain ("Nothing needs to do." +:+ nl)]) w).
Proof.
  intros t w. split.
  - apply showTask_not_found; [reflexivity | left; reflexivity].
  - apply showTask_not_found; [reflexivity | right; exists t; split; reflexivity].
Defined.

Lemma main_empty_store_witness :
  main (Some true) ["1"] (mkWorld (mkStore [] 0) true demo_now [] [] []) =
  (Ok (), set_out ([] ++ [plain ("Nothing needs to do." +:+ nl)])
                  (mkWorld (mkStore [] 0) true demo_now [] [] [])).
Proof. apply main_empty_store; reflexivity. Defined.

Lemma main_disk_failure_witness :
  main None ["2"] (mkWorld demo_store false demo_now [] [] []) =
  (Throw PersistenceError, mkWorld demo_store false demo_now [] [] []).
Proof. apply main_disk_failure. reflexivity. Defined.

Lemma main_lists_witness :
  main (Some true) [EmptyString] demo_world =
  (Ok (), set_out (w_out demo_world ++ [plain "↓"] ++
                   mjoin (itemLines (w_now demo_world) <$> st_docs (w_store demo_world)) ++
                   [plain " "]) demo_world).
Proof. apply main_lists; [reflexivity | discriminate | reflexivity]. Defined.

Lemma main_changes_only_edited_witness :
  let w' := snd (main (Some true) ["2"] demo_world) in
  st_wf (w_store w') ∧
  (w_store w' = w_store demo_world ∨
   edit_flag (Some true) = true ∧
   (∃ q repl, st_update q repl (w_store demo_world) = inr (w_store w')) ∧
   edits_task (index_number (index_arg ["2"])) (w_store demo_world) (st_docs (w_store w'))).
Proof. apply main_changes_only_edited. exact wf_demo_store. Defined.

Lemma task_questions_title_nonempty_witness :
  ∃ v d, [("title", "Deploy v2"); ("description", demo_edit (description demo_deploy))] =
         [("title", v); ("description", d)] ∧ truthy_str v = true.
Proof.
  apply (task_questions_title_nonempty demo_deploy demo_world
           (set_editor [] (set_input [] demo_world))).
  reflexivity.
Defined.

Lemma task_questions_answered_witness :
  ∃ v d w', prompt (makeTaskQuestions demo_deploy) demo_world =
            (Ok [("title", v); ("description", d)], w').
Proof.
  apply task_questions_answered; [| discriminate].
  exists "Deploy v2". split; [left | left; reflexivity].
Defined.

Lemma main_shows_printed_index_witness :
  main None [z_text (index demo_deploy)] demo_world =
  (Ok (), set_out (w_out demo_world ++ taskScreen (w_now demo_world) demo_deploy) demo_world).
Proof. apply main_shows_printed_index; [exact wf_demo_store | reflexivity | by right; left]. Defined.

Lemma tipsText_deadline_witness :
  valid_dt (mkDateTime 2020 1 1 10 0) = true ∧
  cronTime demo_deploy = Some (format_deadline (mkDateTime 2020 1 1 10 0)) ∧
  tipsText (JInt 2) demo_now demo_deploy =
    plain ("TASK [2] (limit: " +:+ format_deadline (mkDateTime 2020 1 1 10 0) +:+ ")")
    ++ yellow (plain "(bash resolved)") ++ plain ": ".
Proof.
  assert (Hv : valid_dt (mkDateTime 2020 1 1 10 0) = true) by reflexivity.
  assert (Hc : cronTime demo_deploy = Some (format_deadline (mkDateTime 2020 1 1 10 0))) by reflexivity.
  split; [exact Hv|]. split; [exact Hc|].
  rewrite (tipsText_deadline (JInt 2) demo_now _ demo_deploy Hv Hc). reflexivity.
Defined.





Lemma main_selects_by_number_witness :
  to_number " 0x2 " = JInt (index demo_deploy) ∧
  main None [" 0x2 "] demo_world =
    (Ok (), set_out (w_out demo_world ++ taskScreen (w_now demo_world) demo_deploy) demo_world) ∧
  main None ["two"] demo_world =
    (Ok (), set_out (w_out demo_world ++ [plain ("Nothing needs to do." +:+ nl)]) demo_world).
Proof.
  assert (Hn : to_number " 0x2 " = JInt (index demo_deploy)) by (vm_compute; reflexivity).
  split; [exact Hn|]. split.
  - apply (main_selects_by_number demo_world " 0x2 "); [exact wf_demo_store | done | done | done | | exact Hn].
    right; left.
  - apply (main_selects_by_number demo_world "two"); [exact wf_demo_store | done | done | done |].
    intros t Ht. assert (Hv : to_number "two" = JNaN) by (vm_compute; reflexivity). by rewrite Hv.
Defined.





Lemma showEditor_aborted_witness :
  ∃ w', showEditor (JInt 2) (mkWorld demo_store true demo_now [] [demo_edit] []) =
          (Throw PromptClosed, w') ∧ w_store w' = demo_store ∧ w_out w' = [plain " "].
Proof.
  apply (showEditor_aborted (JInt 2) (mkWorld demo_store true demo_now [] [demo_edit] []) demo_deploy);
    [reflexivity | reflexivity | left; reflexivity].
Defined.
