(* ===== verification/Runs.v ===== *)
(** * Runs: the whole script and successive invocations

    Theorems about more than one screen of [todo show]: the script from
    [process.argv] on ([todo_show], commander's result fed to [main]),
    two invocations in sequence (an edit, then the detail screen of the
    edited task), and any sequence of invocations as the step relation
    [run_step] on the store.  The step relation is stated for any store
    with [StoreSpec.StoreOps]; each step is one call of [main], whose effect
    on the store [TodoShow.main_store] gives for any store that meets
    [StoreSpec.StoreContract]; by induction on the steps, the list store
    keeps its invariant, its id counter and the fields of [frozen] of every
    task across any sequence of runs. *)

From stdpp Require Import base list strings relations.
From Stdlib Require Import ZArith Ascii.
From S2P Require Import Prelude Js Todo Query Store StoreSpec Filter Cli Effects TodoShow.

(** ** The whole script *)

Section script.
Context {S : Type} `{!StoreOps S}.
Local Abbreviation M := (M S).

(** The whole script: commander parses [process.argv] when the module
    loads (lines 11-13), and [commander.edit] and [commander.args] feed
    [main] (lines 15-16).  On [--help] or [-h] without a positional word
    commander prints its usage (not modelled) and exits with code 0; on an
    unknown option it prints the error and exits with code 1, before the
    store is read. *)
Definition todo_show (argv : list string) : M unit :=
  match commander_parse argv with
  | CliRun edit_opt args => main edit_opt args
  | CliHelp => throw (ProcessExit 0 EmptyString)
  | CliUnknown o => throw (ProcessExit 1 ("  error: unknown option `" +:+ o +:+ "'"))
  end.

End script.

(** ** Successive runs

    Each invocation of [todo show] is a fresh process: only the store
    survives it, and the next one starts with any flags and arguments, any
    typed lines and editor sessions, any clock and any disk health.  One
    step relates the store before a run to the store after it. *)
Inductive run_step {S : Type} `{!StoreOps S} : S → S → Prop :=
  | run_step_main (edit_opt : option bool) (args : list string) (w : World S) :
      run_step (w_store w) (w_store (snd (main edit_opt args w))).

(** The fields of a task no run of [todo show] may change. *)
Definition frozen (t : TodoItem) : string * Z * TodoStatus * option string * list string :=
  (_id t, index t, status t, cronTime t, notes t).

(** * Theorems *)

(** The text of a non-negative number is a positional word for commander. *)
Lemma z_text_plain (z : Z) : (0 ≤ z)%Z → plain_word (z_text z) = true.
Proof.
  intros Hz. unfold z_text. rewrite (proj2 (Z.ltb_ge z 0)) by lia. cbn [app].
  pose proof (dec_digits_range (S (Z.to_nat (Z.log2 (Z.abs z)))) (Z.abs z) ltac:(lia)) as Hr.
  destruct (dec_digits _ _) as [|d ds]; [done|]. apply Forall_cons in Hr as [Hd _].
  unfold plain_word, starts_dash. cbn. rewrite bool_decide_eq_false_2; [done|].
  intros Heq. pose proof (code_digit_char d Hd) as Hc. rewrite Heq in Hc.
  change (code dash) with 45%nat in Hc. lia.
Qed.

(** ** An edit, then the detail screen

    For every store that meets [StoreSpec.StoreContract]. *)

Section edit_then_show.
Context {S : Type} `{StoreContract S}.
Local Abbreviation World := (World S).

(** The same with the printed text of a stored task's index. *)
Lemma main_index_dispatch (e : option bool) (w : World) (t : TodoItem) :
  st_wf (w_store w) → w_disk_ok w = true → t ∈ st_docs (w_store w) →
  main e [z_text (index t)] w =
  (if edit_flag e then showEditor (JInt (index t)) w else showTask (JInt (index t)) w).
Proof.
  intros Hwf Hdisk Hin. pose proof (contract_wf_bounds _ _ Hwf Hin) as Hb. unfold max_safe in Hb.
  rewrite main_arg_dispatch by eauto using z_text_truthy, elem_of_not_nil. by rewrite z_text_reads_back by lia.
Qed.

(** C11: two runs of the whole script in sequence: after
    [todo show -e <index>] has saved the typed title and the edited
    description, [todo show <index>] prints the detail screen of the edited
    task, with its flattened description and its [_id], [index], [status],
    deadline and notes unchanged. *)
Theorem edit_then_show (w : World) (t : TodoItem) (v : string) (rest : list string)
    (f : string → string) (fs : list (string → string)) (node script : string) :
  st_wf (w_store w) → w_disk_ok w = true → t ∈ st_docs (w_store w) →
  ask_input (title t) truthy_str (w_input w) = Some (v, rest) → w_editor w = f :: fs →
  let t' := mkTodo (_id t) (index t) v (flatten (f (description t))) (status t) (cronTime t) (notes t) in
  ∃ w1 w2, todo_show [node; script; "-e"; z_text (index t)] w = (Ok (), w1) ∧
           todo_show [node; script; z_text (index t)] w1 = (Ok (), w2) ∧
           w_out w2 = w_out w1 ++ taskScreen (w_now w) t'.
Proof.
  intros Hwf Hdisk Hin Hinp Hed t'.
  assert (Hz : Forall (λ s, plain_word s = true) [z_text (index t)]).
  { apply Forall_singleton, z_text_plain. pose proof (contract_wf_bounds _ _ Hwf Hin). lia. }
  assert (He : commander_parse [node; script; "-e"; z_text (index t)] =
               CliRun (Some true) [z_text (index t)]).
  { unfold commander_parse. cbn [drop].
    change ["-e"; z_text (index t)] with ([] ++ "-e" :: [z_text (index t)]).
    by rewrite parse_edit_among. }
  unfold todo_show. rewrite He, commander_parse_plain by done.
  pose proof (contract_findOne_index_self _ _ Hwf Hin) as Hfound.
  destruct (run_showEditor_found _ w t v rest f fs Hwf Hdisk Hfound Hinp Hed)
    as (i & s' & Hi & _ & Hdocs & Hwf' & Hrun).
  rewrite main_index_dispatch by done. cbn [edit_flag]. rewrite Hrun.
  assert (Hin' : t' ∈ st_docs s').
  { rewrite Hdocs. apply list_elem_of_insert. by apply lookup_lt_Some in Hi. }
  eexists; eexists. split; [reflexivity|].
  change (index t) with (index t'). rewrite main_index_dispatch; [| exact Hwf' | done | exact Hin'].
  cbn [edit_flag]. split.
  - apply run_showTask_found; [done | by apply contract_findOne_index_self | by apply (contract_wf_id_truthy _ _ Hwf')].
  - reflexivity.
Qed.

End edit_then_show.

(** ** Any sequence of runs *)

(** One run, on the list store: the fields of [frozen] stay, the id
    counter stays, and a title that changes becomes a non-empty one. *)
Lemma run_step_store (st st1 : Store) :
  run_step st st1 → wf st →
  wf st1 ∧ next_seq st1 = next_seq st ∧ frozen <$> docs st1 = frozen <$> docs st ∧
  (∀ i t t1, docs st !! i = Some t → docs st1 !! i = Some t1 →
             title t1 = title t ∨ truthy_str (title t1) = true).
Proof.
  intros [e args w] Hwf.
  destruct (@main_store Store list_store_ops list_store_contract e args w Hwf)
    as [Hwf' [Heq | (_ & (q & repl & Hup) & (i & t & v & d & _ & Hi & Hv & Hdocs))]].
  { rewrite Heq. split_and!; [done..|]. intros; left; congruence. }
  cbn [st_wf st_docs st_update list_store_ops] in *.
  split_and!; [done | apply (update_identity _ _ _ _ Hup) | |].
  - rewrite Hdocs, list_fmap_insert. apply list_insert_id. by rewrite list_lookup_fmap, Hi.
  - intros j u u1 Hj Hj1. rewrite Hdocs in Hj1. destruct (decide (i = j)) as [<-|Hne].
    + rewrite list_lookup_insert_eq in Hj1 by (eapply lookup_lt_Some, Hi). injection Hj1 as <-. by right.
    + rewrite list_lookup_insert_ne in Hj1 by done. left. congruence.
Qed.

(** C4: whatever sequence of [todo show] runs follows, with any flags,
    arguments, typed lines, editor sessions, clock and disk health, a
    well-formed list store stays well formed, keeps its id counter, and
    keeps every task in its place with its [_id], [index], [status],
    [cronTime] and [notes]: no task is added, removed, reordered,
    re-identified, renumbered or re-scheduled, and a title that changes is
    never emptied.  By induction on the runs, each one by [main_store]. *)
Theorem runs_keep_identity (st st' : Store) :
  rtc run_step st st' → wf st →
  wf st' ∧ next_seq st' = next_seq st ∧ frozen <$> docs st' = frozen <$> docs st ∧
  (∀ i t t', docs st !! i = Some t → docs st' !! i = Some t' →
             title t' = title t ∨ truthy_str (title t') = true).
Proof.
  induction 1 as [s|s s1 s' Hstep _ IH]; intros Hwf.
  { split_and!; [done..|]. intros; left; congruence. }
  destruct (run_step_store _ _ Hstep Hwf) as (Hw1 & Hn1 & Hf1 & Ht1).
  destruct (IH Hw1) as (Hw' & Hn' & Hf' & Ht').
  split_and!; [done | congruence | congruence |]. intros i t t' Hi Hi'.
  destruct (docs s1 !! i) as [t1|] eqn:Hi1.
  - destruct (Ht1 i t t1 Hi Hi1), (Ht' i t1 t' Hi1 Hi'); [left | right | right | right]; congruence.
  - pose proof (f_equal (.!! i) Hf1) as Hl. cbn in Hl. rewrite !list_lookup_fmap, Hi, Hi1 in Hl. done.
Qed.

(** ** The command line *)


Section command_line.
Context {S : Type} `{StoreContract S}.
Local Abbreviation World := (World S).

(** C10: the whole script on an unknown one-letter option next to the index
    of a stored task: [todo show -x <index>] exits with code 1 and the
    "unknown option" error before reading the store, while
    [todo show <index> -x] shows the task. *)
Theorem todo_show_unknown_option (w : World) (t : TodoItem) (node script : string) (c : ascii) :
  c ≠ dash → c ≠ "e"%char → c ≠ "h"%char →
  st_wf (w_store w) → w_disk_ok w = true → t ∈ st_docs (w_store w) →
  todo_show [node; script; short_option c; z_text (index t)] w =
    (Throw (ProcessExit 1 ("  error: unknown option `" +:+ short_option c +:+ "'")), w) ∧
  todo_show [node; script; z_text (index t); short_option c] w =
    (Ok (), set_out (w_out w ++ taskScreen (w_now w) t) w).
Proof.
  intros Hd He Hh Hwf Hdisk Hin. pose proof (contract_wf_bounds _ _ Hwf Hin) as Hb. unfold max_safe in Hb.
  assert (Hx : plain_word (z_text (index t)) = true) by (apply z_text_plain; lia).
  unfold todo_show. rewrite parse_unknown_short_first, parse_unknown_short_last by done.
  split; [done|].
  rewrite main_arg_dispatch by eauto using z_text_truthy, elem_of_not_nil. cbn [edit_flag].
  rewrite z_text_reads_back by lia.
  apply run_showTask_found; [done | by apply contract_findOne_index_self | by apply (contract_wf_id_truthy (w_store w))].
Qed.

End command_line.

(** ** Witnesses *)

Lemma edit_then_show_witness :
  let t' := mkTodo (_id demo_deploy) (index demo_deploy) "Deploy v2"
              (flatten (demo_edit (description demo_deploy))) (status demo_deploy)
              (cronTime demo_deploy) (notes demo_deploy) in
  ∃ w1 w2, todo_show ["node"; "todo-show"; "-e"; z_text (index demo_deploy)] demo_world = (Ok (), w1) ∧
           todo_show ["node"; "todo-show"; z_text (index demo_deploy)] w1 = (Ok (), w2) ∧
           w_out w2 = w_out w1 ++ taskScreen (w_now demo_world) t'.
Proof.
  apply (edit_then_show demo_world demo_deploy "Deploy v2" [] demo_edit [] "node" "todo-show");
    [exact wf_demo_store | reflexivity | right; left | reflexivity | reflexivity].
Defined.

Lemma runs_keep_identity_witness :
  let st1 := w_store (snd (main (Some true) ["2"] demo_world)) in
  let st2 := w_store (snd (main None [] (mkWorld st1 false demo_now [] [] []))) in
  wf st2 ∧ next_seq st2 = next_seq demo_store ∧ frozen <$> docs st2 = frozen <$> docs demo_store ∧
  (∀ i t t', docs demo_store !! i = Some t → docs st2 !! i = Some t' →
             title t' = title t ∨ truthy_str (title t') = true).
Proof.
  apply runs_keep_identity; [| exact wf_demo_store].
  eapply rtc_l; [apply (run_step_main (Some true) ["2"] demo_world)|].
  eapply rtc_l; [apply (run_step_main None [] (mkWorld _ false demo_now [] [] []))|].
  apply rtc_refl.
Defined.

Lemma todo_show_unknown_option_witness :
  todo_show ["node"; "todo-show"; "-x"; z_text (index demo_deploy)] demo_world =
    (Throw (ProcessExit 1 ("  error: unknown option `" +:+ "-x" +:+ "'")), demo_world) ∧
  todo_show ["node"; "todo-show"; z_text (index demo_deploy); "-x"] demo_world =
    (Ok (), set_out (w_out demo_world ++ taskScreen (w_now demo_world) demo_deploy) demo_world).
Proof.
  apply (todo_show_unknown_option demo_world demo_deploy "node" "todo-show" "x"%char);
    [done | done | done | exact wf_demo_store | done | right; left].
Defined.
