(* ===== verification/Concurrent.v ===== *)
(** * Concurrent: two invocations of [todo show --edit] at once

    The spec (section 5) makes concurrent invocation a non-goal that "may
    race".  Two processes share only the collection file; each store call
    is atomic (it loads, operates and flushes the file), but [showEditor]
    (lines 34-46) reads the task at line 36, waits for the user at line
    38, and writes at line 44.  [TodoShow.editor_read] and
    [TodoShow.editor_write] are [showEditor] cut at that [await]
    ([TodoShow.showEditor_split]).

    Each process is a small state machine ([Phase]): [Reading] before its
    read, [Writing] with the task read and the record to write, [Finished]
    with its result.  A schedule is a list of process identities, one per
    step; the shared file passes from step to step while each process keeps
    its own world (console, typed lines, editor sessions), and a finished
    process does nothing when scheduled.  The theorem covers the six
    interleavings of the two processes' read and write: a serial schedule
    composes the two edits, every other one keeps only the last writer's
    edit of the original task, although both processes confirm. *)

From stdpp Require Import base list strings sets.
From Stdlib Require Import ZArith.
From S2P Require Import Prelude Js Todo Query Store StoreSpec Filter Effects TodoShow.

(** The two processes. *)
Inductive Proc := PA | PB.

#[export] Instance Proc_eq_dec : EqDecision Proc.
Proof. solve_decision. Defined.

(** All the ways of interleaving two sequences, each kept in order. *)
Fixpoint interleave {A} (l1 l2 : list A) : list (list A) :=
  match l1 with
  | [] => [l2]
  | x :: r1 =>
      (fix go (m : list A) : list (list A) :=
         match m with
         | [] => [l1]
         | y :: r2 => ((x ::.) <$> interleave r1 m) ++ ((y ::.) <$> go r2)
         end) l2
  end.

Section concurrent.
Context {S : Type} `{!StoreOps S}.
Local Abbreviation World := (World S).

(** Where one [todo show --edit] process stands. *)
Inductive Phase :=
  | Reading (w : World)
  | Writing (p : TodoItem * TodoItem) (w : World)
  | Finished (r : Res unit) (w : World).

(** One step of a process on the shared file: its read (lines 35-43,
    which leaves the file as it is), its write (lines 44-45), or nothing
    once it has finished. *)
Definition step_proc (idx : jsnum) (file : S) (ph : Phase) : S * Phase :=
  match ph with
  | Reading w =>
      let '(r, w') := editor_read idx (set_store file w) in
      (w_store w', match r with Ok p => Writing p w' | Throw e => Finished (Throw e) w' end)
  | Writing p w =>
      let '(r, w') := editor_write p (set_store file w) in (w_store w', Finished r w')
  | Finished _ _ => (file, ph)
  end.

(** Runs the scheduled steps in order. *)
Fixpoint run_schedule (idx : jsnum) (sched : list Proc) (file : S) (pa pb : Phase)
    : S * Phase * Phase :=
  match sched with
  | [] => (file, pa, pb)
  | PA :: r => let '(file', pa') := step_proc idx file pa in run_schedule idx r file' pa' pb
  | PB :: r => let '(file', pb') := step_proc idx file pb in run_schedule idx r file' pa pb'
  end.

End concurrent.

Arguments Phase S : clear implicits.

(** The record the editor writes for a task [u] when the user types the
    title [v] and the editor session turns the description into [f] of it
    (lines 38-43). *)
Definition edited (v : string) (f : string → string) (u : TodoItem) : TodoItem :=
  mkTodo (_id u) (index u) v (flatten (f (description u))) (status u) (cronTime u) (notes u).

(** The task the file ends with after a schedule of the two edits [eA] and
    [eB] of [t]: a serial schedule applies the second edit to the first
    one's record; in every other one both processes read [t], and the last
    writer's record replaces the other's. *)
Definition schedule_result (sched : list Proc) (eA eB : TodoItem → TodoItem) (t : TodoItem)
    : TodoItem :=
  match sched with
  | [PA; PA; PB; PB] => eB (eA t)
  | [PB; PB; PA; PA] => eA (eB t)
  | _ => if bool_decide (last sched = Some PA) then eA t else eB t
  end.

Definition swap_proc (x : Proc) : Proc := match x with PA => PB | PB => PA end.

(** A process whose user types a title and completes one editor session
    [f], on a readable file. *)
Definition editor_ready {S} (w : World S) (v : string) (f : string → string) : Prop :=
  w_disk_ok w = true ∧ truthy_str v = true ∧
  ∃ rest fs, w_input w = v :: rest ∧ w_editor w = f :: fs.

(** * Theorems *)

Section schedules.
Context {S : Type} `{StoreContract S}.
Local Abbreviation World := (World S).

Lemma run_schedule_A (idx : jsnum) (r : list Proc) (file file' : S) (pa pa' pb : Phase S) :
  step_proc idx file pa = (file', pa') →
  run_schedule idx (PA :: r) file pa pb = run_schedule idx r file' pa' pb.
Proof. intros E. cbn [run_schedule]. by rewrite E. Qed.

Lemma run_schedule_B (idx : jsnum) (r : list Proc) (file file' : S) (pa pb pb' : Phase S) :
  step_proc idx file pb = (file', pb') →
  run_schedule idx (PB :: r) file pa pb = run_schedule idx r file' pa pb'.
Proof. intros E. cbn [run_schedule]. by rewrite E. Qed.

(** Exchanging the two processes exchanges their roles in the schedule. *)
Lemma run_schedule_swap (idx : jsnum) (sched : list Proc) (file : S) (pa pb : Phase S) :
  run_schedule idx (swap_proc <$> sched) file pa pb =
  let '(f, pb', pa') := run_schedule idx sched file pb pa in (f, pa', pb').
Proof.
  revert file pa pb. induction sched as [|[] r IH]; intros file pa pb; [done| |];
    cbn [fmap list_fmap swap_proc run_schedule];
    [destruct (step_proc idx file pb) | destruct (step_proc idx file pa)]; apply IH.
Qed.

(** A first typed line that is not empty is the title, whatever the default. *)
Lemma ask_input_typed (dflt v : string) (rest : list string) :
  truthy_str v = true → ask_input dflt truthy_str (v :: rest) = Some (v, rest).
Proof. intros Hv. cbn. by rewrite !Hv. Qed.

(** The read step of a process whose user types a title and completes an
    editor session: it leaves the file alone and holds the edited record. *)
Lemma step_read (idx : jsnum) (file : S) (w : World) (u : TodoItem) (v : string)
    (rest : list string) (f : string → string) (fs : list (string → string)) :
  w_disk_ok w = true → st_findOne (q_index idx) file = Some u →
  w_input w = v :: rest → truthy_str v = true → w_editor w = f :: fs →
  ∃ w', step_proc idx file (Reading w) = (file, Writing (u, edited v f u) w') ∧ w_disk_ok w' = true.
Proof.
  intros Hd Hf Hi Hv He. unfold step_proc.
  rewrite (run_editor_read_found idx (set_store file w) u v rest f fs);
    [| done | done | by cbn; rewrite Hi; apply ask_input_typed | done].
  by eexists.
Qed.

(** The write step on a file that holds, at position [i], a record with
    the identity of the one read: it replaces that record in place. *)
Lemma step_write (idx : jsnum) (file : S) (p : TodoItem * TodoItem) (w : World)
    (i : nat) (u : TodoItem) :
  st_wf file → w_disk_ok w = true → st_docs file !! i = Some u →
  _id p.1 = _id u → _id p.2 = _id u → index p.2 = index u →
  ∃ file' w', step_proc idx file (Writing p w) = (file', Finished (Ok ()) w') ∧
    st_docs file' = <[i := p.2]> (st_docs file) ∧ st_wf file' ∧
    last (w_out w') = Some (plain ("task updated." +:+ nl)).
Proof.
  intros Hwf Hd Hi H1 H2 H3.
  destruct (update_same_identity file i u p.2 Hwf Hi H2 H3) as (file' & Hup & Hdocs).
  unfold step_proc. rewrite (run_editor_write p (set_store file w) file'); [|done | by rewrite H1].
  eexists _, _. split; [reflexivity|]. split_and!; [done | | cbn; by rewrite last_snoc].
  by apply (contract_wf_update _ _ _ _ Hwf Hup).
Qed.

(** The lookup by index finds the record at its position. *)
Lemma findOne_at (idx : jsnum) (file : S) (i : nat) (u : TodoItem) :
  st_wf file → st_docs file !! i = Some u → idx = JInt (index u) →
  st_findOne (q_index idx) file = Some u.
Proof.
  intros Hwf Hi ->. apply contract_findOne_index_self; [done|].
  by apply list_elem_of_lookup_2 in Hi.
Qed.

(** ** The interleavings that start with process [A] *)

Section first_A.
Context (idx : jsnum) (s0 : S) (t : TodoItem) (i : nat).
Hypothesis Hwf : st_wf s0.
Hypothesis Hi : st_docs s0 !! i = Some t.
Hypothesis Hidx : idx = JInt (index t).

Lemma written_at (s : S) (x : TodoItem) : st_docs s = <[i := x]> (st_docs s0) → st_docs s !! i = Some x.
Proof. intros ->. apply list_lookup_insert_eq. by apply lookup_lt_Some in Hi. Qed.

Lemma run_first_A (sched : list Proc) (w1 w2 : World) (v1 v2 : string) (f1 f2 : string → string) :
  sched ∈ [[PA; PA; PB; PB]; [PA; PB; PA; PB]; [PA; PB; PB; PA]] →
  editor_ready w1 v1 f1 → editor_ready w2 v2 f2 →
  ∃ s' w1' w2', run_schedule idx sched s0 (Reading w1) (Reading w2) =
                  (s', Finished (Ok ()) w1', Finished (Ok ()) w2') ∧
    st_docs s' = <[i := schedule_result sched (edited v1 f1) (edited v2 f2) t]> (st_docs s0) ∧
    last (w_out w1') = Some (plain ("task updated." +:+ nl)) ∧
    last (w_out w2') = Some (plain ("task updated." +:+ nl)).
Proof.
  intros Hs (Hd1 & Hv1 & r1 & g1 & Hin1 & He1) (Hd2 & Hv2 & r2 & g2 & Hin2 & He2).
  pose proof (findOne_at idx s0 i t Hwf Hi Hidx) as Hf.
  destruct (step_read idx s0 w1 t v1 r1 f1 g1 Hd1 Hf Hin1 Hv1 He1) as (w1a & R1 & Hd1a).
  destruct (step_read idx s0 w2 t v2 r2 f2 g2 Hd2 Hf Hin2 Hv2 He2) as (w2a & R2 & Hd2a).
  repeat (apply elem_of_cons in Hs as [->|Hs]); [| | | by apply elem_of_nil in Hs];
    rewrite (run_schedule_A _ _ _ _ _ _ _ R1).
  - destruct (step_write idx s0 (t, edited v1 f1 t) w1a i t Hwf Hd1a Hi eq_refl eq_refl eq_refl)
      as (s1 & w1b & W1 & D1 & Hwf1 & O1).
    rewrite (run_schedule_A _ _ _ _ _ _ _ W1).
    destruct (step_read idx s1 w2 (edited v1 f1 t) v2 r2 f2 g2 Hd2
                (findOne_at idx s1 i _ Hwf1 (written_at s1 _ D1) Hidx) Hin2 Hv2 He2) as (w2b & R2' & Hd2b).
    rewrite (run_schedule_B _ _ _ _ _ _ _ R2').
    destruct (step_write idx s1 (edited v1 f1 t, edited v2 f2 (edited v1 f1 t)) w2b i _ Hwf1 Hd2b
                (written_at s1 _ D1) eq_refl eq_refl eq_refl)
      as (s2 & w2c & W2 & D2 & _ & O2).
    rewrite (run_schedule_B _ _ _ _ _ _ _ W2). eexists _, _, _. split; [reflexivity|].
    split_and!; [by rewrite D2, D1, list_insert_insert_eq | done | done].
  - rewrite (run_schedule_B _ _ _ _ _ _ _ R2).
    destruct (step_write idx s0 (t, edited v1 f1 t) w1a i t Hwf Hd1a Hi eq_refl eq_refl eq_refl)
      as (s1 & w1b & W1 & D1 & Hwf1 & O1).
    rewrite (run_schedule_A _ _ _ _ _ _ _ W1).
    destruct (step_write idx s1 (t, edited v2 f2 t) w2a i _ Hwf1 Hd2a (written_at s1 _ D1)
                eq_refl eq_refl eq_refl) as (s2 & w2b & W2 & D2 & _ & O2).
    rewrite (run_schedule_B _ _ _ _ _ _ _ W2). eexists _, _, _. split; [reflexivity|].
    split_and!; [by rewrite D2, D1, list_insert_insert_eq | done | done].
  - rewrite (run_schedule_B _ _ _ _ _ _ _ R2).
    destruct (step_write idx s0 (t, edited v2 f2 t) w2a i t Hwf Hd2a Hi eq_refl eq_refl eq_refl)
      as (s1 & w2b & W2 & D1 & Hwf1 & O2).
    rewrite (run_schedule_B _ _ _ _ _ _ _ W2).
    destruct (step_write idx s1 (t, edited v1 f1 t) w1a i _ Hwf1 Hd1a (written_at s1 _ D1)
                eq_refl eq_refl eq_refl) as (s2 & w1b & W1 & D2 & _ & O1).
    rewrite (run_schedule_A _ _ _ _ _ _ _ W1). eexists _, _, _. split; [reflexivity|].
    split_and!; [by rewrite D2, D1, list_insert_insert_eq | done | done].
Qed.
End first_A.

(** The six interleavings of two reads and writes. *)
Lemma interleave_two :
  interleave [PA; PA] [PB; PB] =
  [[PA; PA; PB; PB]; [PA; PB; PA; PB]; [PA; PB; PB; PA];
   [PB; PA; PA; PB]; [PB; PA; PB; PA]; [PB; PB; PA; PA]].
Proof. reflexivity. Qed.

Lemma schedule_result_swap (sc : list Proc) (eA eB : TodoItem → TodoItem) (t : TodoItem) :
  sc ∈ [[PA; PA; PB; PB]; [PA; PB; PA; PB]; [PA; PB; PB; PA]] →
  schedule_result (swap_proc <$> sc) eA eB t = schedule_result sc eB eA t.
Proof.
  intros Hs. repeat (apply elem_of_cons in Hs as [->|Hs]); [done.. | by apply elem_of_nil in Hs].
Qed.

(** C35: two concurrent [todo show --edit <index>] on the same task, under
    every interleaving of their reads (line 36) and writes (line 44): both
    processes print "task updated.", and the file ends with the task's
    position holding [schedule_result]: the two edits composed when one
    process ran entirely before the other, and otherwise only the last
    writer's edit of the original task; the other process's title and
    description are lost in four schedules of six. *)
Theorem schedules_lose_update (idx : jsnum) (s0 : S) (t : TodoItem) (wA wB : World)
    (vA vB : string) (fA fB : string → string) (sched : list Proc) :
  st_wf s0 → st_findOne (q_index idx) s0 = Some t →
  editor_ready wA vA fA → editor_ready wB vB fB → sched ∈ interleave [PA; PA] [PB; PB] →
  ∃ i s' wA' wB', run_schedule idx sched s0 (Reading wA) (Reading wB) =
                    (s', Finished (Ok ()) wA', Finished (Ok ()) wB') ∧
    st_docs s0 !! i = Some t ∧
    st_docs s' = <[i := schedule_result sched (edited vA fA) (edited vB fB) t]> (st_docs s0) ∧
    last (w_out wA') = Some (plain ("task updated." +:+ nl)) ∧
    last (w_out wB') = Some (plain ("task updated." +:+ nl)).
Proof.
  intros Hwf Hf HA HB Hs.
  destruct (contract_findOne_index _ _ _ Hf) as [Hidx [i Hi]%list_elem_of_lookup].
  exists i. rewrite interleave_two in Hs.
  assert (sched ∈ [[PA; PA; PB; PB]; [PA; PB; PA; PB]; [PA; PB; PB; PA]] ∨
          ∃ sc, sc ∈ [[PA; PA; PB; PB]; [PA; PB; PA; PB]; [PA; PB; PB; PA]] ∧
                sched = swap_proc <$> sc) as [HsA | (sc & HsA & ->)].
  { repeat (apply elem_of_cons in Hs as [->|Hs]); [left; set_solver.. | | | | by apply elem_of_nil in Hs].
    - right. exists [PA; PB; PB; PA]. split; [set_solver | reflexivity].
    - right. exists [PA; PB; PA; PB]. split; [set_solver | reflexivity].
    - right. exists [PA; PA; PB; PB]. split; [set_solver | reflexivity]. }
  - destruct (run_first_A idx s0 t i Hwf Hi Hidx sched wA wB vA vB fA fB HsA HA HB)
      as (s' & wA' & wB' & R & D & OA & OB). by exists s', wA', wB'.
  - rewrite run_schedule_swap.
    destruct (run_first_A idx s0 t i Hwf Hi Hidx sc wB wA vB vA fB fA HsA HB HA)
      as (s' & wB' & wA' & R & D & OB & OA).
    rewrite R. exists s', wA', wB'. split_and!; try done. by rewrite D, schedule_result_swap.
Qed.

End schedules.

(** ** Witnesses *)

Lemma schedules_lose_update_witness :
  let wB := mkWorld demo_store true demo_now ["Deploy now"] [λ s, s] [] in
  st_wf demo_store ∧ st_findOne (q_index (JInt 2)) demo_store = Some demo_deploy ∧
  editor_ready demo_world "Deploy v2" demo_edit ∧ editor_ready wB "Deploy now" (λ s, s) ∧
  [PA; PB; PB; PA] ∈ interleave [PA; PA] [PB; PB] ∧
  ∃ i s' wA' wB', run_schedule (JInt 2) [PA; PB; PB; PA] demo_store (Reading demo_world) (Reading wB) =
                    (s', Finished (Ok ()) wA', Finished (Ok ()) wB') ∧
    st_docs demo_store !! i = Some demo_deploy ∧
    st_docs s' = <[i := schedule_result [PA; PB; PB; PA] (edited "Deploy v2" demo_edit)
                          (edited "Deploy now" (λ s, s)) demo_deploy]> (st_docs demo_store) ∧
    last (w_out wA') = Some (plain ("task updated." +:+ nl)) ∧
    last (w_out wB') = Some (plain ("task updated." +:+ nl)).
Proof.
  intros wB.
  assert (Hwf : st_wf demo_store) by exact wf_demo_store.
  assert (Hf : st_findOne (q_index (JInt 2)) demo_store = Some demo_deploy) by reflexivity.
  assert (HA : editor_ready demo_world "Deploy v2" demo_edit)
    by (split; [reflexivity|]; split; [reflexivity|]; by eexists _, _).
  assert (HB : editor_ready wB "Deploy now" (λ s, s))
    by (split; [reflexivity|]; split; [reflexivity|]; by eexists _, _).
  assert (Hs : [PA; PB; PB; PA] ∈ interleave [PA; PA] [PB; PB]) by (rewrite interleave_two; set_solver).
  split_and!; try assumption.
  exact (schedules_lose_update (JInt 2) demo_store demo_deploy demo_world wB _ _ _ _ _ Hwf Hf HA HB Hs).
Defined.
